(** * tgBackup: the synchronization engine

    A shallow embedding of the Go sources of tgBackup
    ([main.go], [internal/telegram/client.go], [internal/database/database.go],
    [internal/models/models.go]) and the properties of its synchronization
    engine: peer resolution, message normalization, the per-user cursor state
    machine, the channel watermark resync and the periodic scheduler.

    Go [int] and [int64] values are integers of [Z]; the one arithmetic
    operation of the engine (the area of a photo variant) has its 64-bit
    wrap-around written out.  [time.Time] values are Unix seconds.  A Go
    interface value is an inductive type with one constructor per dynamic
    type, and a nil interface is [None]. *)

From Stdlib Require Import ZArith Lia Ascii String Sorted.
From stdpp Require Import base option list gmap strings pretty.

Local Open Scope Z_scope.

(** ** Go preliminaries *)

Definition error := string.

(** A Go [(value, error)] pair whose value is only read when the error is nil. *)
Inductive result (A : Type) : Type :=
| Ok (a : A)
| Err (e : error).
Arguments Ok {A} a.
Arguments Err {A} e.

Definition is_ok {A} (r : result A) : bool :=
  match r with Ok _ => true | Err _ => false end.

Definition is_err {A} (r : result A) : bool := negb (is_ok r).

(** [int] is 64 bits wide on the platforms the program is built for: the
    result of an [int] operation is its value modulo 2^64, in the signed
    range. *)
Definition wrap_int (z : Z) : Z := (z + 2 ^ 63) mod 2 ^ 64 - 2 ^ 63.

Definition mul_int (a b : Z) : Z := wrap_int (a * b).

Definition newline : string := String "010"%char EmptyString.

(** U+1F4C1, the folder glyph of the media suffix, in UTF-8. *)
Definition folder_glyph : string :=
  String "240"%char (String "159"%char (String "147"%char (String "129"%char EmptyString))).

Module strconv.

Definition digit_value (c : ascii) : option Z :=
  let n := Z.of_N (N_of_ascii c) in
  if (48 <=? n) && (n <=? 57) then Some (n - 48) else None.

Fixpoint digits_value (s : string) (acc : Z) : option Z :=
  match s with
  | EmptyString => Some acc
  | String c rest =>
      match digit_value c with
      | Some d => digits_value rest (10 * acc + d)
      | None => None
      end
  end.

(** The digits of [ParseUint(s, 10, 64)]: a syntax error on the empty
    string and on any character that is not a decimal digit.  The value is
    not truncated here; [ParseInt] checks the range. *)
Definition ParseUint (s : string) : option Z :=
  match s with
  | EmptyString => None
  | _ => digits_value s 0
  end.

(** [strconv.ParseInt(s, 10, 64)]: an optional sign, decimal digits, and a
    value within the signed 64-bit range. *)
Definition ParseInt (s : string) : result Z :=
  match s with
  | EmptyString => Err "strconv.ParseInt: invalid syntax"
  | String c rest =>
      let neg := bool_decide (c = "-"%char) in
      let body := if bool_decide (c = "+"%char) || neg then rest else s in
      match ParseUint body with
      | None => Err "strconv.ParseInt: invalid syntax"
      | Some un =>
          if negb neg && (2 ^ 63 <=? un) then Err "strconv.ParseInt: value out of range"
          else if neg && (2 ^ 63 <? un) then Err "strconv.ParseInt: value out of range"
          else Ok (if neg then - un else un)
      end
  end.

End strconv.

(** ** The remote platform's types (package [tg]) *)

Module tg.

Inductive PeerClass : Type :=
| PeerUser (UserID : Z)
| PeerChat (ChatID : Z)
| PeerChannel (ChannelID : Z).

Inductive InputPeerClass : Type :=
| InputPeerUser (UserID AccessHash : Z)
| InputPeerChat (ChatID : Z)
| InputPeerChannel (ChannelID AccessHash : Z).

Record PhotoSize : Type := mkPhotoSize {
  PhotoSize_Type : string;
  PhotoSize_W : Z;
  PhotoSize_H : Z;
  PhotoSize_Size : Z
}.

Inductive PhotoSizeClass : Type :=
| PhotoSizeEmpty (Type_ : string)
| APhotoSize (p : PhotoSize)
| PhotoCachedSize (Type_ : string) (W H : Z) (Bytes : string)
| PhotoStrippedSize (Type_ : string) (Bytes : string)
| PhotoSizeProgressive (Type_ : string) (W H : Z) (Sizes : list Z)
| PhotoPathSize (Type_ : string) (Bytes : string).

Record Photo : Type := mkPhoto {
  Photo_ID : Z;
  Photo_Sizes : list PhotoSizeClass
}.

Inductive PhotoClass : Type :=
| PhotoEmpty (ID : Z)
| APhoto (p : Photo).

Inductive DocumentAttributeClass : Type :=
| DocumentAttributeImageSize (W H : Z)
| DocumentAttributeAnimated
| DocumentAttributeSticker (Alt : string)
| DocumentAttributeVideo (Duration W H : Z)
| DocumentAttributeAudio (Duration : Z) (Title Performer : string)
| DocumentAttributeFilename (FileName : string)
| DocumentAttributeHasStickers
| DocumentAttributeCustomEmoji (Alt : string).

Record Document : Type := mkDocument {
  Document_ID : Z;
  Document_Size : Z;
  Document_Attributes : list DocumentAttributeClass
}.

Inductive DocumentClass : Type :=
| DocumentEmpty (ID : Z)
| ADocument (d : Document).

Inductive MessageMediaClass : Type :=
| MessageMediaEmpty
| MessageMediaPhoto (Photo : option PhotoClass)
| MessageMediaGeo
| MessageMediaContact
| MessageMediaUnsupported
| MessageMediaDocument (Document : option DocumentClass)
| MessageMediaWebPage
| MessageMediaVenue
| MessageMediaGame
| MessageMediaPoll
| MessageMediaDice.

Record Message : Type := mkMessage {
  Message_ID : Z;
  Message_FromID : option PeerClass;
  Message_PeerID : option PeerClass;
  Message_Message : string;
  Message_Media : option MessageMediaClass;
  Message_Date : Z
}.

Inductive MessageClass : Type :=
| MessageEmpty (ID : Z)
| AMessage (m : Message)
| MessageService (ID : Z).

Record User : Type := mkUser {
  User_ID : Z;
  User_AccessHash : Z;
  User_FirstName : string;
  User_LastName : string;
  User_Username : string;
  User_Bot : bool
}.

Inductive UserClass : Type :=
| UserEmpty (ID : Z)
| AUser (u : User).

Inductive MessagesMessagesClass : Type :=
| MessagesMessages (Messages : list MessageClass) (Users : list UserClass)
| MessagesMessagesSlice (Messages : list MessageClass) (Users : list UserClass)
| MessagesChannelMessages (Messages : list MessageClass) (Users : list UserClass)
| MessagesMessagesNotModified (Count : Z).

Record UpdatesState : Type := mkUpdatesState {
  Pts : Z;
  Qts : Z;
  Date : Z;
  Seq : Z
}.

Record UpdatesDifference : Type := mkUpdatesDifference {
  NewMessages : list MessageClass;
  Users : list UserClass;
  State : UpdatesState
}.

Inductive UpdatesDifferenceClass : Type :=
| UpdatesDifferenceEmpty (Date Seq : Z)
| AnUpdatesDifference (d : UpdatesDifference)
| UpdatesDifferenceSlice (NewMessages : list MessageClass) (Users : list UserClass)
    (IntermediateState : UpdatesState)
| UpdatesDifferenceTooLong (Pts : Z).

#[export] Instance UpdatesState_eq_dec : EqDecision UpdatesState.
Proof. solve_decision. Defined.

#[export] Instance InputPeerClass_eq_dec : EqDecision InputPeerClass.
Proof. solve_decision. Defined.

End tg.

(** ** The stored entities (package [models]) *)

Module models.

Record User : Type := mkUser {
  User_ID : Z;
  User_FirstName : string;
  User_LastName : string;
  User_Username : string;
  User_Phone : string;
  User_IsActive : bool;
  User_LastSyncTime : Z;
  User_UpdatedAt : Z
}.

Record Conversation : Type := mkConversation {
  Conversation_ID : Z;
  Conversation_UserID : Z;
  Conversation_Type : string;
  Conversation_Title : string;
  Conversation_Username : string;
  Conversation_AvatarURL : string;
  Conversation_AccessHash : string;
  Conversation_LastMessage : string;
  Conversation_LastTime : Z
}.

Record Message : Type := mkMessage {
  ID : Z;
  UserID : Z;
  ConversationID : Z;
  MessageID : Z;
  FromID : Z;
  FromUsername : string;
  FromFirstName : string;
  FromLastName : string;
  Content : string;
  MessageType : string;
  MediaURL : string;
  Timestamp : Z
}.

Record AuthSession : Type := mkAuthSession {
  AuthSession_ID : Z;
  AuthSession_UserID : Z;
  AuthSession_IsActive : bool;
  AuthSession_AppID : Z;
  AuthSession_AppHash : string;
  AuthSession_CreatedAt : Z
}.

Definition Message_with_UserID (m : Message) (userID : Z) : Message :=
  mkMessage (ID m) userID (ConversationID m) (MessageID m) (FromID m)
    (FromUsername m) (FromFirstName m) (FromLastName m) (Content m)
    (MessageType m) (MediaURL m) (Timestamp m).

Definition Message_with_ConversationID (m : Message) (conversationID : Z) : Message :=
  mkMessage (ID m) (UserID m) conversationID (MessageID m) (FromID m)
    (FromUsername m) (FromFirstName m) (FromLastName m) (Content m)
    (MessageType m) (MediaURL m) (Timestamp m).

Definition Message_with_ID (m : Message) (id : Z) : Message :=
  mkMessage id (UserID m) (ConversationID m) (MessageID m) (FromID m)
    (FromUsername m) (FromFirstName m) (FromLastName m) (Content m)
    (MessageType m) (MediaURL m) (Timestamp m).

Definition Conversation_with_UserID (c : Conversation) (userID : Z) : Conversation :=
  mkConversation (Conversation_ID c) userID (Conversation_Type c)
    (Conversation_Title c) (Conversation_Username c) (Conversation_AvatarURL c)
    (Conversation_AccessHash c) (Conversation_LastMessage c) (Conversation_LastTime c).

Definition User_with_IsActive (u : User) (active : bool) : User :=
  mkUser (User_ID u) (User_FirstName u) (User_LastName u) (User_Username u)
    (User_Phone u) active (User_LastSyncTime u) (User_UpdatedAt u).

Definition User_with_UpdatedAt (u : User) (now : Z) : User :=
  mkUser (User_ID u) (User_FirstName u) (User_LastName u) (User_Username u)
    (User_Phone u) (User_IsActive u) (User_LastSyncTime u) now.

#[export] Instance Message_eq_dec : EqDecision Message.
Proof. solve_decision. Defined.

#[export] Instance User_eq_dec : EqDecision User.
Proof. solve_decision. Defined.

End models.


(** ** Message normalization (package [telegram], pure part) *)

Module normalizer.

(** The mutable locals of [parseMessageWithUsers] that the media switch
    assigns. *)
Record media_vars : Type := mkMediaVars {
  content : string;
  messageType : string;
  mediaURL : string;
  mediaName : string
}.

(** [if content == "" { content = ph }] *)
Definition placeholder (ph : string) (content : string) : string :=
  if bool_decide (content = "") then ph else content.

(** One iteration of the loop over [photo.Sizes] in [getPhotoURL]; the state
    is the pair [(largestSize, maxSize)]. *)
Definition size_step (acc : option tg.PhotoSize * Z) (size : tg.PhotoSizeClass)
  : option tg.PhotoSize * Z :=
  match size with
  | tg.APhotoSize photoSize =>
      let currentSize := mul_int (tg.PhotoSize_W photoSize) (tg.PhotoSize_H photoSize) in
      if snd acc <? currentSize then (Some photoSize, currentSize) else acc
  | _ => acc
  end.

Definition largestSize (sizes : list tg.PhotoSizeClass) : option tg.PhotoSize :=
  fst (foldl size_step (None, 0) sizes).

Definition photo_url (id : Z) (size : tg.PhotoSize) : string :=
  "telegram://photo/" +:+ pretty id +:+ "_" +:+ pretty (tg.PhotoSize_Size size).

Definition getPhotoURL (photo : tg.Photo) : string :=
  match tg.Photo_Sizes photo with
  | [] => ""
  | _ =>
      match largestSize (tg.Photo_Sizes photo) with
      | Some largest => photo_url (tg.Photo_ID photo) largest
      | None => ""
      end
  end.

Definition getDocumentURL (doc : tg.Document) : string :=
  "telegram://document/" +:+ pretty (tg.Document_ID doc) +:+ "_" +:+ pretty (tg.Document_Size doc).

(** One iteration of the loop over [doc.Attributes]. *)
Definition attr_step (v : media_vars) (attr : tg.DocumentAttributeClass) : media_vars :=
  match attr with
  | tg.DocumentAttributeVideo _ _ _ =>
      mkMediaVars (placeholder "[Video]" (content v)) "video" (mediaURL v) (mediaName v)
  | tg.DocumentAttributeAudio _ title _ =>
      mkMediaVars (placeholder "[Audio]" (content v)) "audio" (mediaURL v)
        (if bool_decide (title = "") then mediaName v else title)
  | tg.DocumentAttributeFilename fileName =>
      mkMediaVars (content v) (messageType v) (mediaURL v) fileName
  | tg.DocumentAttributeImageSize _ _ =>
      if bool_decide (messageType v = "text")
      then mkMediaVars (placeholder "[Image]" (content v)) "image" (mediaURL v) (mediaName v)
      else v
  | tg.DocumentAttributeAnimated =>
      mkMediaVars (placeholder "[GIF]" (content v)) "gif" (mediaURL v) (mediaName v)
  | tg.DocumentAttributeSticker _ =>
      mkMediaVars (placeholder "[Sticker]" (content v)) "sticker" (mediaURL v) (mediaName v)
  | _ => v
  end.

(** The [*tg.MessageMediaDocument] case for a document that is a
    [*tg.Document]. *)
Definition document_vars (v : media_vars) (doc : tg.Document) : media_vars :=
  let v1 := foldl attr_step v (tg.Document_Attributes doc) in
  let v2 :=
    if bool_decide (messageType v1 = "text")
    then mkMediaVars (placeholder "[Document]" (content v1)) "document" (mediaURL v1) (mediaName v1)
    else v1 in
  let name :=
    if bool_decide (mediaName v2 = "") then messageType v2 +:+ "." +:+ "file" else mediaName v2 in
  mkMediaVars (content v2) (messageType v2) (getDocumentURL doc) name.

(** The switch over [msg.Media]. *)
Definition media_switch (v : media_vars) (media : tg.MessageMediaClass) : media_vars :=
  match media with
  | tg.MessageMediaPhoto photo =>
      mkMediaVars (placeholder "[Photo]" (content v)) "photo"
        (match photo with
         | Some (tg.APhoto p) => getPhotoURL p
         | _ => mediaURL v
         end)
        (mediaName v)
  | tg.MessageMediaDocument document =>
      match document with
      | Some (tg.ADocument doc) => document_vars v doc
      | _ => v
      end
  | tg.MessageMediaWebPage =>
      mkMediaVars (placeholder "[Webpage]" (content v)) (messageType v) (mediaURL v) (mediaName v)
  | tg.MessageMediaContact =>
      mkMediaVars (placeholder "[Contact]" (content v)) "contact" (mediaURL v) (mediaName v)
  | tg.MessageMediaGeo =>
      mkMediaVars (placeholder "[Location]" (content v)) "location" (mediaURL v) (mediaName v)
  | tg.MessageMediaPoll =>
      mkMediaVars (placeholder "[Poll]" (content v)) "poll" (mediaURL v) (mediaName v)
  | _ => v
  end.

(** The first [*tg.User] of the directory with the given id (the loop with
    [break]). *)
Fixpoint find_user (users : list tg.UserClass) (userID : Z) : option tg.User :=
  match users with
  | [] => None
  | tg.AUser user :: rest =>
      if bool_decide (tg.User_ID user = userID) then Some user else find_user rest userID
  | _ :: rest => find_user rest userID
  end.

(** The switch over [msg.FromID]: the sender id and the sender's
    (username, first name, last name). *)
Definition sender (from : option tg.PeerClass) (users : list tg.UserClass)
  : Z * (string * string * string) :=
  match from with
  | Some (tg.PeerUser userID) =>
      (userID,
       match find_user users userID with
       | Some user => (tg.User_Username user, tg.User_FirstName user, tg.User_LastName user)
       | None => ("", "", "")
       end)
  | Some (tg.PeerChat chatID) => (chatID, ("", "", ""))
  | Some (tg.PeerChannel channelID) => (channelID, ("", "", ""))
  | None => (0, ("", "", ""))
  end.

(** [fmt.Sprintf("%s\n📁 %s", content, mediaName)] *)
Definition with_media_suffix (content mediaName : string) : string :=
  content +:+ newline +:+ folder_glyph +:+ " " +:+ mediaName.

Definition parseMessageWithUsers (msg : tg.Message) (users : list tg.UserClass)
  : models.Message :=
  let v0 := mkMediaVars (tg.Message_Message msg) "text" "" "" in
  let v :=
    match tg.Message_Media msg with
    | Some media => media_switch v0 media
    | None => v0
    end in
  let '(fromID, (fromUsername, fromFirstName, fromLastName)) :=
    sender (tg.Message_FromID msg) users in
  let content' :=
    if bool_decide (mediaName v ≠ "") && bool_decide (content v ≠ "")
    then with_media_suffix (content v) (mediaName v)
    else content v in
  models.mkMessage 0 0 0 (tg.Message_ID msg) fromID fromUsername fromFirstName
    fromLastName content' (messageType v) (mediaURL v) (tg.Message_Date msg).

(** The loop shared by the three cases of [parseMessagesResponse]. *)
Definition parse_step (users : list tg.UserClass) (peerID : Z)
    (result : list models.Message) (msg : tg.MessageClass) : list models.Message :=
  match msg with
  | tg.AMessage message =>
      result ++ [models.Message_with_ConversationID (parseMessageWithUsers message users) peerID]
  | _ => result
  end.

Definition parseMessagesResponse (messages : tg.MessagesMessagesClass) (peerID : Z)
  : result (list models.Message) :=
  match messages with
  | tg.MessagesMessages msgs users => Ok (foldl (parse_step users peerID) [] msgs)
  | tg.MessagesMessagesSlice msgs users => Ok (foldl (parse_step users peerID) [] msgs)
  | tg.MessagesChannelMessages msgs users => Ok (foldl (parse_step users peerID) [] msgs)
  | tg.MessagesMessagesNotModified _ => Ok []
  end.

(** The conversation id that [ParseUpdatesMessages] reads off [message.PeerID]. *)
Definition peer_conversation (m : models.Message) (peer : option tg.PeerClass) : models.Message :=
  match peer with
  | Some (tg.PeerUser userID) => models.Message_with_ConversationID m userID
  | Some (tg.PeerChat chatID) => models.Message_with_ConversationID m chatID
  | Some (tg.PeerChannel channelID) => models.Message_with_ConversationID m channelID
  | None => m
  end.

Definition updates_step (users : list tg.UserClass) (userID : Z)
    (messages : list models.Message) (msg : tg.MessageClass) : list models.Message :=
  match msg with
  | tg.AMessage message =>
      let parsedMsg := models.Message_with_UserID (parseMessageWithUsers message users) userID in
      messages ++ [peer_conversation parsedMsg (tg.Message_PeerID message)]
  | _ => messages
  end.

Definition ParseUpdatesMessages (updates : tg.UpdatesDifference) (userID : Z)
  : list models.Message :=
  foldl (updates_step (tg.Users updates) userID) [] (tg.NewMessages updates).

End normalizer.


(** ** Storage (package [database]) *)

Module database.

(** The SQLite tables the engine reads and writes.  A table is the list of
    its rows in insertion order; [updates_state], which is only ever addressed
    through its unique [user_id], is a finite map.  [online] says whether the
    database handle answers: when it does not, every statement returns an
    error and changes nothing.  Columns that no query of the engine reads or
    orders by ([created_at] of messages, users and conversations) are left
    out.

    A [time.Time] that the code binds to a statement is stored as the text
    the driver writes for it, the local time of the process with its offset
    ([2006-01-02 15:04:05.999999999-07:00]), and [ORDER BY] on such a column
    compares these texts.  [time_text] is that text, for the time values of
    the rows: the zone of the process is taken not to change over the life
    of the handle. *)
Record DB : Type := mkDB {
  online : bool;
  time_text : Z → string;
  users : list models.User;
  conversations : list models.Conversation;
  messages : list models.Message;
  messages_seq : Z;
  auth_sessions : list models.AuthSession;
  updates_state : gmap Z tg.UpdatesState
}.

Definition ErrNoRows : error := "sql: no rows in result set".
Definition ErrConnDone : error := "sql: database is closed".

(** A stable insertion sort: a row is put before the first row it goes
    before, so rows of which neither goes before the other keep their
    order. *)
Fixpoint insert_sorted {A} (before : A → A → bool) (x : A) (rows : list A) : list A :=
  match rows with
  | [] => [x]
  | y :: rest => if before x y then x :: y :: rest else y :: insert_sorted before x rest
  end.

Definition sort_stable {A} (before : A → A → bool) (rows : list A) : list A :=
  foldl (λ sorted x, insert_sorted before x sorted) [] rows.

(** The rows of a table in the order the engine visits them for a query:
    by ascending rowid for a scan of the table, by ascending key of the
    index for a search through an index. *)
Definition scan {A} (rank : A → Z) (rows : list A) : list A :=
  sort_stable (λ x y, rank x <? rank y) rows.

(** [ORDER BY key DESC] over the rows visited: the sorter of SQLite keeps
    rows whose keys are equal in the order visited.  [leb] is the order of
    the column: of integers, or of texts byte by byte ([String.leb]). *)
Definition order_by_desc {A K} (leb : K → K → bool) (key : A → K) (visited : list A)
  : list A :=
  sort_stable (λ x y, negb (leb (key x) (key y))) visited.

(** [LIMIT limit OFFSET offset]; a negative limit is no limit, a negative
    offset is none. *)
Definition limit_offset {A} (limit offset : Z) (rows : list A) : list A :=
  let rest := drop (Z.to_nat offset) rows in
  if limit <? 0 then rest else take (Z.to_nat limit) rest.

Definition with_users (db : DB) (rows : list models.User) : DB :=
  mkDB (online db) (time_text db) rows (conversations db) (messages db) (messages_seq db)
    (auth_sessions db) (updates_state db).

Definition with_conversations (db : DB) (rows : list models.Conversation) : DB :=
  mkDB (online db) (time_text db) (users db) rows (messages db) (messages_seq db)
    (auth_sessions db) (updates_state db).

Definition with_messages (db : DB) (rows : list models.Message) (seq : Z) : DB :=
  mkDB (online db) (time_text db) (users db) (conversations db) rows seq
    (auth_sessions db) (updates_state db).

Definition with_updates_state (db : DB) (m : gmap Z tg.UpdatesState) : DB :=
  mkDB (online db) (time_text db) (users db) (conversations db) (messages db)
    (messages_seq db) (auth_sessions db) m.

(** [INSERT OR REPLACE INTO users]; [id] is the primary key. *)
Definition SaveUser (db : DB) (user : models.User) (now : Z) : option error * DB :=
  if online db then
    (None,
     with_users db
       (filter (λ row, models.User_ID row ≠ models.User_ID user) (users db)
        ++ [models.User_with_UpdatedAt user now]))
  else (Some ErrConnDone, db).

(** [SELECT ... FROM users ORDER BY updated_at DESC]: a scan of the table,
    whose rowid is [id]. *)
Definition GetUsers (db : DB) : result (list models.User) :=
  if online db then
    Ok (order_by_desc String.leb (λ row, time_text db (models.User_UpdatedAt row))
          (scan models.User_ID (users db)))
  else Err ErrConnDone.

(** [INSERT OR REPLACE INTO conversations]; [id] alone is the primary key. *)
Definition SaveConversation (db : DB) (conv : models.Conversation) : option error * DB :=
  if online db then
    (None,
     with_conversations db
       (filter (λ row, models.Conversation_ID row ≠ models.Conversation_ID conv)
          (conversations db)
        ++ [conv]))
  else (Some ErrConnDone, db).

(** [SELECT ... FROM conversations WHERE user_id = ? ORDER BY last_time DESC]:
    a scan of the table, whose rowid is [id]. *)
Definition GetConversationsByUserID (db : DB) (userID : Z) : result (list models.Conversation) :=
  if online db then
    Ok (order_by_desc String.leb (λ row, time_text db (models.Conversation_LastTime row))
          (scan models.Conversation_ID
             (filter (λ row, models.Conversation_UserID row = userID) (conversations db))))
  else Err ErrConnDone.

Definition same_key (a b : models.Message) : Prop :=
  models.UserID a = models.UserID b
  ∧ models.ConversationID a = models.ConversationID b
  ∧ models.MessageID a = models.MessageID b.

#[export] Instance same_key_dec a b : Decision (same_key a b).
Proof. unfold same_key. apply _. Defined.

(** [INSERT OR REPLACE INTO messages]: the row with the same
    (user_id, conversation_id, message_id) is replaced; the surrogate [id]
    is the next value of the AUTOINCREMENT counter. *)
Definition SaveMessage (db : DB) (msg : models.Message) : option error * DB :=
  if online db then
    let id := messages_seq db + 1 in
    (None,
     with_messages db
       (filter (λ row, ¬ same_key row msg) (messages db) ++ [models.Message_with_ID msg id])
       id)
  else (Some ErrConnDone, db).

(** [SELECT ... FROM messages WHERE user_id = ? AND conversation_id = ?
     ORDER BY timestamp DESC LIMIT ? OFFSET ?]: a search through the index of
    [UNIQUE(user_id, conversation_id, message_id)], which visits the rows of
    the conversation by ascending [message_id]. *)
Definition GetMessagesByUserAndConversation (db : DB) (userID conversationID : Z)
    (limit offset : Z) : result (list models.Message) :=
  if online db then
    Ok (limit_offset limit offset
          (order_by_desc String.leb (λ row, time_text db (models.Timestamp row))
             (scan models.MessageID
                (filter (λ row, models.UserID row = userID
                                 ∧ models.ConversationID row = conversationID)
                   (messages db)))))
  else Err ErrConnDone.

(** [SELECT ... FROM auth_sessions WHERE user_id = ? AND is_active = 1
     ORDER BY created_at DESC LIMIT 1]: a scan of the table by rowid [id];
    [created_at] is the [CURRENT_TIMESTAMP] of SQLite, a UTC text of fixed
    width, whose order is the order of the seconds it stands for. *)
Definition GetActiveAuthSessionByUserID (db : DB) (userID : Z) : result models.AuthSession :=
  if online db then
    match
      order_by_desc Z.leb models.AuthSession_CreatedAt
        (scan models.AuthSession_ID
           (filter (λ row, models.AuthSession_UserID row = userID
                            ∧ models.AuthSession_IsActive row = true)
              (auth_sessions db)))
    with
    | session :: _ => Ok session
    | [] => Err ErrNoRows
    end
  else Err ErrConnDone.

(** [INSERT OR REPLACE INTO updates_state]; [user_id] is unique. *)
Definition SaveUpdatesState (db : DB) (userID : Z) (pts qts date seq : Z) : option error * DB :=
  if online db then
    (None, with_updates_state db (<[userID := tg.mkUpdatesState pts qts date seq]> (updates_state db)))
  else (Some ErrConnDone, db).

(** [GetUpdatesState]: the named results [(pts, qts, date, seq, err)]. *)
Definition GetUpdatesState (db : DB) (userID : Z) : Z * Z * Z * Z * option error :=
  if online db then
    match updates_state db !! userID with
    | None => (0, 0, 0, 0, None)
    | Some st => (tg.Pts st, tg.Qts st, tg.Date st, tg.Seq st, None)
    end
  else (0, 0, 0, 0, Some ErrConnDone).

End database.

(** ** The world the engine runs in *)

Module runtime.

(** The goroutines the engine starts with [go func() { ... }()].  Their
    interleaving with the caller is not modelled: starting one is an event,
    and its body is a function of its own. *)
Inductive Goroutine : Type :=
| ClientRun (appID : Z) (appHash : string)
| ChannelSync (userID : Z).

(** The [log.Printf] lines that mark a decision of the engine. *)
Inductive LogLine : Type :=
| StartingAutoSync (userID : Z)
| NoStoredState (userID : Z)
| DoingIncrementalSync (userID : Z) (pts qts date seq : Z)
| FallingBackToChannelSync (userID : Z)
| UpdatedState (userID : Z) (pts qts date seq : Z)
| ReceivedEmptyState (userID : Z)
| AutoSyncCompleted (userID : Z)
| SyncingChannel (conversationID userID : Z)
| FailedToSyncChannel (conversationID : Z)
| SavedNewMessage (messageID : Z)
| SkippingOldMessage (messageID offsetID : Z)
| NoActiveSession (userID : Z)
| FailedToConnect (userID : Z)
| MarkingInactive (userID : Z)
| StartingPeriodicSync (userID : Z).

(** What the engine does to the outside, in order: remote calls, storage
    writes, sleeps, goroutine starts and log lines. *)
Inductive Event : Type :=
| CallMessagesGetHistory (peer : tg.InputPeerClass) (limit : Z)
| CallMessagesGetDialogs
| CallUpdatesGetDifference (pts date qts : Z)
| CallUpdatesGetState
| CallUsersGetFullUser
| ExecSaveUser (user : models.User)
| ExecSaveConversation (conv : models.Conversation)
| ExecSaveMessage (msg : models.Message)
| ExecSaveUpdatesState (userID : Z) (pts qts date seq : Z)
| Sleep (seconds : Z)
| Go (g : Goroutine)
| Log (line : LogLine).

(** The remote platform and the host, as the engine sees them: each call
    answers from a state [S] of the outside and moves it.  [Dialogs] is the
    conversation listing ([MessagesGetDialogs]) as [parseDialog] hands it on;
    [Run] tells whether the connection started by [Connect] is up once its
    wait is over. *)
Record Api (S : Type) : Type := mkApi {
  MkdirAll : S → option error * S;
  Run : Z → string → S → bool * S;
  MessagesGetHistory : tg.InputPeerClass → Z → S → result tg.MessagesMessagesClass * S;
  Dialogs : S → result (list models.Conversation) * S;
  UpdatesGetDifference : Z → Z → Z → S → result tg.UpdatesDifferenceClass * S;
  UpdatesGetState : S → result tg.UpdatesState * S;
  UsersGetFullUser : S → option error * S;
  Now : S → Z
}.
Arguments MkdirAll {S} _ _.
Arguments Run {S} _ _ _ _.
Arguments MessagesGetHistory {S} _ _ _ _.
Arguments Dialogs {S} _ _.
Arguments UpdatesGetDifference {S} _ _ _ _ _.
Arguments UpdatesGetState {S} _ _.
Arguments UsersGetFullUser {S} _ _.
Arguments Now {S} _ _.

(** The fields of [telegram.Client] the engine reads.  [c.api] is assigned
    before [isConnected] is set, so it is non-nil whenever [isConnected]
    holds; [cancel] says whether [c.cancel] is non-nil. *)
Record Client : Type := mkClient {
  isConnected : bool;
  cancel : bool;
  appID : Z;
  appHash : string
}.

Record World (S : Type) : Type := mkWorld {
  remote : S;
  db : database.DB;
  client : Client
}.
Arguments mkWorld {S} _ _ _.
Arguments remote {S} _.
Arguments db {S} _.
Arguments client {S} _.

(** What a computation returns, the world it leaves, and the events it
    emitted, oldest first. *)
Record Outcome (S A : Type) : Type := mkOutcome {
  value : A;
  world : World S;
  events : list Event
}.
Arguments mkOutcome {S A} _ _ _.
Arguments value {S A} _.
Arguments world {S A} _.
Arguments events {S A} _.

(** State passing over the world, with the events written out. *)
Definition M (S A : Type) : Type := World S → Outcome S A.

Definition ret {S A} (a : A) : M S A := λ w, mkOutcome a w [].

Definition bind {S A B} (m : M S A) (k : A → M S B) : M S B :=
  λ w,
    let r1 := m w in
    let r2 := k (value r1) (world r1) in
    mkOutcome (value r2) (world r2) (events r1 ++ events r2).

Definition emit {S} (e : Event) : M S unit := λ w, mkOutcome tt w [e].

Definition get_client {S} : M S Client := λ w, mkOutcome (client w) w [].

Definition set_client {S} (c : Client) : M S unit :=
  λ w, mkOutcome tt (mkWorld (remote w) (db w) c) [].

(** A call to the outside. *)
Definition outside {S A} (f : S → A * S) : M S A :=
  λ w, let r := f (remote w) in mkOutcome (fst r) (mkWorld (snd r) (db w) (client w)) [].

(** A statement that writes to storage. *)
Definition exec {S A} (f : database.DB → A * database.DB) : M S A :=
  λ w, let r := f (db w) in mkOutcome (fst r) (mkWorld (remote w) (snd r) (client w)) [].

(** A query. *)
Definition query {S A} (f : database.DB → A) : M S A := λ w, mkOutcome (f (db w)) w [].

(** [time.Now()] *)
Definition time_Now {S} (api : Api S) : M S Z := λ w, mkOutcome (Now api (remote w)) w [].

End runtime.

Notation "'let!' x ':=' m 'in' k" := (runtime.bind m (λ x, k))
  (at level 10, x name, m at level 100, k at level 200).
Notation "'let!' ' p ':=' m 'in' k" := (runtime.bind m (λ x, match x with p => k end))
  (at level 10, p pattern, m at level 100, k at level 200).
Notation "m ';;;' k" := (runtime.bind m (λ _, k))
  (at level 100, k at level 200, right associativity).

Module control.
Import runtime.

(** [for _, x := range xs { body }]; a [continue] is the end of [body]. *)
Fixpoint for_range {S A} (xs : list A) (body : A → M S unit) : M S unit :=
  match xs with
  | [] => ret tt
  | x :: rest => body x ;;; for_range rest body
  end.

(** [for i, x := range xs { body }], from index [i]. *)
Fixpoint for_range_from {S A} (i : Z) (xs : list A) (body : Z → A → M S unit) : M S unit :=
  match xs with
  | [] => ret tt
  | x :: rest => body i x ;;; for_range_from (i + 1) rest body
  end.

Definition when {S} (b : bool) (m : M S unit) : M S unit := if b then m else ret tt.

End control.

(** ** The client (package [telegram], calls to the platform) *)

Module telegram.
Import runtime control.

Section Client.
Context {S : Type} (api : Api S).

Definition NewClient : Client := mkClient false false 0 "".

Definition Connect (appID' : Z) (appHash' : string) : M S (option error) :=
  let! c := get_client in
  if isConnected c && bool_decide (appID c = appID') && bool_decide (appHash c = appHash')
  then ret None
  else
    (* c.cancel(); c.isConnected = false; then the new app and cancel func *)
    set_client (mkClient (if cancel c then false else isConnected c) true appID' appHash') ;;;
    let! dirErr := outside (MkdirAll api) in
    match dirErr with
    | Some err => ret (Some ("failed to create session directory: " +:+ err))
    | None =>
        emit (Go (ClientRun appID' appHash')) ;;;
        let! up := outside (Run api appID' appHash') in
        let! c' := get_client in
        set_client (mkClient up (cancel c') (appID c') (appHash c')) ;;;
        emit (Sleep 2) ;;;
        ret None
    end.

Definition IsAuthenticated : M S bool :=
  let! c := get_client in
  if negb (isConnected c) then ret false
  else
    emit CallUsersGetFullUser ;;;
    let! err := outside (UsersGetFullUser api) in
    ret (bool_decide (err = None)).

Definition GetDialogs : M S (result (list models.Conversation)) :=
  let! c := get_client in
  if negb (isConnected c) then ret (Err "client not connected")
  else
    emit CallMessagesGetDialogs ;;;
    let! dialogs := outside (Dialogs api) in
    match dialogs with
    | Err err => ret (Err ("failed to get dialogs: " +:+ err))
    | Ok conversations => ret (Ok conversations)
    end.

Definition MessagesGetHistory (peer : tg.InputPeerClass) (limit : Z)
  : M S (result tg.MessagesMessagesClass) :=
  emit (CallMessagesGetHistory peer limit) ;;;
  outside (runtime.MessagesGetHistory api peer limit).

Definition getMessagesWithFallback (peerID : Z) (limit : Z) (convType accessHash : string)
  : M S (result (list models.Message)) :=
  (* Try as user first (includes bots) *)
  let! r1 := MessagesGetHistory (tg.InputPeerUser peerID 0) limit in
  (* If user peer fails, try as channel *)
  let! r2 :=
    match r1 with
    | Err _ => MessagesGetHistory (tg.InputPeerChannel peerID 0) limit
    | Ok _ => ret r1
    end in
  (* If channel peer fails, try as chat *)
  let! r3 :=
    match r2 with
    | Err _ => MessagesGetHistory (tg.InputPeerChat peerID) limit
    | Ok _ => ret r2
    end in
  match r3 with
  | Err err =>
      ret (Err ("failed to get messages for peer " +:+ pretty peerID +:+ ": " +:+ err))
  | Ok messages => ret (normalizer.parseMessagesResponse messages peerID)
  end.

(** The peer the switch on [convType] builds, an early [return nil, err], or
    the default case. *)
Inductive peer_choice : Type :=
| UsePeer (peer : tg.InputPeerClass)
| Fail (err : error)
| Fallback.

Definition choose_peer (peerID : Z) (convType accessHash : string) : peer_choice :=
  if bool_decide (convType = "user") || bool_decide (convType = "bot") then
    if bool_decide (accessHash ≠ "") then
      match strconv.ParseInt accessHash with
      | Ok hash => UsePeer (tg.InputPeerUser peerID hash)
      | Err _ => UsePeer (tg.InputPeerUser peerID 0)
      end
    else UsePeer (tg.InputPeerUser peerID 0)
  else if bool_decide (convType = "channel") then
    if bool_decide (accessHash ≠ "") then
      match strconv.ParseInt accessHash with
      | Ok hash => UsePeer (tg.InputPeerChannel peerID hash)
      | Err _ => Fail "channel requires valid access_hash"
      end
    else Fail "channel requires access_hash"
  else if bool_decide (convType = "group") then
    (* If group has access_hash, it's actually a supergroup *)
    if bool_decide (accessHash ≠ "") then
      match strconv.ParseInt accessHash with
      | Ok hash => UsePeer (tg.InputPeerChannel peerID hash)
      | Err _ => Fail "supergroup requires valid access_hash"
      end
    else UsePeer (tg.InputPeerChat peerID)
  else Fallback.

Definition GetMessagesWithConvInfo (peerID : Z) (limit : Z) (convType accessHash : string)
  : M S (result (list models.Message)) :=
  let! c := get_client in
  if negb (isConnected c) then ret (Err "client not connected")
  else
    match choose_peer peerID convType accessHash with
    | Fail err => ret (Err err)
    | Fallback => getMessagesWithFallback peerID limit convType accessHash
    | UsePeer peer =>
        let! r := MessagesGetHistory peer limit in
        match r with
        | Err err =>
            ret (Err ("failed to get messages for peer " +:+ pretty peerID
                      +:+ " (type: " +:+ convType +:+ "): " +:+ err))
        | Ok messages => ret (normalizer.parseMessagesResponse messages peerID)
        end
    end.

Definition GetMessages (peerID : Z) (limit : Z) : M S (result (list models.Message)) :=
  let! c := get_client in
  if negb (isConnected c) then ret (Err "client not connected")
  else getMessagesWithFallback peerID limit "" "".

(** The type switch of [GetUpdates] on the answer of [UpdatesGetDifference]. *)
Definition difference_of (updates : tg.UpdatesDifferenceClass) : result tg.UpdatesDifference :=
  match updates with
  | tg.AnUpdatesDifference u => Ok u
  | tg.UpdatesDifferenceSlice newMessages users intermediateState =>
      Ok (tg.mkUpdatesDifference newMessages users intermediateState)
  | tg.UpdatesDifferenceEmpty date _ =>
      (* No new updates, but return empty difference with date to preserve state *)
      Ok (tg.mkUpdatesDifference [] [] (tg.mkUpdatesState 0 0 date 0))
  | tg.UpdatesDifferenceTooLong _ => Err "unexpected updates type: *tg.UpdatesDifferenceTooLong"
  end.

Definition GetUpdates (pts date qts : Z) : M S (result tg.UpdatesDifference) :=
  let! c := get_client in
  if negb (isConnected c) then ret (Err "client not connected")
  else
    emit (CallUpdatesGetDifference pts date qts) ;;;
    let! r := outside (UpdatesGetDifference api pts date qts) in
    match r with
    | Err err => ret (Err ("failed to get updates: " +:+ err))
    | Ok updates => ret (difference_of updates)
    end.

Definition GetState : M S (result tg.UpdatesState) :=
  let! c := get_client in
  if negb (isConnected c) then ret (Err "client not connected")
  else
    emit CallUpdatesGetState ;;;
    let! r := outside (UpdatesGetState api) in
    match r with
    | Err err => ret (Err ("failed to get state: " +:+ err))
    | Ok state => ret (Ok state)
    end.

End Client.

End telegram.

(** ** The engine ([main.go]) *)

Module engine.
Import runtime control.

Section Engine.
Context {S : Type} (api : Api S).

Definition SaveUser (user : models.User) : M S (option error) :=
  emit (ExecSaveUser user) ;;;
  let! now := time_Now api in
  exec (λ d, database.SaveUser d user now).

Definition SaveConversation (conv : models.Conversation) : M S (option error) :=
  emit (ExecSaveConversation conv) ;;;
  exec (λ d, database.SaveConversation d conv).

Definition SaveMessage (msg : models.Message) : M S (option error) :=
  emit (ExecSaveMessage msg) ;;;
  exec (λ d, database.SaveMessage d msg).

Definition SaveUpdatesState (userID : Z) (pts qts date seq : Z) : M S (option error) :=
  emit (ExecSaveUpdatesState userID pts qts date seq) ;;;
  exec (λ d, database.SaveUpdatesState d userID pts qts date seq).

(** The stored cursor as [autoSyncUser] uses it: zeros when the read fails. *)
Definition stored_state (userID : Z) : M S (Z * Z * Z * Z) :=
  let! '(pts, qts, date, seq, err) := query (λ d, database.GetUpdatesState d userID) in
  match err with
  | Some _ => ret (0, 0, 0, 0)
  | None => ret (pts, qts, date, seq)
  end.

(** The first loop of the initial full sync: save conversations with
    [user_id]. *)
Definition save_conversations (userID : Z) (dialogs : list models.Conversation) : M S unit :=
  for_range dialogs (λ dialog,
    SaveConversation (models.Conversation_with_UserID dialog userID) ;;; ret tt).

(** The second loop: sync recent messages for each conversation. *)
Definition sync_recent_messages (userID : Z) (dialogs : list models.Conversation) : M S unit :=
  for_range_from 0 dialogs (λ i dialog,
    (* Add delay between requests to avoid rate limiting *)
    when (0 <? i) (emit (Sleep 1)) ;;;
    let! messages :=
      telegram.GetMessagesWithConvInfo api (models.Conversation_ID dialog) 50
        (models.Conversation_Type dialog) (models.Conversation_AccessHash dialog) in
    match messages with
    | Err _ => ret tt
    | Ok messages =>
        for_range messages (λ msg,
          SaveMessage (models.Message_with_UserID msg userID) ;;; ret tt)
    end).

(** Get current state after initial sync, and save it. *)
Definition save_current_state (userID : Z) : M S unit :=
  let! state := telegram.GetState api in
  match state with
  | Err _ => ret tt
  | Ok state =>
      SaveUpdatesState userID (tg.Pts state) (tg.Qts state) (tg.Date state) (tg.Seq state) ;;;
      ret tt
  end.

(** The initial full sync: the branch of [autoSyncUser] taken when no state
    is stored.  [true] when the branch reaches its end, [false] on the early
    [return]. *)
Definition full_sync (userID : Z) : M S bool :=
  let! dialogs := telegram.GetDialogs api in
  match dialogs with
  | Err _ => ret false
  | Ok dialogs =>
      save_conversations userID dialogs ;;;
      sync_recent_messages userID dialogs ;;;
      save_current_state userID ;;;
      ret true
  end.

(** The incremental sync up to the start of the channel goroutine. *)
Definition incremental_sync (userID : Z) (storedPts storedQts storedDate storedSeq : Z)
  : M S unit :=
  emit (Log (DoingIncrementalSync userID storedPts storedQts storedDate storedSeq)) ;;;
  let! updates := telegram.GetUpdates api storedPts storedDate storedQts in
  match updates with
  | Err _ => emit (Log (FallingBackToChannelSync userID))
  | Ok updates =>
      let newMessages := normalizer.ParseUpdatesMessages updates userID in
      for_range newMessages (λ msg, SaveMessage msg ;;; ret tt) ;;;
      (* Only update state if we have meaningful data *)
      let state := tg.State updates in
      if (0 <? tg.Pts state) || (0 <? tg.Date state) then
        SaveUpdatesState userID (tg.Pts state) (tg.Qts state) (tg.Date state) (tg.Seq state) ;;;
        emit (Log (UpdatedState userID (tg.Pts state) (tg.Qts state) (tg.Date state) (tg.Seq state)))
      else emit (Log (ReceivedEmptyState userID))
  end.

Definition autoSyncUser (userID : Z) : M S unit :=
  emit (Log (StartingAutoSync userID)) ;;;
  let! '(storedPts, storedQts, storedDate, storedSeq) := stored_state userID in
  (* If no stored state, do initial full sync *)
  if bool_decide (storedPts = 0) && bool_decide (storedQts = 0) && bool_decide (storedDate = 0)
  then
    emit (Log (NoStoredState userID)) ;;;
    let! finished := full_sync userID in
    when finished (emit (Log (AutoSyncCompleted userID)))
  else
    incremental_sync userID storedPts storedQts storedDate storedSeq ;;;
    (* Always sync channels separately *)
    emit (Go (ChannelSync userID)) ;;;
    emit (Log (AutoSyncCompleted userID)).

(** The watermark of a conversation: [offsetID] in the channel goroutine. *)
Definition offsetID_of (latestMessages : result (list models.Message)) : Z :=
  match latestMessages with
  | Ok (latest :: _) => models.MessageID latest
  | _ => 0
  end.

(** The loop over the fetched messages of one conversation. *)
Definition save_newer (userID : Z) (offsetID : Z) (channelMessages : list models.Message)
  : M S unit :=
  for_range channelMessages (λ msg,
    let msg := models.Message_with_UserID msg userID in
    (* Only save if this is a newer message or if we have no messages yet *)
    if bool_decide (offsetID = 0) || (offsetID <? models.MessageID msg) then
      let! err := SaveMessage msg in
      match err with
      | Some _ => ret tt
      | None => emit (Log (SavedNewMessage (models.MessageID msg)))
      end
    else emit (Log (SkippingOldMessage (models.MessageID msg) offsetID))).

Definition is_channel_like (conv : models.Conversation) : bool :=
  (bool_decide (models.Conversation_Type conv = "channel")
   || bool_decide (models.Conversation_Type conv = "group"))
  && bool_decide (models.Conversation_AccessHash conv ≠ "").

(** One iteration of the loop over the user's conversations. *)
Definition sync_conversation (userID : Z) (conv : models.Conversation) : M S unit :=
  if is_channel_like conv then
    emit (Log (SyncingChannel (models.Conversation_ID conv) userID)) ;;;
    (* Get the latest message ID from database *)
    let! latestMessages :=
      query (λ d, database.GetMessagesByUserAndConversation d userID
                    (models.Conversation_ID conv) 1 0) in
    let offsetID := offsetID_of latestMessages in
    let! channelMessages :=
      telegram.GetMessagesWithConvInfo api (models.Conversation_ID conv) 50
        (models.Conversation_Type conv) (models.Conversation_AccessHash conv) in
    match channelMessages with
    | Err _ => emit (Log (FailedToSyncChannel (models.Conversation_ID conv)))
    | Ok channelMessages => save_newer userID offsetID channelMessages
    end
  else ret tt.

(** The body of the goroutine that [autoSyncUser] starts after an
    incremental sync. *)
Definition channelSync (userID : Z) : M S unit :=
  let! channels := query (λ d, database.GetConversationsByUserID d userID) in
  match channels with
  | Err _ => ret tt
  | Ok channels => for_range channels (sync_conversation userID)
  end.

(** One iteration of the loop over the users of a tick. *)
Definition sync_user (user : models.User) : M S unit :=
  if negb (models.User_IsActive user) then ret tt
  else
    let! session := query (λ d, database.GetActiveAuthSessionByUserID d (models.User_ID user)) in
    match session with
    | Err _ => emit (Log (NoActiveSession (models.User_ID user)))
    | Ok session =>
        let! connErr :=
          telegram.Connect api (models.AuthSession_AppID session)
            (models.AuthSession_AppHash session) in
        match connErr with
        | Some _ => emit (Log (FailedToConnect (models.User_ID user)))
        | None =>
            let! authenticated := telegram.IsAuthenticated api in
            if negb authenticated then
              emit (Log (MarkingInactive (models.User_ID user))) ;;;
              SaveUser (models.User_with_IsActive user false) ;;;
              ret tt
            else
              emit (Log (StartingPeriodicSync (models.User_ID user))) ;;;
              autoSyncUser (models.User_ID user)
        end
    end.

(** The body of [for range ticker.C]: one periodic tick. *)
Definition tick : M S unit :=
  let! users := query database.GetUsers in
  match users with
  | Err _ => ret tt
  | Ok users => for_range users sync_user
  end.

End Engine.

End engine.

(** ** Scripted outsides and sample data *)

Module fixtures.
Import runtime.

(** A remote platform that answers from a script.  Its state is the id of
    the application the connection was last started for; the liveness probe
    succeeds for the applications of [live_apps]. *)
Record Script : Type := mkScript {
  live_apps : list Z;
  history : tg.InputPeerClass → result tg.MessagesMessagesClass;
  difference : result tg.UpdatesDifferenceClass;
  current_state : result tg.UpdatesState;
  listing : result (list models.Conversation);
  clock : Z
}.

Definition scripted (sc : Script) : Api Z :=
  mkApi Z
    (λ s, (None, s))
    (λ appID _ _, (true, appID))
    (λ peer _ s, (history sc peer, s))
    (λ s, (listing sc, s))
    (λ _ _ _ s, (difference sc, s))
    (λ s, (current_state sc, s))
    (λ s, (if bool_decide (s ∈ live_apps sc) then None else Some "AUTH_KEY_UNREGISTERED", s))
    (λ _, clock sc).

Definition document_message (text : string) (attrs : list tg.DocumentAttributeClass)
  : tg.Message :=
  tg.mkMessage 7 None None text
    (Some (tg.MessageMediaDocument (Some (tg.ADocument (tg.mkDocument 1 2 attrs))))) 100.

Definition photo_message (text : string) (sizes : list tg.PhotoSizeClass) : tg.Message :=
  tg.mkMessage 8 None None text
    (Some (tg.MessageMediaPhoto (Some (tg.APhoto (tg.mkPhoto 9 sizes))))) 100.

Definition digit (d : Z) : ascii := ascii_of_N (Z.to_N (48 + d)).

Definition two_digits (n : Z) : string :=
  String (digit (n / 10)) (String (digit (n mod 10)) "").

Definition four_digits (n : Z) : string := two_digits (n / 100) +:+ two_digits (n mod 100).

(** The civil date (year, month, day) of a count of days since 1 January
    1970, in the proleptic Gregorian calendar. *)
Definition civil_from_days (days : Z) : Z * Z * Z :=
  let z := days + 719468 in
  let era := z / 146097 in
  let doe := z - era * 146097 in
  let yoe := (doe - doe / 1460 + doe / 36524 - doe / 146096) / 365 in
  let doy := doe - (365 * yoe + yoe / 4 - yoe / 100) in
  let mp := (5 * doy + 2) / 153 in
  let d := doy - (153 * mp + 2) / 5 + 1 in
  let m := if mp <? 10 then mp + 3 else mp - 9 in
  let y := yoe + era * 400 + (if m <=? 2 then 1 else 0) in
  (y, m, d).

(** The text of [t.Format("2006-01-02 15:04:05.999999999-07:00")] for the
    whole second [t] (Unix time) in a zone that is [offset t] seconds east of
    UTC at [t]; years 0000 to 9999. *)
Definition local_text (offset : Z → Z) (t : Z) : string :=
  let off := offset t in
  let wall := t + off in
  let '(y, m, d) := civil_from_days (wall / 86400) in
  let s := wall mod 86400 in
  four_digits y +:+ "-" +:+ two_digits m +:+ "-" +:+ two_digits d +:+ " "
  +:+ two_digits (s / 3600) +:+ ":" +:+ two_digits (s mod 3600 / 60) +:+ ":"
  +:+ two_digits (s mod 60)
  +:+ (if off <? 0 then "-" else "+")
  +:+ two_digits (Z.abs off / 3600) +:+ ":" +:+ two_digits (Z.abs off mod 3600 / 60).

(** A process that runs in UTC. *)
Definition utc_text : Z → string := local_text (λ _, 0).

(** A process that runs in US Eastern time, around the return to standard
    time of 3 November 2024, 06:00 UTC. *)
Definition eastern (t : Z) : Z := if t <? 1730613600 then -14400 else -18000.

Definition empty_db : database.DB := database.mkDB true utc_text [] [] [] 0 [] ∅.

Definition no_history : tg.InputPeerClass → result tg.MessagesMessagesClass :=
  λ _, Err "PEER_ID_INVALID".

Definition quiet : Script :=
  mkScript [] no_history (Err "TIMEOUT") (Err "TIMEOUT") (Err "TIMEOUT") 1700000000.

(** A world whose client is connected for application 1. *)
Definition connected (d : database.DB) : World Z :=
  mkWorld 1 d (mkClient true true 1 "apphash").

Definition text_message (id : Z) (text : string) (date : Z) : tg.MessageClass :=
  tg.AMessage (tg.mkMessage id (Some (tg.PeerUser 77)) (Some (tg.PeerChannel 500)) text None date).

(** A platform on which conversation 500 only answers to chat-style
    addressing. *)
Definition chat_only : Script :=
  mkScript [1]
    (λ peer,
       match peer with
       | tg.InputPeerChat 500 => Ok (tg.MessagesMessages [text_message 3 "hello" 1000] [])
       | _ => Err "PEER_ID_INVALID"
       end)
    (Err "TIMEOUT") (Err "TIMEOUT") (Err "TIMEOUT") 1700000000.

Definition group_conversation (accessHash : string) : models.Conversation :=
  models.mkConversation 500 1 "group" "Friends" "" "" accessHash "" 1000.

Definition channel_conversation : models.Conversation :=
  models.mkConversation 500 1 "channel" "News" "news" "" "12345" "" 1000.

Definition stored_row (rowID messageID timestamp : Z) : models.Message :=
  models.mkMessage rowID 1 500 messageID 77 "" "" "" "stored" "text" "" timestamp.

(** Conversation 500 of user 1 as stored after an earlier pass: the latest
    row is message 100. *)
Definition stored_db : database.DB :=
  database.mkDB true utc_text [] [channel_conversation]
    [stored_row 1 98 980; stored_row 2 99 990; stored_row 3 100 1000] 3 []
    {[ 1 := tg.mkUpdatesState 100 7 1000 3 ]}.

(** The same conversation when the row with the latest timestamp is not the
    row with the largest message id. *)
Definition skewed_db : database.DB :=
  database.mkDB true utc_text [] [channel_conversation]
    [stored_row 1 100 10; stored_row 2 5 20] 2 []
    {[ 1 := tg.mkUpdatesState 100 7 1000 3 ]}.

(** The same conversation when three rows carry one timestamp: saved in the
    order 101, 100, 99. *)
Definition tied_db : database.DB :=
  database.mkDB true utc_text [] [channel_conversation]
    [stored_row 1 101 1000; stored_row 2 100 1000; stored_row 3 99 1000] 3 []
    {[ 1 := tg.mkUpdatesState 100 7 1000 3 ]}.

(** The same conversation in a process that runs in US Eastern time, with
    one message of 01:30 daylight time and a later one of 01:10 standard
    time. *)
Definition fall_back_db : database.DB :=
  database.mkDB true (local_text eastern) [] [channel_conversation]
    [stored_row 1 201 1730611800; stored_row 2 202 1730614200] 2 []
    {[ 1 := tg.mkUpdatesState 100 7 1000 3 ]}.

(** A platform whose channel 500 holds the messages 98 to 102, newest
    first, and whose diff is empty. *)
Definition channel_feed : Script :=
  mkScript [1]
    (λ peer,
       match peer with
       | tg.InputPeerChannel 500 12345 =>
           Ok (tg.MessagesChannelMessages
                 [text_message 102 "e" 1020; text_message 101 "d" 1010;
                  text_message 100 "c" 1000; text_message 99 "b" 990;
                  text_message 98 "a" 980] [])
       | _ => Err "PEER_ID_INVALID"
       end)
    (Ok (tg.UpdatesDifferenceEmpty 1001 3))
    (Ok (tg.mkUpdatesState 120 7 1100 3))
    (Ok [channel_conversation]) 1700000000.

(** A stored cursor whose only nonzero field is [seq]. *)
Definition seq_only_db : database.DB :=
  database.mkDB true utc_text [] [] [] 0 [] {[ 1 := tg.mkUpdatesState 0 0 0 7 ]}.

(** A stored cursor row that is all-zero. *)
Definition zero_row_db : database.DB :=
  database.mkDB true utc_text [] [] [] 0 [] {[ 1 := tg.mkUpdatesState 0 0 0 0 ]}.

(** A platform whose diff carries the all-zero cursor. *)
Definition zero_diff : Script :=
  mkScript [1] no_history
    (Ok (tg.AnUpdatesDifference (tg.mkUpdatesDifference [] [] (tg.mkUpdatesState 0 0 0 0))))
    (Ok (tg.mkUpdatesState 120 7 1100 3))
    (Ok []) 1700000000.

Definition user_a : models.User := models.mkUser 1 "Ada" "" "ada" "+100" true 0 200.
Definition user_b : models.User := models.mkUser 2 "Bob" "" "bob" "+200" true 0 100.

Definition session_a : models.AuthSession := models.mkAuthSession 1 1 true 11 "hash-a" 10.
Definition session_b : models.AuthSession := models.mkAuthSession 2 2 true 22 "hash-b" 20.

(** Two active users, each with an active session; nothing synced yet. *)
Definition two_users_db : database.DB :=
  database.mkDB true utc_text [user_a; user_b] [] [] 0 [session_a; session_b] ∅.

(** A platform on which only the application of the second user is still
    authorized. *)
Definition only_b_live : Script :=
  mkScript [22] no_history (Err "TIMEOUT")
    (Ok (tg.mkUpdatesState 120 7 1100 3)) (Ok []) 1700000000.

(** A world whose client has not connected yet. *)
Definition idle (d : database.DB) : World Z := mkWorld 0 d telegram.NewClient.

Definition sample_sizes : list tg.PhotoSizeClass :=
  [tg.APhotoSize (tg.mkPhotoSize "s" 90 60 1000);
   tg.APhotoSize (tg.mkPhotoSize "x" 800 600 52000);
   tg.PhotoSizeProgressive "y" 1280 960 [9000; 120000];
   tg.APhotoSize (tg.mkPhotoSize "m" 600 800 48000)].

End fixtures.

(** ** Specification vocabulary *)

Module spec.

(** Width times height of a photo variant, as [getPhotoURL] computes it. *)
Definition area (p : tg.PhotoSize) : Z := mul_int (tg.PhotoSize_W p) (tg.PhotoSize_H p).

(** The variant at index [i] has positive area, no plain variant has a
    larger one, and every plain variant before it has a strictly smaller
    one. *)
Definition best_at (sizes : list tg.PhotoSizeClass) (i : nat) (p : tg.PhotoSize) : Prop :=
  sizes !! i = Some (tg.APhotoSize p)
  ∧ 0 < area p
  ∧ ∀ (j : nat) (q : tg.PhotoSize),
      sizes !! j = Some (tg.APhotoSize q) → area q ≤ area p ∧ ((j < i)%nat → area q < area p).

Definition no_positive_variant (sizes : list tg.PhotoSizeClass) : Prop :=
  ∀ (j : nat) (q : tg.PhotoSize), sizes !! j = Some (tg.APhotoSize q) → area q ≤ 0.

(** The attribute loop of [parseMessageWithUsers], attribute by attribute:
    the kind an attribute sets whatever the kind so far, *)
Definition sets_kind (attr : tg.DocumentAttributeClass) : option string :=
  match attr with
  | tg.DocumentAttributeVideo _ _ _ => Some "video"
  | tg.DocumentAttributeAudio _ _ _ => Some "audio"
  | tg.DocumentAttributeAnimated => Some "gif"
  | tg.DocumentAttributeSticker _ => Some "sticker"
  | _ => None
  end.

Definition is_image_size (attr : tg.DocumentAttributeClass) : bool :=
  match attr with
  | tg.DocumentAttributeImageSize _ _ => true
  | _ => false
  end.

(** the placeholder it gives to an empty body, *)
Definition marker (attr : tg.DocumentAttributeClass) : option string :=
  match attr with
  | tg.DocumentAttributeVideo _ _ _ => Some "[Video]"
  | tg.DocumentAttributeAudio _ _ _ => Some "[Audio]"
  | tg.DocumentAttributeAnimated => Some "[GIF]"
  | tg.DocumentAttributeSticker _ => Some "[Sticker]"
  | tg.DocumentAttributeImageSize _ _ => Some "[Image]"
  | _ => None
  end.

(** and the media name it sets. *)
Definition sets_name (attr : tg.DocumentAttributeClass) : option string :=
  match attr with
  | tg.DocumentAttributeFilename fileName => Some fileName
  | tg.DocumentAttributeAudio _ title _ => if bool_decide (title = "") then None else Some title
  | _ => None
  end.

(** The kind of a document: that of the last attribute that sets one;
    without such an attribute, image when an image size occurs, document
    otherwise. *)
Definition document_kind (attrs : list tg.DocumentAttributeClass) : string :=
  match last (omap sets_kind attrs) with
  | Some kind => kind
  | None => if existsb is_image_size attrs then "image" else "document"
  end.

(** The placeholder of a document: that of the first attribute that gives
    one. *)
Definition document_placeholder (attrs : list tg.DocumentAttributeClass) : string :=
  default "[Document]" (head (omap marker attrs)).

(** The media name of a document: the last name set, or the default name of
    the kind when that is empty. *)
Definition document_name (attrs : list tg.DocumentAttributeClass) : string :=
  let name := default "" (last (omap sets_name attrs)) in
  if bool_decide (name = "") then document_kind attrs +:+ "." +:+ "file" else name.

(** A fetch that ends in an error without any remote call. *)
Definition refused {S} (w : runtime.World S) (o : runtime.Outcome S (result (list models.Message))) : Prop :=
  is_err (runtime.value o) = true ∧ runtime.events o = [] ∧ runtime.world o = w.

(** A fetch of a connected client that asks for the history of [peer], once,
    and hands on its normalized answer. *)
Definition addressed {S} (api : runtime.Api S) (w : runtime.World S) (peerID limit : Z) (peer : tg.InputPeerClass)
    (o : runtime.Outcome S (result (list models.Message))) : Prop :=
  runtime.isConnected (runtime.client w) = true →
  runtime.events o = [runtime.CallMessagesGetHistory peer limit]
  ∧ match fst (runtime.MessagesGetHistory api peer limit (runtime.remote w)) with
    | Ok messages => runtime.value o = normalizer.parseMessagesResponse messages peerID
    | Err _ => is_err (runtime.value o) = true
    end.

(** Rows in the order of a query [ORDER BY text DESC]: descending by the
    stored text, compared byte by byte, and rows of equal text in the order
    the engine visits them, by ascending [rank]. *)
Definition query_order {A} (text : A → string) (rank : A → Z) : list A → Prop :=
  StronglySorted (λ a b, String.leb (text b) (text a) = true
                         ∧ (String.leb (text a) (text b) = true → rank a ≤ rank b)).

(** The stored text of the timestamp of a message. *)
Definition timestamp_text (d : database.DB) (row : models.Message) : string :=
  database.time_text d (models.Timestamp row).

(** The stored text of the update time of a user. *)
Definition updated_at_text (d : database.DB) (row : models.User) : string :=
  database.time_text d (models.User_UpdatedAt row).

(** The messages handed to [SaveMessage], in order. *)
Definition saved_message (e : runtime.Event) : option models.Message :=
  match e with
  | runtime.ExecSaveMessage msg => Some msg
  | _ => None
  end.

Definition saved_messages (es : list runtime.Event) : list models.Message :=
  omap saved_message es.

(** The cursors handed to [SaveUpdatesState], in order. *)
Definition saved_cursor (e : runtime.Event) : option (Z * tg.UpdatesState) :=
  match e with
  | runtime.ExecSaveUpdatesState userID pts qts date seq =>
      Some (userID, tg.mkUpdatesState pts qts date seq)
  | _ => None
  end.

Definition saved_cursors (es : list runtime.Event) : list (Z * tg.UpdatesState) :=
  omap saved_cursor es.

(** The stored rows of one conversation of one user. *)
Definition stored_messages (d : database.DB) (userID conversationID : Z) : list models.Message :=
  filter (λ row, models.UserID row = userID ∧ models.ConversationID row = conversationID)
    (database.messages d).

(** The watermark of the resync: what [offsetID] is set to. *)
Definition watermark (d : database.DB) (userID conversationID : Z) : Z :=
  engine.offsetID_of (database.GetMessagesByUserAndConversation d userID conversationID 1 0).

(** The largest stored remote message id of a conversation, 0 if none. *)
Definition max_message_id (d : database.DB) (userID conversationID : Z) : Z :=
  foldr Z.max 0 (models.MessageID <$> stored_messages d userID conversationID).

(** The stored cursor of a user, all-zero when no row is stored. *)
Definition stored_cursor (d : database.DB) (userID : Z) : tg.UpdatesState :=
  default (tg.mkUpdatesState 0 0 0 0) (database.updates_state d !! userID).

Inductive Mode : Type :=
| Bootstrap
| Incremental.

(** The mode of a sync pass, read off the log line that follows
    "Starting auto-sync". *)
Definition mode_of (es : list runtime.Event) : option Mode :=
  match es with
  | runtime.Log (runtime.StartingAutoSync _) :: runtime.Log (runtime.NoStoredState _) :: _ =>
      Some Bootstrap
  | runtime.Log (runtime.StartingAutoSync _)
    :: runtime.Log (runtime.DoingIncrementalSync _ _ _ _ _) :: _ =>
      Some Incremental
  | _ => None
  end.

(** What the checks of a tick decide for a user: stepped over before the
    liveness probe (flagged inactive, no session, no connection), probed and
    found not live, or probed and found live. *)
Inductive Verdict : Type :=
| SteppedOver
| NotLive
| Live.

Definition verdict {S} (api : runtime.Api S) (user : models.User) (w : runtime.World S)
  : Verdict :=
  if negb (models.User_IsActive user) then SteppedOver
  else
    match database.GetActiveAuthSessionByUserID (runtime.db w) (models.User_ID user) with
    | Err _ => SteppedOver
    | Ok session =>
        let connected :=
          telegram.Connect api (models.AuthSession_AppID session)
            (models.AuthSession_AppHash session) w in
        match runtime.value connected with
        | Some _ => SteppedOver
        | None =>
            if runtime.value (telegram.IsAuthenticated api (runtime.world connected))
            then Live else NotLive
        end
    end.

(** The world in which the pass of a live user starts: after the
    connection and the probe. *)
Definition world_after_checks {S} (api : runtime.Api S) (user : models.User)
    (w : runtime.World S) : runtime.World S :=
  match database.GetActiveAuthSessionByUserID (runtime.db w) (models.User_ID user) with
  | Err _ => w
  | Ok session =>
      runtime.world
        (telegram.IsAuthenticated api
           (runtime.world
              (telegram.Connect api (models.AuthSession_AppID session)
                 (models.AuthSession_AppHash session) w)))
  end.

(** The events of a pass: those of [autoSyncUser], from its first log line
    to its last event. *)
Definition sync_started (userID : Z) : runtime.Event :=
  runtime.Log (runtime.StartingAutoSync userID).

(** The test of [autoSyncUser] for "no stored state". *)
Definition no_state (pts qts date : Z) : bool :=
  bool_decide (pts = 0) && bool_decide (qts = 0) && bool_decide (date = 0).

End spec.

(** ** The conversation listing ([parseDialog] and the loop of [GetDialogs]) *)

Module listing.

Inductive UserProfilePhotoClass : Type :=
| UserProfilePhotoEmpty
| UserProfilePhoto (PhotoID : Z).

Inductive ChatPhotoClass : Type :=
| ChatPhotoEmpty
| ChatPhoto (PhotoID : Z).

(** A [*tg.User] of the directory of a listing: the fields of [tg.User] and
    the [Photo] field that [parseDialog] reads. *)
Record User : Type := mkUser {
  User_data : tg.User;
  User_Photo : option UserProfilePhotoClass
}.

Inductive UserClass : Type :=
| UserEmpty (ID : Z)
| AUser (u : User).

Record Chat : Type := mkChat {
  Chat_ID : Z;
  Chat_Title : string;
  Chat_Photo : option ChatPhotoClass
}.

Record Channel : Type := mkChannel {
  Channel_ID : Z;
  Channel_AccessHash : Z;
  Channel_Title : string;
  Channel_Username : string;
  Channel_Broadcast : bool;
  Channel_Photo : option ChatPhotoClass
}.

Inductive ChatClass : Type :=
| ChatEmpty (ID : Z)
| AChat (c : Chat)
| ChatForbidden (ID : Z) (Title : string)
| AChannel (c : Channel)
| ChannelForbidden (ID AccessHash : Z) (Title : string).

Inductive DialogClass : Type :=
| ADialog (Peer : option tg.PeerClass)
| DialogFolder.

Inductive MessagesDialogsClass : Type :=
| MessagesDialogs (Dialogs : list DialogClass) (Chats : list ChatClass) (Users : list UserClass)
| MessagesDialogsSlice (Dialogs : list DialogClass) (Chats : list ChatClass)
    (Users : list UserClass)
| MessagesDialogsNotModified (Count : Z).

Definition getUserPhotoURL (userPhoto : option UserProfilePhotoClass) : string :=
  match userPhoto with
  | Some (UserProfilePhoto photoID) => "telegram://avatar/" +:+ pretty photoID
  | _ => ""
  end.

Definition getChatPhotoURL (chatPhoto : option ChatPhotoClass) : string :=
  match chatPhoto with
  | Some (ChatPhoto photoID) => "telegram://chat_avatar/" +:+ pretty photoID
  | _ => ""
  end.

(** The loops with [break]: the first entity of the directory that has the
    dynamic type and the id looked for. *)
Fixpoint find_user (users : list UserClass) (userID : Z) : option User :=
  match users with
  | [] => None
  | AUser user :: rest =>
      if bool_decide (tg.User_ID (User_data user) = userID) then Some user
      else find_user rest userID
  | _ :: rest => find_user rest userID
  end.

Fixpoint find_chat (chats : list ChatClass) (chatID : Z) : option Chat :=
  match chats with
  | [] => None
  | AChat chat :: rest =>
      if bool_decide (Chat_ID chat = chatID) then Some chat else find_chat rest chatID
  | _ :: rest => find_chat rest chatID
  end.

Fixpoint find_channel (chats : list ChatClass) (channelID : Z) : option Channel :=
  match chats with
  | [] => None
  | AChannel channel :: rest =>
      if bool_decide (Channel_ID channel = channelID) then Some channel
      else find_channel rest channelID
  | _ :: rest => find_channel rest channelID
  end.

(** The zero [time.Time], January 1 of year 1, in Unix seconds. *)
Definition zero_time : Z := -62135596800.

Section Listing.

(** [strings.TrimSpace], the library's: the listing is given for any
    function in its place. *)
Variable TrimSpace : string → string.

(** [parseDialog]; [now] is the reading of [time.Now()]. *)
Definition parseDialog (now : Z) (dialog : DialogClass) (chats : list ChatClass)
    (users : list UserClass) : models.Conversation :=
  match dialog with
  | DialogFolder => models.mkConversation 0 0 "" "" "" "" "" "" zero_time
  | ADialog peer =>
      match peer with
      | Some (tg.PeerUser userID) =>
          match find_user users userID with
          | Some user =>
              let data := User_data user in
              let title :=
                if bool_decide (tg.User_FirstName data = "")
                   && bool_decide (tg.User_LastName data = "")
                then "User " +:+ pretty (tg.User_ID data)
                else tg.User_FirstName data +:+ " " +:+ tg.User_LastName data in
              models.mkConversation (tg.User_ID data) 0
                (if tg.User_Bot data then "bot" else "user")
                (TrimSpace title) (tg.User_Username data)
                (getUserPhotoURL (User_Photo user))
                (pretty (tg.User_AccessHash data)) "" now
          | None => models.mkConversation 0 0 "" "" "" "" "" "" now
          end
      | Some (tg.PeerChat chatID) =>
          match find_chat chats chatID with
          | Some chat =>
              models.mkConversation (Chat_ID chat) 0 "group"
                (if bool_decide (Chat_Title chat = "")
                 then "Chat " +:+ pretty (Chat_ID chat) else Chat_Title chat)
                "" (getChatPhotoURL (Chat_Photo chat)) "" "" now
          | None => models.mkConversation 0 0 "" "" "" "" "" "" now
          end
      | Some (tg.PeerChannel channelID) =>
          match find_channel chats channelID with
          | Some channel =>
              models.mkConversation (Channel_ID channel) 0
                (if Channel_Broadcast channel then "channel" else "group")
                (if bool_decide (Channel_Title channel = "")
                 then "Channel " +:+ pretty (Channel_ID channel) else Channel_Title channel)
                (Channel_Username channel) (getChatPhotoURL (Channel_Photo channel))
                (pretty (Channel_AccessHash channel)) "" now
          | None => models.mkConversation 0 0 "" "" "" "" "" "" now
          end
      | None => models.mkConversation 0 0 "" "" "" "" "" "" now
      end
  end.

(** The loop of [GetDialogs] over [d.Dialogs]: only the conversations with a
    title are added.  [clock i] is the reading of [time.Now()] for the
    dialog at index [i]. *)
Fixpoint parse_dialogs (clock : nat → Z) (i : nat) (dialogs : list DialogClass)
    (chats : list ChatClass) (users : list UserClass) : list models.Conversation :=
  match dialogs with
  | [] => []
  | dialog :: rest =>
      let conv := parseDialog (clock i) dialog chats users in
      (if bool_decide (models.Conversation_Title conv ≠ "") then [conv] else [])
      ++ parse_dialogs clock (S i) rest chats users
  end.

(** The type switch of [GetDialogs] on the answer of [MessagesGetDialogs]. *)
Definition conversations_of (clock : nat → Z) (dialogs : MessagesDialogsClass)
  : list models.Conversation :=
  match dialogs with
  | MessagesDialogs ds chats users => parse_dialogs clock 0 ds chats users
  | MessagesDialogsSlice ds chats users => parse_dialogs clock 0 ds chats users
  | MessagesDialogsNotModified _ => []
  end.

End Listing.

End listing.

(** ** More specification vocabulary *)

Module invariants.

(** The uniqueness key of the [messages] table. *)
Definition message_key (m : models.Message) : Z * Z * Z :=
  (models.UserID m, models.ConversationID m, models.MessageID m).

Definition unique_keys (rows : list models.Message) : Prop :=
  NoDup (message_key <$> rows).

(** A row without its surrogate id. *)
Definition payload (m : models.Message) : models.Message := models.Message_with_ID m 0.

(** The kinds a normalized message can have. *)
Definition kinds : list string :=
  ["text"; "photo"; "video"; "audio"; "document"; "image"; "gif"; "sticker";
   "contact"; "location"; "poll"].

(** The media values for which [parseMessageWithUsers] sets a placeholder
    body. *)
Definition placeholder_media (media : tg.MessageMediaClass) : bool :=
  match media with
  | tg.MessageMediaPhoto _ => true
  | tg.MessageMediaDocument (Some (tg.ADocument _)) => true
  | tg.MessageMediaWebPage => true
  | tg.MessageMediaContact => true
  | tg.MessageMediaGeo => true
  | tg.MessageMediaPoll => true
  | _ => false
  end.

(** The raw messages of a batch that are [*tg.Message] values, in order. *)
Definition plain_messages (msgs : list tg.MessageClass) : list tg.Message :=
  omap (λ msg, match msg with tg.AMessage m => Some m | _ => None end) msgs.

(** The id a peer carries. *)
Definition peer_id (peer : tg.PeerClass) : Z :=
  match peer with
  | tg.PeerUser id => id
  | tg.PeerChat id => id
  | tg.PeerChannel id => id
  end.

(** An [int64]. *)
Definition int64 (z : Z) : Prop := - 2 ^ 63 ≤ z < 2 ^ 63.

(** The events that write to storage. *)
Definition is_write (e : runtime.Event) : bool :=
  match e with
  | runtime.ExecSaveUser _ | runtime.ExecSaveConversation _
  | runtime.ExecSaveMessage _ | runtime.ExecSaveUpdatesState _ _ _ _ _ => true
  | _ => false
  end.

(** The events that call the platform. *)
Definition is_call (e : runtime.Event) : bool :=
  match e with
  | runtime.CallMessagesGetHistory _ _ | runtime.CallMessagesGetDialogs
  | runtime.CallUpdatesGetDifference _ _ _ | runtime.CallUpdatesGetState
  | runtime.CallUsersGetFullUser => true
  | _ => false
  end.

Definition starts_resync (e : runtime.Event) : bool :=
  match e with
  | runtime.Go (runtime.ChannelSync _) => true
  | _ => false
  end.

(** The user a write to storage is made for. *)
Definition written_for (e : runtime.Event) : option Z :=
  match e with
  | runtime.ExecSaveUser user => Some (models.User_ID user)
  | runtime.ExecSaveConversation conv => Some (models.Conversation_UserID conv)
  | runtime.ExecSaveMessage msg => Some (models.UserID msg)
  | runtime.ExecSaveUpdatesState userID _ _ _ _ => Some userID
  | _ => None
  end.

Definition is_sleep (e : runtime.Event) : bool :=
  match e with
  | runtime.Sleep _ => true
  | _ => false
  end.

(** The keys of the tables: the primary keys of [users] and [conversations],
    the uniqueness key of [messages], and the surrogate ids of [messages],
    which the AUTOINCREMENT counter bounds. *)
Definition well_keyed (d : database.DB) : Prop :=
  NoDup (models.User_ID <$> database.users d)
  ∧ NoDup (models.Conversation_ID <$> database.conversations d)
  ∧ unique_keys (database.messages d)
  ∧ NoDup (models.ID <$> database.messages d)
  ∧ Forall (λ row, models.ID row ≤ database.messages_seq d) (database.messages d).

(** A computation keeps the property [P] of storage and emits only events
    that satisfy [Q]. *)
Definition keeps {S A} (P : database.DB → Prop) (Q : runtime.Event → Prop)
    (m : runtime.M S A) : Prop :=
  ∀ w, P (runtime.db w) →
       P (runtime.db (runtime.world (m w))) ∧ Forall Q (runtime.events (m w)).

(** The remote calls of the channel resync: the history of a channel-style
    peer, 50 messages at most. *)
Definition channel_history_call (e : runtime.Event) : Prop :=
  ∃ channelID accessHash,
    e = runtime.CallMessagesGetHistory (tg.InputPeerChannel channelID accessHash) 50.

(** Once the kind is no longer "text", the body is not empty. *)
Definition filled (v : normalizer.media_vars) : Prop :=
  normalizer.messageType v ≠ "text" → normalizer.content v ≠ "".

(** The raw messages and the user directory of a history answer. *)
Definition response_messages (messages : tg.MessagesMessagesClass) : list tg.MessageClass :=
  match messages with
  | tg.MessagesMessages msgs _ => msgs
  | tg.MessagesMessagesSlice msgs _ => msgs
  | tg.MessagesChannelMessages msgs _ => msgs
  | tg.MessagesMessagesNotModified _ => []
  end.

Definition response_users (messages : tg.MessagesMessagesClass) : list tg.UserClass :=
  match messages with
  | tg.MessagesMessages _ users => users
  | tg.MessagesMessagesSlice _ users => users
  | tg.MessagesChannelMessages _ users => users
  | tg.MessagesMessagesNotModified _ => []
  end.

(** The id of an optional peer, 0 when there is none. *)
Definition peer_id_or_zero (peer : option tg.PeerClass) : Z :=
  match peer with
  | Some peer => peer_id peer
  | None => 0
  end.

(** The directories of a listing answer. *)
Definition listed_chats (dialogs : listing.MessagesDialogsClass) : list listing.ChatClass :=
  match dialogs with
  | listing.MessagesDialogs _ chats _ => chats
  | listing.MessagesDialogsSlice _ chats _ => chats
  | listing.MessagesDialogsNotModified _ => []
  end.

Definition listed_users (dialogs : listing.MessagesDialogsClass) : list listing.UserClass :=
  match dialogs with
  | listing.MessagesDialogs _ _ users => users
  | listing.MessagesDialogsSlice _ _ users => users
  | listing.MessagesDialogsNotModified _ => []
  end.

(** Storage [d] holds, for the users other than [userID], the cursors and
    the messages that [d0] holds, and the same users and sessions. *)
Definition same_for_others (userID : Z) (d0 d : database.DB) : Prop :=
  (∀ other, other ≠ userID →
     database.updates_state d !! other = database.updates_state d0 !! other)
  ∧ filter (λ row, models.UserID row ≠ userID) (database.messages d)
    = filter (λ row, models.UserID row ≠ userID) (database.messages d0)
  ∧ database.users d = database.users d0
  ∧ database.auth_sessions d = database.auth_sessions d0.

(** The users table of [d] has the user ids of [d0], and its active rows are
    rows of [d0]. *)
Definition no_user_gained (d0 d : database.DB) : Prop :=
  (∀ id, id ∈ models.User_ID <$> database.users d
         ↔ id ∈ models.User_ID <$> database.users d0)
  ∧ ∀ row, row ∈ database.users d → models.User_IsActive row = true →
           row ∈ database.users d0.

End invariants.

(** ** More sample data *)

Module samples.
Import listing.

(** A stand-in for [strings.TrimSpace] on texts whose only white space is
    the blank. *)
Fixpoint drop_blanks (s : string) : string :=
  match s with
  | String " " rest => drop_blanks rest
  | _ => s
  end.

Definition trim_blanks (s : string) : string :=
  String.rev (drop_blanks (String.rev (drop_blanks s))).

Definition ada : UserClass :=
  AUser (mkUser (tg.mkUser 77 9001 "Ada" "" "ada" false) (Some (UserProfilePhoto 5))).

Definition news : ChatClass := AChannel (mkChannel 500 (-12345) "News" "news" true None).

Definition friends : ChatClass := AChat (mkChat 600 "Friends" None).

(** A listing with a channel, a user, a basic group, a folder, and a dialog
    whose peer is not in the directory. *)
Definition dialogs : MessagesDialogsClass :=
  MessagesDialogsSlice
    [ADialog (Some (tg.PeerChannel 500)); ADialog (Some (tg.PeerUser 77));
     ADialog (Some (tg.PeerChat 600)); DialogFolder; ADialog (Some (tg.PeerUser 78))]
    [news; friends] [UserEmpty 76; ada].

Definition clock (i : nat) : Z := 1700000000 + Z.of_nat i.

(** Two sessions of user 1, the later one active, and a session of user 2
    that is not. *)
Definition sessions_db : database.DB :=
  database.mkDB true fixtures.utc_text [] [] [] 0
    [models.mkAuthSession 1 1 true 11 "hash-a" 10;
     models.mkAuthSession 2 1 true 12 "hash-b" 30;
     models.mkAuthSession 3 2 false 22 "hash-c" 20] ∅.

(** A message from user 77, with a directory in which 77 occurs twice. *)
Definition from_ada : tg.Message :=
  tg.mkMessage 9 (Some (tg.PeerUser 77)) (Some (tg.PeerChat 600)) "hi" None 1000.

Definition directory : list tg.UserClass :=
  [tg.UserEmpty 77; tg.AUser (tg.mkUser 76 1 "Bob" "B" "bob" false);
   tg.AUser (tg.mkUser 77 2 "Ada" "L" "ada" false);
   tg.AUser (tg.mkUser 77 3 "Eve" "E" "eve" false)].

(** A platform whose difference is too long to be sent. *)
Definition too_long : fixtures.Script :=
  fixtures.mkScript [1] fixtures.no_history (Ok (tg.UpdatesDifferenceTooLong 500))
    (Ok (tg.mkUpdatesState 120 7 1100 3)) (Ok []) 1700000000.

End samples.

(** * Properties *)

(** ** Message normalization *)

Module normalizer_facts.
Import normalizer spec.

Lemma placeholder_empty ph : placeholder ph "" = ph.
Proof. reflexivity. Qed.

Lemma placeholder_nonempty ph s : s ≠ "" → placeholder ph s = s.
Proof. intros Hs. unfold placeholder. by rewrite bool_decide_eq_false_2. Qed.

Lemma area_exact (p : tg.PhotoSize) :
  - 2 ^ 31 ≤ tg.PhotoSize_W p < 2 ^ 31 →
  - 2 ^ 31 ≤ tg.PhotoSize_H p < 2 ^ 31 →
  area p = tg.PhotoSize_W p * tg.PhotoSize_H p.
Proof.
  intros Hw Hh. unfold area, mul_int, wrap_int.
  rewrite Z.mod_small; [lia|]. nia.
Qed.

(** The loop of [getPhotoURL] keeps the first variant of largest positive
    area, together with that area. *)
Lemma size_loop_invariant (sizes : list tg.PhotoSizeClass) :
  let r := foldl size_step (None, 0) sizes in
  (fst r = None ∧ snd r = 0 ∧ no_positive_variant sizes)
  ∨ (∃ i p, fst r = Some p ∧ snd r = area p ∧ best_at sizes i p).
Proof.
  induction sizes as [|size sizes IH] using rev_ind; simpl.
  - left. split_and!; [done..|]. intros j q Hj. by rewrite lookup_nil in Hj.
  - rewrite foldl_app. simpl.
    destruct (foldl size_step (None, 0) sizes) as [best m] eqn:Hfold. simpl in IH.
    assert (Hother : (∀ p, size ≠ tg.APhotoSize p) →
      (best = None ∧ m = 0 ∧ no_positive_variant (sizes ++ [size]))
      ∨ (∃ i p, best = Some p ∧ m = area p ∧ best_at (sizes ++ [size]) i p)).
    { intros Hne. destruct IH as [(-> & -> & Hnone)|(i & p & -> & -> & Hi & Hpos & Hmax)].
      - left. split_and!; [done..|]. intros j q Hj.
        apply lookup_snoc_Some in Hj as [[_ Hj]|[_ Hj]]; [by eapply Hnone|by destruct (Hne q)].
      - right. exists i, p. unfold best_at.
        split_and!; [done|done|by apply lookup_app_l_Some|done|].
        intros j q Hj.
        apply lookup_snoc_Some in Hj as [[_ Hj]|[_ Hj]]; [by eapply Hmax|by destruct (Hne q)]. }
    destruct size as [t|q|t w h b|t b|t w h ss|t b]; simpl; try (apply Hother; congruence).
    clear Hother. fold (area q).
    destruct (Z.ltb_spec m (area q)) as [Hlt|Hge]; simpl.
    + right. exists (length sizes), q. unfold best_at. split_and!; [done|done| | |].
      * by rewrite lookup_app_r, Nat.sub_diag.
      * destruct IH as [(_ & -> & _)|(i & p & _ & -> & _ & Hpos & _)]; lia.
      * intros j q' Hj.
        apply lookup_snoc_Some in Hj as [[Hlen Hj]|[-> Hj]].
        -- destruct IH as [(_ & -> & Hnone)|(i & p & _ & -> & _ & _ & Hmax)].
           ++ specialize (Hnone j q' Hj). lia.
           ++ destruct (Hmax j q' Hj). lia.
        -- injection Hj as <-. lia.
    + destruct IH as [(-> & -> & Hnone)|(i & p & -> & -> & Hi & Hpos & Hmax)].
      * left. split_and!; [done..|]. intros j q' Hj.
        apply lookup_snoc_Some in Hj as [[_ Hj]|[_ Hj]]; [by eapply Hnone|].
        injection Hj as <-. done.
      * right. exists i, p. unfold best_at.
        split_and!; [done|done|by apply lookup_app_l_Some|done|].
        intros j q' Hj.
        apply lookup_snoc_Some in Hj as [[_ Hj]|[-> Hj]]; [by eapply Hmax|].
        injection Hj as <-. split; [done|].
        intros Hlt. apply lookup_lt_Some in Hi. lia.
Qed.

Lemma getPhotoURL_selects (photo : tg.Photo) :
  (∃ i p, best_at (tg.Photo_Sizes photo) i p
          ∧ getPhotoURL photo = photo_url (tg.Photo_ID photo) p)
  ∨ (no_positive_variant (tg.Photo_Sizes photo) ∧ getPhotoURL photo = "").
Proof.
  unfold getPhotoURL, largestSize.
  destruct (size_loop_invariant (tg.Photo_Sizes photo)) as [(Hn & _ & Hnone)|(i & p & Hp & _ & Hbest)].
  - right. split; [done|]. rewrite Hn. by destruct (tg.Photo_Sizes photo).
  - left. exists i, p. split; [done|]. rewrite Hp.
    destruct (tg.Photo_Sizes photo); [|done].
    destruct Hbest as [Hi _]. by rewrite lookup_nil in Hi.
Qed.

Lemma marker_filled (attr : tg.DocumentAttributeClass) (m : string) :
  marker attr = Some m → m ≠ "".
Proof. destruct attr; simpl; intros [= <-]; done. Qed.

Lemma markers_filled (attrs : list tg.DocumentAttributeClass) (m : string) :
  head (omap marker attrs) = Some m → m ≠ "".
Proof.
  intros Hhead. apply head_Some_elem_of in Hhead.
  apply list_elem_of_omap in Hhead as (attr & _ & Hm). by eapply marker_filled.
Qed.

Lemma no_marker (attrs : list tg.DocumentAttributeClass) :
  omap marker attrs = [] → omap sets_kind attrs = [] ∧ existsb is_image_size attrs = false.
Proof.
  induction attrs as [|attr attrs IH]; [done|].
  destruct attr; simpl; try done; apply IH.
Qed.

Lemma kind_not_text (attr : tg.DocumentAttributeClass) (kind : string) :
  sets_kind attr = Some kind → kind ≠ "text".
Proof. destruct attr; simpl; intros [= <-]; done. Qed.

Lemma head_snoc {A} (l : list A) (x : A) :
  head (l ++ [x]) = match head l with Some y => Some y | None => Some x end.
Proof. by destruct l. Qed.

(** What the loop over the attributes leaves in the four variables. *)
Lemma attr_loop (text : string) (attrs : list tg.DocumentAttributeClass) :
  let v := foldl attr_step (mkMediaVars text "text" "" "") attrs in
  messageType v
  = match last (omap sets_kind attrs) with
    | Some kind => kind
    | None => if existsb is_image_size attrs then "image" else "text"
    end
  ∧ content v = (if bool_decide (text = "") then default "" (head (omap marker attrs))
                 else text)
  ∧ mediaURL v = ""
  ∧ mediaName v = default "" (last (omap sets_name attrs))
  ∧ (messageType v = "text" ↔ omap marker attrs = []).
Proof.
  induction attrs as [|attr attrs IH] using rev_ind.
  - simpl. split_and!; try done. by case_bool_decide.
  - cbv zeta in *. rewrite foldl_app. cbn [foldl].
    destruct IH as (Hkind & Hcontent & Hurl & Hname & Htext).
    set (v := foldl attr_step (mkMediaVars text "text" "" "") attrs) in *.
    rewrite !omap_app, List.existsb_app.
    assert (Hmark : ∀ ph, ph ≠ "" →
      placeholder ph (content v)
      = (if bool_decide (text = "")
         then default "" (head (omap marker attrs ++ [ph])) else text)).
    { intros ph Hph. rewrite Hcontent, head_snoc. case_bool_decide as Hempty.
      - destruct (head (omap marker attrs)) as [m|] eqn:Hhead; simpl; [|done].
        apply placeholder_nonempty. by eapply markers_filled.
      - by apply placeholder_nonempty. }
    assert (Hsnoc : ∀ (l : list string) x, l ++ [x] ≠ []) by (by intros [|??] ?).
    destruct attr as [w h| |alt|d w h|d title performer|fileName| |alt];
      cbn [attr_step omap option_bind sets_kind marker sets_name is_image_size existsb orb
           messageType content mediaURL mediaName mbind list_omap app];
      rewrite ?app_nil_r, ?last_snoc, ?orb_false_r, ?orb_true_r.
    + (* image size *)
      destruct (decide (messageType v = "text")) as [Htype|Htype];
        [rewrite (bool_decide_eq_true_2 (messageType v = "text")) by done
        |rewrite (bool_decide_eq_false_2 (messageType v = "text")) by done];
        cbn [messageType content mediaURL mediaName].
      * pose proof (proj1 Htext Htype) as Hnone.
        destruct (no_marker attrs Hnone) as [-> _]. simpl.
        split_and!; [done|by apply Hmark|done|done|].
        split; [done|]. intros Hno. by destruct (Hsnoc _ _ Hno).
      * split_and!; [| |done|done|].
        -- rewrite Hkind. destruct (last (omap sets_kind attrs)) as [kind|] eqn:Hlast; [done|].
           destruct (existsb is_image_size attrs) eqn:Himage; [done|].
           destruct Htype. exact Hkind.
        -- rewrite Hcontent, head_snoc.
           destruct (bool_decide (text = "")); [|done].
           destruct (head (omap marker attrs)) as [m|] eqn:Hhead; [done|].
           destruct Htype. apply Htext. by destruct (omap marker attrs).
        -- split; [done|]. intros Hno. by destruct (Hsnoc _ _ Hno).
    + split_and!; [done|by apply Hmark|done|done|].
      split; [done|]. intros Hno. by destruct (Hsnoc _ _ Hno).
    + split_and!; [done|by apply Hmark|done|done|].
      split; [done|]. intros Hno. by destruct (Hsnoc _ _ Hno).
    + split_and!; [done|by apply Hmark|done|done|].
      split; [done|]. intros Hno. by destruct (Hsnoc _ _ Hno).
    + split_and!; [done|by apply Hmark|done| |].
      * destruct (bool_decide (title = "")); simpl;
          [by rewrite app_nil_r|by rewrite last_snoc].
      * split; [done|]. intros Hno. by destruct (Hsnoc _ _ Hno).
    + split_and!; done.
    + split_and!; done.
    + split_and!; done.
Qed.

Lemma omap_last {A B} (f : A → option B) (before : list A) (x : A) (y : B) (after : list A) :
  f x = Some y → omap f after = [] → last (omap f (before ++ x :: after)) = Some y.
Proof.
  intros Hx Hafter. rewrite omap_app. cbn [omap list_omap]. fold (omap f after).
  rewrite Hx, Hafter. apply last_snoc.
Qed.

Lemma omap_head {A B} (f : A → option B) (before : list A) (x : A) (y : B) (after : list A) :
  f x = Some y → omap f before = [] → head (omap f (before ++ x :: after)) = Some y.
Proof.
  intros Hx Hbefore. rewrite omap_app, Hbefore. cbn [omap list_omap app]. by rewrite Hx.
Qed.

Lemma placeholder_filled (ph content : string) : ph ≠ "" → placeholder ph content ≠ "".
Proof. intros Hph. unfold placeholder. by case_bool_decide. Qed.

Lemma append_filled_l (s t : string) : s ≠ "" → s +:+ t ≠ "".
Proof. by destruct s. Qed.

Lemma append_filled_r (s t : string) : t ≠ "" → s +:+ t ≠ "".
Proof. by destruct s. Qed.

Lemma document_placeholder_filled (attrs : list tg.DocumentAttributeClass) :
  document_placeholder attrs ≠ "".
Proof.
  unfold document_placeholder.
  destruct (head (omap marker attrs)) as [m|] eqn:Hhead; [|done]. by eapply markers_filled.
Qed.

Lemma document_name_filled (attrs : list tg.DocumentAttributeClass) :
  document_name attrs ≠ "".
Proof. unfold document_name. case_bool_decide; [by apply append_filled_r|done]. Qed.

(** The variables after the [*tg.MessageMediaDocument] case. *)
Lemma document_vars_fields (text : string) (doc : tg.Document) :
  let attrs := tg.Document_Attributes doc in
  let v := document_vars (mkMediaVars text "text" "" "") doc in
  messageType v = document_kind attrs
  ∧ content v = placeholder (document_placeholder attrs) text
  ∧ mediaURL v = getDocumentURL doc
  ∧ mediaName v = document_name attrs.
Proof.
  intros attrs v. subst v. unfold document_vars. fold attrs.
  destruct (attr_loop text attrs) as (Hkind & Hcontent & _ & Hname & Htext).
  cbv zeta in *.
  set (v1 := foldl attr_step (mkMediaVars text "text" "" "") attrs) in *.
  assert (Hfields :
    messageType (if bool_decide (messageType v1 = "text")
                 then mkMediaVars (placeholder "[Document]" (content v1)) "document"
                        (mediaURL v1) (mediaName v1)
                 else v1) = document_kind attrs
    ∧ content (if bool_decide (messageType v1 = "text")
               then mkMediaVars (placeholder "[Document]" (content v1)) "document"
                      (mediaURL v1) (mediaName v1)
               else v1) = placeholder (document_placeholder attrs) text
    ∧ mediaName (if bool_decide (messageType v1 = "text")
                 then mkMediaVars (placeholder "[Document]" (content v1)) "document"
                        (mediaURL v1) (mediaName v1)
                 else v1) = default "" (last (omap sets_name attrs))).
  { unfold document_kind, document_placeholder.
    destruct (decide (messageType v1 = "text")) as [Htype|Htype];
      [rewrite (bool_decide_eq_true_2 (messageType v1 = "text")) by done
      |rewrite (bool_decide_eq_false_2 (messageType v1 = "text")) by done];
      cbn [messageType content mediaName].
    - pose proof (proj1 Htext Htype) as Hnone.
      destruct (no_marker attrs Hnone) as [-> ->]. rewrite Hnone in *. simpl in *.
      split_and!; [done| |done]. rewrite Hcontent. unfold placeholder.
      destruct (decide (text = "")) as [->|Hfilled]; [done|].
      by rewrite !(bool_decide_eq_false_2 (text = "")) by done.
    - split_and!; [| |done].
      + rewrite Hkind. destruct (last (omap sets_kind attrs)) as [kind|]; [done|].
        destruct (existsb is_image_size attrs); [done|]. by destruct Htype.
      + rewrite Hcontent.
        destruct (head (omap marker attrs)) as [m|] eqn:Hhead.
        * simpl. unfold placeholder. by destruct (bool_decide (text = "")).
        * destruct Htype. apply Htext. by destruct (omap marker attrs). }
  destruct Hfields as (Hkind2 & Hcontent2 & Hname2).
  cbn [messageType content mediaURL mediaName].
  split_and!; [done..|]. unfold document_name. by rewrite Hname2, Hkind2.
Qed.

(** The kind and the body of a message with a full document, for every
    list of attributes. *)
Lemma document_fields (msg : tg.Message) (users : list tg.UserClass) (doc : tg.Document) :
  tg.Message_Media msg = Some (tg.MessageMediaDocument (Some (tg.ADocument doc))) →
  let attrs := tg.Document_Attributes doc in
  let r := parseMessageWithUsers msg users in
  models.MessageType r = document_kind attrs
  ∧ models.Content r
    = with_media_suffix (placeholder (document_placeholder attrs) (tg.Message_Message msg))
        (document_name attrs)
  ∧ models.MediaURL r = getDocumentURL doc.
Proof.
  intros Hmedia attrs r. subst r. unfold parseMessageWithUsers. rewrite Hmedia.
  destruct (sender (tg.Message_FromID msg) users) as [fromID [[fromUsername fromFirstName] fromLastName]].
  cbn [media_switch models.MessageType models.Content models.MediaURL].
  destruct (document_vars_fields (tg.Message_Message msg) doc) as (-> & -> & -> & ->).
  fold attrs. split_and!; [done| |done].
  rewrite (bool_decide_eq_true_2 (document_name attrs ≠ "")) by apply document_name_filled.
  rewrite (bool_decide_eq_true_2 (_ ≠ ""))
    by apply placeholder_filled, document_placeholder_filled.
  done.
Qed.

End normalizer_facts.

Module normalizer_properties.
Import normalizer spec normalizer_facts.

(** C4 (as amended). For every raw message with document media, whatever
    the list of attributes: the kind is that of the last video, audio,
    animated or sticker attribute (image when there is none and an image
    size occurs, document otherwise), and the body is the raw text, or for
    an empty text the placeholder of the first attribute that has one
    ("[Document]" when none has), followed by the annotated suffix for the
    media name, which is the last filename or non-empty audio title, or
    "<kind>.file" when that is empty or there is none.  So with a video attribute that no audio,
    animated or sticker attribute follows the kind is "video"; with an
    empty text and no placeholder before the video attribute the body is
    "[Video]" followed by the annotated suffix, for "video.file" when no
    attribute names the media.  With the text "see attached" and the
    filename "report.pdf" that no other name follows, the body is
    "see attached" followed by the annotated suffix for "report.pdf", and
    the kind is "document" when no attribute sets another. *)
Theorem document_normalization (msg : tg.Message) (users : list tg.UserClass)
    (doc : tg.Document) :
  tg.Message_Media msg = Some (tg.MessageMediaDocument (Some (tg.ADocument doc))) →
  let attrs := tg.Document_Attributes doc in
  let r := parseMessageWithUsers msg users in
  (models.MessageType r = document_kind attrs
   ∧ models.Content r
     = with_media_suffix
         (placeholder (document_placeholder attrs) (tg.Message_Message msg))
         (document_name attrs))
  ∧ (∀ before d w h after,
       attrs = before ++ tg.DocumentAttributeVideo d w h :: after →
       omap sets_kind after = [] →
       models.MessageType r = "video"
       ∧ (tg.Message_Message msg = "" → omap marker before = [] →
          models.Content r = with_media_suffix "[Video]" (document_name attrs))
       ∧ (omap sets_name attrs = [] → document_name attrs = "video.file"))
  ∧ (tg.Message_Message msg = "see attached" →
     ∀ before after,
       attrs = before ++ tg.DocumentAttributeFilename "report.pdf" :: after →
       omap sets_name after = [] →
       models.Content r = with_media_suffix "see attached" "report.pdf"
       ∧ (omap marker attrs = [] → models.MessageType r = "document")).
Proof.
  intros Hmedia attrs r.
  destruct (document_fields msg users doc Hmedia) as (Hkind & Hbody & _).
  fold attrs r in Hkind, Hbody. split_and!; [done|done| |].
  - intros before d w h after Hattrs Hafter.
    assert (Hvideo : document_kind attrs = "video").
    { unfold document_kind. by rewrite Hattrs, (omap_last _ _ _ "video"). }
    split_and!.
    + by rewrite Hkind.
    + intros Htext Hbefore. rewrite Hbody, Htext. unfold document_placeholder.
      by rewrite Hattrs, (omap_head _ _ _ "[Video]").
    + intros Hnames. unfold document_name. by rewrite Hnames, Hvideo.
  - intros Htext before after Hattrs Hafter. split.
    + rewrite Hbody, Htext. unfold document_name.
      by rewrite Hattrs, (omap_last _ _ _ "report.pdf").
    + intros Hnone. rewrite Hkind. unfold document_kind.
      by destruct (no_marker attrs Hnone) as [-> ->].
Qed.

(** A video with a file name, a bare video, and a video that an animated
    attribute follows. *)
Lemma document_normalization_witness :
  let clip := parseMessageWithUsers
                (fixtures.document_message ""
                   [tg.DocumentAttributeVideo 12 640 480;
                    tg.DocumentAttributeFilename "clip.mp4"]) [] in
  let bare := parseMessageWithUsers
                (fixtures.document_message "" [tg.DocumentAttributeVideo 12 640 480]) [] in
  let gif := parseMessageWithUsers
               (fixtures.document_message ""
                  [tg.DocumentAttributeVideo 3 320 240; tg.DocumentAttributeAnimated]) [] in
  (models.MessageType clip = "video"
   ∧ models.Content clip = with_media_suffix "[Video]" "clip.mp4")
  ∧ (models.MessageType bare = "video"
     ∧ models.Content bare = with_media_suffix "[Video]" "video.file")
  ∧ (models.MessageType gif = "gif"
     ∧ models.Content gif = with_media_suffix "[Video]" "gif.file").
Proof.
  intros clip bare gif. split; [|by split_and!].
  pose proof (proj1 (proj2 (document_normalization
           (fixtures.document_message ""
              [tg.DocumentAttributeVideo 12 640 480; tg.DocumentAttributeFilename "clip.mp4"])
           []
           (tg.mkDocument 1 2
              [tg.DocumentAttributeVideo 12 640 480; tg.DocumentAttributeFilename "clip.mp4"])
           eq_refl))
           [] 12 640 480 [tg.DocumentAttributeFilename "clip.mp4"] eq_refl eq_refl)
    as (Hkind & Hbody & _).
  split; [exact Hkind|exact (Hbody eq_refl eq_refl)].
Defined.

(** C4 as stated fails: an empty text with a single video attribute does not
    give the body "[Video]". *)
Lemma video_body_counterexample :
  let r := parseMessageWithUsers
             (fixtures.document_message "" [tg.DocumentAttributeVideo 12 640 480]) [] in
  ¬ (models.MessageType r = "video" ∧ models.Content r = "[Video]").
Proof. intros r [_ Hbody]. vm_compute in Hbody. discriminate Hbody. Qed.

(** C8 (as amended). For every raw message carrying photo media the kind is
    "photo" and the body is "[Photo]" when the raw text is empty (the raw
    text otherwise).  For a full photo object, the media reference names the
    plain size variant of largest positive area, the earliest one among
    equals; it is empty when no plain variant has a positive area, and for
    any other photo value. *)
Theorem photo_normalization (msg : tg.Message) (users : list tg.UserClass)
    (photo : option tg.PhotoClass) :
  tg.Message_Media msg = Some (tg.MessageMediaPhoto photo) →
  let r := parseMessageWithUsers msg users in
  models.MessageType r = "photo"
  ∧ (tg.Message_Message msg = "" → models.Content r = "[Photo]")
  ∧ (tg.Message_Message msg ≠ "" → models.Content r = tg.Message_Message msg)
  ∧ match photo with
    | Some (tg.APhoto p) =>
        (∃ i s, best_at (tg.Photo_Sizes p) i s
                ∧ models.MediaURL r = photo_url (tg.Photo_ID p) s)
        ∨ (no_positive_variant (tg.Photo_Sizes p) ∧ models.MediaURL r = "")
    | _ => models.MediaURL r = ""
    end.
Proof.
  intros Hmedia r. subst r. unfold parseMessageWithUsers. rewrite Hmedia.
  destruct (sender (tg.Message_FromID msg) users) as [fromID [[fromUsername fromFirstName] fromLastName]].
  simpl. split_and!.
  - done.
  - intros ->. done.
  - intros Htext. by rewrite placeholder_nonempty.
  - destruct photo as [[id|p]|]; [done| |done].
    apply getPhotoURL_selects.
Qed.

(** Two plain variants share the largest area, 800x600 and 600x800; the
    earlier one is named, and the larger progressive variant is not. *)
Lemma photo_normalization_witness :
  let msg := fixtures.photo_message "" fixtures.sample_sizes in
  let r := parseMessageWithUsers msg [] in
  (models.MessageType r = "photo"
   ∧ (tg.Message_Message msg = "" → models.Content r = "[Photo]")
   ∧ (tg.Message_Message msg ≠ "" → models.Content r = tg.Message_Message msg)
   ∧ ((∃ i s, best_at fixtures.sample_sizes i s ∧ models.MediaURL r = photo_url 9 s)
      ∨ (no_positive_variant fixtures.sample_sizes ∧ models.MediaURL r = "")))
  ∧ models.Content r = "[Photo]"
  ∧ models.MediaURL r = "telegram://photo/9_52000".
Proof.
  split; [|split; reflexivity].
  exact (photo_normalization (fixtures.photo_message "" fixtures.sample_sizes) [] _ eq_refl).
Defined.

(** C8 as stated fails: when the only variant has area zero, it maximizes
    the area and still no variant is selected. *)
Lemma photo_selection_counterexample :
  let sizes := [tg.APhotoSize (tg.mkPhotoSize "s" 0 0 5)] in
  let r := parseMessageWithUsers (fixtures.photo_message "" sizes) [] in
  models.MediaURL r = ""
  ∧ ∀ p, tg.APhotoSize p ∈ sizes → models.MediaURL r ≠ photo_url 9 p.
Proof.
  intros sizes r. split; [reflexivity|].
  intros p Hp. apply list_elem_of_singleton in Hp. injection Hp as ->.
  vm_compute. discriminate.
Qed.

End normalizer_properties.

(** ** State passing *)

Module runtime_facts.
Import runtime control.

Lemma outcome_eta {S A} (o : Outcome S A) : mkOutcome (value o) (world o) (events o) = o.
Proof. by destruct o. Qed.

Lemma bind_ret_l {S A B} (a : A) (k : A → M S B) (w : World S) : bind (ret a) k w = k a w.
Proof. unfold bind, ret. simpl. apply outcome_eta. Qed.

Lemma bind_assoc {S A B C} (m : M S A) (k : A → M S B) (k' : B → M S C) (w : World S) :
  bind (bind m k) k' w = bind m (λ a, bind (k a) k') w.
Proof. unfold bind. simpl. by rewrite app_assoc. Qed.

Lemma bind_get_client {S B} (k : Client → M S B) (w : World S) :
  bind get_client k w = k (client w) w.
Proof. unfold bind, get_client. simpl. apply outcome_eta. Qed.

Lemma bind_query {S A B} (f : database.DB → A) (k : A → M S B) (w : World S) :
  bind (query f) k w = k (f (db w)) w.
Proof. unfold bind, query. simpl. apply outcome_eta. Qed.

Lemma bind_emit {S B} (e : Event) (k : unit → M S B) (w : World S) :
  bind (emit e) k w = mkOutcome (value (k tt w)) (world (k tt w)) (e :: events (k tt w)).
Proof. reflexivity. Qed.

Lemma events_bind {S A B} (m : M S A) (k : A → M S B) (w : World S) :
  events (bind m k w) = events (m w) ++ events (k (value (m w)) (world (m w))).
Proof. reflexivity. Qed.

Lemma world_bind {S A B} (m : M S A) (k : A → M S B) (w : World S) :
  world (bind m k w) = world (k (value (m w)) (world (m w))).
Proof. reflexivity. Qed.

Lemma value_bind {S A B} (m : M S A) (k : A → M S B) (w : World S) :
  value (bind m k w) = value (k (value (m w)) (world (m w))).
Proof. reflexivity. Qed.

Lemma bind_ret_at {S A B} (m : M S A) (a : A) (k : A → M S B) (w : World S) :
  m w = ret a w → bind m k w = k a w.
Proof. intros Hm. unfold bind. rewrite Hm. simpl. apply outcome_eta. Qed.

Lemma for_range_app {S A} (xs ys : list A) (body : A → M S unit) (w : World S) :
  for_range (xs ++ ys) body w = (for_range xs body ;;; for_range ys body) w.
Proof.
  revert w. induction xs as [|x xs IH]; intros w; simpl.
  - by rewrite bind_ret_l.
  - rewrite bind_assoc. unfold bind at 1 3. simpl. by rewrite IH.
Qed.

Lemma for_range_cons_events {S A} (x : A) (rest : list A) (body : A → M S unit) (w : World S) :
  events (for_range (x :: rest) body w)
  = events (body x w) ++ events (for_range rest body (world (body x w))).
Proof. reflexivity. Qed.

Lemma for_range_cons_world {S A} (x : A) (rest : list A) (body : A → M S unit) (w : World S) :
  world (for_range (x :: rest) body w) = world (for_range rest body (world (body x w))).
Proof. reflexivity. Qed.

(** A loop keeps what each of its iterations keeps, and emits only what its
    iterations emit. *)
Lemma for_range_invariant {S A} (P : World S → Prop) (Q : Event → Prop)
    (body : A → M S unit) (xs : list A) (w : World S) :
  (∀ x w', P w' → P (world (body x w')) ∧ Forall Q (events (body x w'))) →
  P w →
  P (world (for_range xs body w)) ∧ Forall Q (events (for_range xs body w)).
Proof.
  intros Hbody. revert w. induction xs as [|x rest IH]; intros w Hw.
  - split; [done|constructor].
  - rewrite for_range_cons_events, for_range_cons_world.
    destruct (Hbody x w Hw) as [Hw' Hevents].
    destruct (IH _ Hw') as [Hfinal Hrest].
    split; [done|]. by apply Forall_app.
Qed.

Lemma for_range_from_invariant {S A} (P : World S → Prop) (Q : Event → Prop)
    (body : Z → A → M S unit) (xs : list A) (i : Z) (w : World S) :
  (∀ j x w', P w' → P (world (body j x w')) ∧ Forall Q (events (body j x w'))) →
  P w →
  P (world (for_range_from i xs body w)) ∧ Forall Q (events (for_range_from i xs body w)).
Proof.
  intros Hbody. revert i w. induction xs as [|x rest IH]; intros i w Hw.
  - split; [done|constructor].
  - cbn [for_range_from]. rewrite events_bind, world_bind. cbn beta.
    destruct (Hbody i x w Hw) as [Hw' Hevents].
    destruct (IH (i + 1) _ Hw') as [Hfinal Hrest].
    split; [done|]. by apply Forall_app.
Qed.

End runtime_facts.

(** ** Peer resolution *)

Module telegram_properties.
Import runtime control telegram runtime_facts spec.

Section Resolution.
Context {S : Type} (api : Api S).

Lemma parseMessagesResponse_ok (messages : tg.MessagesMessagesClass) (peerID : Z) :
  is_ok (normalizer.parseMessagesResponse messages peerID) = true.
Proof. by destruct messages. Qed.

(** A declared type outside user, bot, channel and group takes the probing
    path. *)
Lemma choose_peer_unknown (peerID : Z) (convType accessHash : string) :
  convType ≠ "user" → convType ≠ "bot" → convType ≠ "channel" → convType ≠ "group" →
  choose_peer peerID convType accessHash = Fallback.
Proof.
  intros Hu Hb Hc Hg. unfold choose_peer.
  rewrite (bool_decide_eq_false_2 (convType = "user")) by done.
  rewrite (bool_decide_eq_false_2 (convType = "bot")) by done.
  rewrite (bool_decide_eq_false_2 (convType = "channel")) by done.
  rewrite (bool_decide_eq_false_2 (convType = "group")) by done.
  reflexivity.
Qed.

(** A declared type outside user, bot, channel and group takes the probing
    path. *)
Lemma unknown_type_falls_back (w : World S) (peerID limit : Z) (convType accessHash : string) :
  isConnected (client w) = true →
  convType ≠ "user" → convType ≠ "bot" → convType ≠ "channel" → convType ≠ "group" →
  GetMessagesWithConvInfo api peerID limit convType accessHash w
  = getMessagesWithFallback api peerID limit convType accessHash w.
Proof.
  intros Hconn Hu Hb Hc Hg. unfold GetMessagesWithConvInfo.
  rewrite bind_get_client, Hconn, choose_peer_unknown by done.
  reflexivity.
Qed.

(** C5. A conversation whose declared type is none of user, bot, channel
    and group is fetched by the probing path.  The probing path asks for the
    history under user-style addressing, then channel-style, then chat-style,
    each only when the one before failed; its result is the normalized answer
    of the first call that succeeded, and it is an error exactly when all
    three failed. *)
Theorem fallback_order (w : World S) (peerID limit : Z) (convType accessHash : string) :
  (isConnected (client w) = true →
   convType ≠ "user" → convType ≠ "bot" → convType ≠ "channel" → convType ≠ "group" →
   GetMessagesWithConvInfo api peerID limit convType accessHash w
   = getMessagesWithFallback api peerID limit convType accessHash w)
  ∧ let user := tg.InputPeerUser peerID 0 in
    let channel := tg.InputPeerChannel peerID 0 in
    let chat := tg.InputPeerChat peerID in
    let a1 := runtime.MessagesGetHistory api user limit (remote w) in
    let a2 := runtime.MessagesGetHistory api channel limit (snd a1) in
    let a3 := runtime.MessagesGetHistory api chat limit (snd a2) in
    let o := getMessagesWithFallback api peerID limit convType accessHash w in
    match fst a1 with
    | Ok messages =>
        events o = [CallMessagesGetHistory user limit]
        ∧ value o = normalizer.parseMessagesResponse messages peerID
        ∧ is_ok (value o) = true
        ∧ remote (world o) = snd a1
    | Err _ =>
        match fst a2 with
        | Ok messages =>
            events o = [CallMessagesGetHistory user limit; CallMessagesGetHistory channel limit]
            ∧ value o = normalizer.parseMessagesResponse messages peerID
            ∧ is_ok (value o) = true
            ∧ remote (world o) = snd a2
        | Err _ =>
            events o = [CallMessagesGetHistory user limit; CallMessagesGetHistory channel limit;
                        CallMessagesGetHistory chat limit]
            ∧ remote (world o) = snd a3
            ∧ match fst a3 with
              | Ok messages =>
                  value o = normalizer.parseMessagesResponse messages peerID
                  ∧ is_ok (value o) = true
              | Err _ => is_err (value o) = true
              end
        end
    end.
Proof.
  split; [apply unknown_type_falls_back|].
  intros user channel chat a1 a2 a3 o. subst o a3 a2 a1 user channel chat.
  unfold getMessagesWithFallback, telegram.MessagesGetHistory.
  unfold bind, emit, outside, ret. simpl.
  destruct (runtime.MessagesGetHistory api (tg.InputPeerUser peerID 0) limit (remote w))
    as [[m1|e1] s1]; simpl.
  { split_and!; try done. apply parseMessagesResponse_ok. }
  destruct (runtime.MessagesGetHistory api (tg.InputPeerChannel peerID 0) limit s1)
    as [[m2|e2] s2]; simpl.
  { split_and!; try done. apply parseMessagesResponse_ok. }
  destruct (runtime.MessagesGetHistory api (tg.InputPeerChat peerID) limit s2)
    as [[m3|e3] s3]; simpl.
  { split_and!; try done. apply parseMessagesResponse_ok. }
  done.
Qed.

Lemma choose_peer_channel (peerID : Z) (accessHash : string) :
  choose_peer peerID "channel" accessHash
  = if bool_decide (accessHash ≠ "") then
      match strconv.ParseInt accessHash with
      | Ok hash => UsePeer (tg.InputPeerChannel peerID hash)
      | Err _ => Fail "channel requires valid access_hash"
      end
    else Fail "channel requires access_hash".
Proof. reflexivity. Qed.

Lemma choose_peer_group (peerID : Z) (accessHash : string) :
  choose_peer peerID "group" accessHash
  = if bool_decide (accessHash ≠ "") then
      match strconv.ParseInt accessHash with
      | Ok hash => UsePeer (tg.InputPeerChannel peerID hash)
      | Err _ => Fail "supergroup requires valid access_hash"
      end
    else UsePeer (tg.InputPeerChat peerID).
Proof. reflexivity. Qed.

Lemma fetch_refused (w : World S) (peerID limit : Z) (convType accessHash : string) (err : error) :
  choose_peer peerID convType accessHash = Fail err →
  refused w (GetMessagesWithConvInfo api peerID limit convType accessHash w).
Proof.
  intros Hchoice. unfold GetMessagesWithConvInfo. rewrite bind_get_client, Hchoice.
  by destruct (isConnected (client w)).
Qed.

Lemma fetch_addressed (w : World S) (peerID limit : Z) (convType accessHash : string)
    (peer : tg.InputPeerClass) :
  choose_peer peerID convType accessHash = UsePeer peer →
  addressed api w peerID limit peer (GetMessagesWithConvInfo api peerID limit convType accessHash w).
Proof.
  intros Hchoice Hconn. unfold GetMessagesWithConvInfo.
  rewrite bind_get_client, Hchoice, Hconn.
  unfold telegram.MessagesGetHistory, bind, emit, outside, ret. simpl.
  by destruct (runtime.MessagesGetHistory api peer limit (remote w)) as [[m|e] s].
Qed.

(** C6 (as amended). Fetching the messages of a channel fails, without any
    remote call, when the access hash is empty or does not parse; a group is
    addressed chat-style when the access hash is empty, channel-style when it
    parses, and its fetch fails when it is present and does not parse.  The
    watermark resync steps over a conversation whose access hash is empty and
    goes on with the next one. *)
Theorem typed_peer_resolution (w : World S) (peerID limit userID : Z) (accessHash : string)
    (conv : models.Conversation) (rest : list models.Conversation) :
  let fetch convType := GetMessagesWithConvInfo api peerID limit convType accessHash w in
  match (if bool_decide (accessHash = "") then None else Some (strconv.ParseInt accessHash)) with
  | None =>
      refused w (fetch "channel")
      ∧ addressed api w peerID limit (tg.InputPeerChat peerID) (fetch "group")
  | Some (Err _) =>
      refused w (fetch "channel") ∧ refused w (fetch "group")
  | Some (Ok hash) =>
      addressed api w peerID limit (tg.InputPeerChannel peerID hash) (fetch "channel")
      ∧ addressed api w peerID limit (tg.InputPeerChannel peerID hash) (fetch "group")
  end
  ∧ (models.Conversation_AccessHash conv = "" →
     for_range (conv :: rest) (engine.sync_conversation api userID) w
     = for_range rest (engine.sync_conversation api userID) w).
Proof.
  intros fetch. subst fetch. split.
  - case_bool_decide as Hhash.
    + subst accessHash. split; [by eapply fetch_refused|by apply fetch_addressed].
    + destruct (strconv.ParseInt accessHash) as [hash|err] eqn:Hparse.
      * split; apply fetch_addressed.
        -- rewrite choose_peer_channel, Hparse. by rewrite bool_decide_eq_true_2.
        -- rewrite choose_peer_group, Hparse. by rewrite bool_decide_eq_true_2.
      * split; eapply fetch_refused.
        -- rewrite choose_peer_channel, Hparse. by rewrite bool_decide_eq_true_2.
        -- rewrite choose_peer_group, Hparse. by rewrite bool_decide_eq_true_2.
  - intros Hempty. cbn [for_range].
    unfold engine.sync_conversation at 1, engine.is_channel_like.
    rewrite Hempty. rewrite (bool_decide_eq_false_2 ("" ≠ "")) by (intros H; by apply H).
    rewrite andb_false_r.
    exact (bind_ret_l tt (λ _, for_range rest (engine.sync_conversation api userID)) w).
Qed.

End Resolution.

(** On a platform where conversation 500 answers only when addressed as a
    chat, a conversation of the undeclared type "legacy" is probed as user,
    as channel and as chat, and the chat answer is the result. *)
Lemma fallback_order_witness :
  let api := fixtures.scripted fixtures.chat_only in
  let w := fixtures.connected fixtures.empty_db in
  let o := GetMessagesWithConvInfo api 500 50 "legacy" "" w in
  events o
  = [CallMessagesGetHistory (tg.InputPeerUser 500 0) 50;
     CallMessagesGetHistory (tg.InputPeerChannel 500 0) 50;
     CallMessagesGetHistory (tg.InputPeerChat 500) 50]
  ∧ models.MessageID <$> (match value o with Ok messages => messages | Err _ => [] end) = [3].
Proof.
  intros api w o. subst o.
  rewrite (proj1 (fallback_order api w 500 50 "legacy" "") eq_refl); [|discriminate..].
  split; reflexivity.
Defined.

(** On a platform where conversation 500 answers only when addressed as a
    chat, a group without access hash is fetched chat-style, and the resync
    steps over it. *)
Lemma typed_peer_resolution_witness :
  let api := fixtures.scripted fixtures.chat_only in
  let w := fixtures.connected fixtures.empty_db in
  let o := GetMessagesWithConvInfo api 500 50 "group" "" w in
  (events o = [CallMessagesGetHistory (tg.InputPeerChat 500) 50]
   ∧ is_ok (value o) = true)
  ∧ for_range [fixtures.group_conversation ""] (engine.sync_conversation api 1) w
    = for_range [] (engine.sync_conversation api 1) w.
Proof.
  intros api w o.
  destruct (typed_peer_resolution api w 500 50 1 "" (fixtures.group_conversation "") [])
    as [[_ Hgroup] Hskip].
  split.
  - destruct (Hgroup eq_refl) as [Hevents _]. split; [exact Hevents|reflexivity].
  - exact (Hskip eq_refl).
Defined.

(** C6 as stated fails: a group whose access hash is present and does not
    parse is not addressed at all. *)
Lemma group_token_counterexample :
  let api := fixtures.scripted fixtures.chat_only in
  let w := fixtures.connected fixtures.empty_db in
  let o := GetMessagesWithConvInfo api 500 50 "group" "abc" w in
  "abc" ≠ ""
  ∧ is_err (value o) = true
  ∧ ¬ ∃ hash, CallMessagesGetHistory (tg.InputPeerChannel 500 hash) 50 ∈ events o.
Proof.
  intros api w o. split_and!; [done|reflexivity|].
  intros [hash Hin]. vm_compute in Hin. by apply elem_of_nil in Hin.
Qed.

End telegram_properties.

(** ** Storage *)

Module database_facts.
Import database spec.

Section Sorting.
Context {A : Type} (before : A → A → bool).

Lemma insert_sorted_perm (x : A) (rows : list A) : insert_sorted before x rows ≡ₚ x :: rows.
Proof.
  induction rows as [|y rows IH]; simpl; [done|].
  destruct (before x y); [done|].
  rewrite IH. apply Permutation_swap.
Qed.

Lemma sort_stable_snoc (rows : list A) (x : A) :
  sort_stable before (rows ++ [x]) = insert_sorted before x (sort_stable before rows).
Proof. unfold sort_stable. by rewrite foldl_app. Qed.

Lemma sort_stable_perm (rows : list A) : sort_stable before rows ≡ₚ rows.
Proof.
  induction rows as [|x rows IH] using rev_ind; [done|].
  rewrite sort_stable_snoc, insert_sorted_perm, IH.
  by rewrite <- Permutation_cons_append.
Qed.

Lemma sort_stable_nil (rows : list A) : sort_stable before rows = [] → rows = [].
Proof.
  intros Hsorted. apply Permutation_nil_r. by rewrite <- Hsorted, sort_stable_perm.
Qed.

Hypothesis before_asym : ∀ x y, before x y = true → before y x = false.
Hypothesis before_chain : ∀ x y z, before x y = true → before z y = false → before x z = true.

Context (visited : A → A → Prop).


Lemma insert_sorted_ordered (x : A) (sorted : list A) :
  StronglySorted (λ a b, before b a = false ∧ (before a b = false → visited a b)) sorted →
  Forall (λ y, visited y x) sorted →
  StronglySorted (λ a b, before b a = false ∧ (before a b = false → visited a b)) (insert_sorted before x sorted).
Proof.
  induction 1 as [|y rest Hrest IH Hy]; intros Hx; simpl.
  - repeat constructor.
  - apply Forall_cons in Hx as [Hyx Hx].
    destruct (before x y) eqn:Hxy.
    + constructor; [by constructor|].
      constructor.
      * split; [by apply before_asym|]. intros Hno. by rewrite Hxy in Hno.
      * eapply Forall_impl; [exact Hy|]. intros z [Hzy _]. simpl.
        pose proof (before_chain x y z Hxy Hzy) as Hxz.
        split; [by apply before_asym|]. intros Hno. by rewrite Hxz in Hno.
    + constructor; [by apply IH|].
      rewrite insert_sorted_perm. by constructor.
Qed.

Lemma StronglySorted_snoc_inv (R : A → A → Prop) (rows : list A) (x : A) :
  StronglySorted R (rows ++ [x]) → StronglySorted R rows ∧ Forall (λ y, R y x) rows.
Proof.
  induction rows as [|y rows IH]; simpl; [by split; constructor|].
  intros Hsorted. apply StronglySorted_inv in Hsorted as [Hrest Hy].
  destruct (IH Hrest) as [Hrows Hx]. apply Forall_app in Hy as [Hy Hyx].
  apply Forall_cons in Hyx as [Hyx _]. split; [by constructor|]. constructor; [exact Hyx|exact Hx].
Qed.

Lemma sort_stable_ordered (rows : list A) :
  StronglySorted visited rows → StronglySorted (λ a b, before b a = false ∧ (before a b = false → visited a b)) (sort_stable before rows).
Proof.
  induction rows as [|x rows IH] using rev_ind; intros Hrows; [constructor|].
  apply StronglySorted_snoc_inv in Hrows as [Hrows Hx].
  rewrite sort_stable_snoc. apply insert_sorted_ordered; [by apply IH|].
  by rewrite sort_stable_perm.
Qed.

End Sorting.

Lemma StronglySorted_impl {A} (R R' : A → A → Prop) (rows : list A) :
  (∀ a b, R a b → R' a b) → StronglySorted R rows → StronglySorted R' rows.
Proof.
  intros Himpl. induction 1 as [|x rows Hrows IH Hx]; constructor; [done|].
  eapply Forall_impl; [exact Hx|]. intros y. apply Himpl.
Qed.

Lemma StronglySorted_any {A} (rows : list A) : StronglySorted (λ _ _, True) rows.
Proof. induction rows; constructor; [done|]. by apply Forall_true. Qed.

Lemma scan_perm {A} (rank : A → Z) (rows : list A) : scan rank rows ≡ₚ rows.
Proof. apply sort_stable_perm. Qed.

(** The rows are visited in ascending rank. *)
Lemma scan_ascending {A} (rank : A → Z) (rows : list A) :
  StronglySorted (λ a b, rank a ≤ rank b) (scan rank rows).
Proof.
  eapply StronglySorted_impl;
    [|apply (sort_stable_ordered (λ x y, rank x <? rank y)) with (visited := λ _ _, True)].
  - intros a b [Hba _]. simpl in Hba. lia.
  - intros x y Hxy. simpl in *. lia.
  - intros x y z Hxy Hzy. simpl in *. lia.
  - apply StronglySorted_any.
Qed.

Section Ordering.
Context {A K : Type} (leb : K → K → bool) (key : A → K).

Hypothesis leb_total : ∀ a b, leb a b = true ∨ leb b a = true.
Hypothesis leb_trans : ∀ a b c, leb a b = true → leb b c = true → leb a c = true.

Lemma order_by_desc_perm (visited : list A) : order_by_desc leb key visited ≡ₚ visited.
Proof. apply sort_stable_perm. Qed.

Lemma order_by_desc_nil (visited : list A) : order_by_desc leb key visited = [] → visited = [].
Proof. apply sort_stable_nil. Qed.

(** [ORDER BY key DESC] is descending by key, and keeps rows of equal key
    in the order visited. *)
Lemma order_by_desc_ordered (before : A → A → Prop) (visited : list A) :
  StronglySorted before visited →
  StronglySorted (λ a b, leb (key b) (key a) = true
                         ∧ (leb (key a) (key b) = true → before a b))
    (order_by_desc leb key visited).
Proof.
  intros Hvisited.
  eapply StronglySorted_impl;
    [|apply (sort_stable_ordered (λ x y, negb (leb (key x) (key y)))) with (visited := before)].
  - intros a b [Hba Hab]. simpl in *. apply negb_false_iff in Hba. split; [done|].
    intros Hle. apply Hab. by rewrite Hle.
  - intros x y Hxy. simpl in *. apply negb_true_iff in Hxy. apply negb_false_iff.
    by destruct (leb_total (key x) (key y)) as [Hle|Hle]; [rewrite Hle in Hxy|].
  - intros x y z Hxy Hzy. simpl in *. apply negb_true_iff in Hxy.
    apply negb_false_iff in Hzy. apply negb_true_iff.
    destruct (leb (key x) (key z)) eqn:Hxz; [|done].
    by rewrite (leb_trans _ _ _ Hxz Hzy) in Hxy.
  - done.
Qed.

(** The rows of a query in the order returned: descending by key, rows of
    equal key by ascending rank. *)
Lemma query_ordered (rank : A → Z) (rows : list A) :
  StronglySorted (λ a b, leb (key b) (key a) = true
                         ∧ (leb (key a) (key b) = true → rank a ≤ rank b))
    (order_by_desc leb key (scan rank rows)).
Proof. apply order_by_desc_ordered, scan_ascending. Qed.

Lemma query_perm (rank : A → Z) (rows : list A) :
  order_by_desc leb key (scan rank rows) ≡ₚ rows.
Proof. by rewrite order_by_desc_perm, scan_perm. Qed.

(** The first row of a query: of largest key, and of smallest rank among
    the rows of that key. *)
Lemma query_first (rank : A → Z) (rows : list A) (first : A) (rest : list A) :
  order_by_desc leb key (scan rank rows) = first :: rest →
  first ∈ rows
  ∧ ∀ row, row ∈ rows →
      leb (key row) (key first) = true
      ∧ (leb (key first) (key row) = true → rank first ≤ rank row).
Proof.
  intros Hsorted.
  pose proof (query_ordered rank rows) as Hordered.
  pose proof (query_perm rank rows) as Hperm.
  rewrite Hsorted in Hordered, Hperm. split.
  - rewrite <- Hperm. by left.
  - intros row Hrow. rewrite <- Hperm in Hrow.
    apply StronglySorted_inv in Hordered as [_ Hall].
    apply elem_of_cons in Hrow as [->|Hrow].
    + split; [by destruct (leb_total (key first) (key first))|lia].
    + by eapply Forall_forall in Hall.
Qed.

End Ordering.

Lemma text_leb_total (s t : string) : String.leb s t = true ∨ String.leb t s = true.
Proof.
  destruct (total String.le s t) as [Hle|Hle]; [left|right]; by apply Is_true_true.
Qed.

Lemma text_leb_trans (s t u : string) :
  String.leb s t = true → String.leb t u = true → String.leb s u = true.
Proof.
  intros Hst Htu. apply Is_true_true.
  by transitivity t; apply Is_true_true.
Qed.

Lemma Z_leb_total (a b : Z) : (a <=? b) = true ∨ (b <=? a) = true.
Proof. destruct (Z.leb_spec a b); [by left|right]. apply Z.leb_le. lia. Qed.

Lemma Z_leb_trans (a b c : Z) : (a <=? b) = true → (b <=? c) = true → (a <=? c) = true.
Proof. rewrite !Z.leb_le. lia. Qed.

End database_facts.

Module watermark_facts.
Import database spec database_facts.

Lemma watermark_latest (d : DB) (userID conversationID : Z) :
  online d = true →
  (stored_messages d userID conversationID = [] → watermark d userID conversationID = 0)
  ∧ (stored_messages d userID conversationID ≠ [] →
     ∃ latest, latest ∈ stored_messages d userID conversationID
       ∧ watermark d userID conversationID = models.MessageID latest
       ∧ ∀ row, row ∈ stored_messages d userID conversationID →
           String.leb (timestamp_text d row) (timestamp_text d latest) = true
           ∧ (String.leb (timestamp_text d latest) (timestamp_text d row) = true →
              models.MessageID latest ≤ models.MessageID row)).
Proof.
  intros Honline. unfold watermark, GetMessagesByUserAndConversation. rewrite Honline.
  fold (stored_messages d userID conversationID).
  unfold limit_offset. simpl.
  destruct (order_by_desc String.leb (λ row, time_text d (models.Timestamp row))
              (scan models.MessageID (stored_messages d userID conversationID)))
    as [|first rest] eqn:Hsorted; simpl.
  - split; [done|]. intros Hrows.
    apply order_by_desc_nil in Hsorted. apply sort_stable_nil in Hsorted. done.
  - apply (query_first String.leb _ text_leb_total text_leb_trans) in Hsorted as [Hin Hmax].
    split.
    + intros Hrows. rewrite Hrows in Hin. by apply elem_of_nil in Hin.
    + intros _. by exists first.
Qed.

Lemma SaveMessage_keeps (d : DB) (msg : models.Message) :
  updates_state (SaveMessage d msg).2 = updates_state d
  ∧ online (SaveMessage d msg).2 = online d.
Proof. unfold SaveMessage. by destruct (online d) eqn:Honline. Qed.

Lemma SaveConversation_online (d : DB) (conv : models.Conversation) :
  online (SaveConversation d conv).2 = online d.
Proof. unfold SaveConversation. by destruct (online d) eqn:Honline. Qed.

End watermark_facts.

(** ** The engine *)

Module engine_facts.
Import runtime control telegram engine spec runtime_facts.

Section Engine.
Context {S : Type} (api : Api S).

Lemma saved_messages_app (es1 es2 : list Event) :
  saved_messages (es1 ++ es2) = saved_messages es1 ++ saved_messages es2.
Proof. apply omap_app. Qed.

Lemma saved_cursors_app (es1 es2 : list Event) :
  saved_cursors (es1 ++ es2) = saved_cursors es1 ++ saved_cursors es2.
Proof. apply omap_app. Qed.

(** Fetching messages writes nothing: it leaves storage and the client as
    they are, and its events are remote calls. *)
Lemma fetch_writes_nothing (w : World S) (peerID limit : Z) (convType accessHash : string) :
  let o := GetMessagesWithConvInfo api peerID limit convType accessHash w in
  db (world o) = db w
  ∧ client (world o) = client w
  ∧ saved_messages (events o) = []
  ∧ saved_cursors (events o) = [].
Proof.
  intros o. subst o. unfold GetMessagesWithConvInfo. rewrite bind_get_client.
  destruct (isConnected (client w)); [|done]. cbn [negb].
  destruct (choose_peer peerID convType accessHash) as [peer|err|]; [|done|].
  - unfold telegram.MessagesGetHistory, bind, emit, outside, ret. simpl.
    by destruct (runtime.MessagesGetHistory api peer limit (remote w)) as [[m|e] s].
  - unfold getMessagesWithFallback, telegram.MessagesGetHistory.
    unfold bind, emit, outside, ret. simpl.
    destruct (runtime.MessagesGetHistory api (tg.InputPeerUser peerID 0) limit (remote w))
      as [[m1|e1] s1]; simpl; [done|].
    destruct (runtime.MessagesGetHistory api (tg.InputPeerChannel peerID 0) limit s1)
      as [[m2|e2] s2]; simpl; [done|].
    by destruct (runtime.MessagesGetHistory api (tg.InputPeerChat peerID) limit s2)
      as [[m3|e3] s3].
Qed.

(** The loop over the fetched messages hands to [SaveMessage] exactly the
    messages that pass the watermark test, in the order fetched. *)
Lemma save_newer_saved (userID offsetID : Z) (channelMessages : list models.Message)
    (w : World S) :
  saved_messages (events (save_newer userID offsetID channelMessages w))
  = filter (λ msg, offsetID = 0 ∨ offsetID < models.MessageID msg)
      ((λ msg, models.Message_with_UserID msg userID) <$> channelMessages).
Proof.
  unfold save_newer. revert w.
  induction channelMessages as [|msg rest IH]; intros w; [done|].
  cbn [for_range fmap list_fmap]. unfold bind at 1. cbn [events].
  rewrite saved_messages_app, IH. clear IH.
  rewrite filter_cons. cbn [models.MessageID models.Message_with_UserID].
  destruct (decide (offsetID = 0 ∨ offsetID < models.MessageID msg)) as [Hnew|Hold].
  - assert (bool_decide (offsetID = 0) || (offsetID <? models.MessageID msg) = true) as ->.
    { destruct Hnew as [->|Hlt]; [done|].
      apply orb_true_iff. right. by apply Z.ltb_lt. }
    unfold SaveMessage, bind, emit, exec, ret. simpl.
    by destruct (database.SaveMessage (db w) (models.Message_with_UserID msg userID)).1.
  - assert (bool_decide (offsetID = 0) || (offsetID <? models.MessageID msg) = false) as ->.
    { apply orb_false_iff. split.
      - apply bool_decide_eq_false_2. tauto.
      - apply Z.ltb_ge. lia. }
    done.
Qed.

(** The cursor [autoSyncUser] starts from, when storage answers. *)
Lemma stored_state_online (userID : Z) (w : World S) :
  database.online (db w) = true →
  stored_state userID w
  = ret (tg.Pts (stored_cursor (db w) userID), tg.Qts (stored_cursor (db w) userID),
         tg.Date (stored_cursor (db w) userID), tg.Seq (stored_cursor (db w) userID)) w.
Proof.
  intros Honline. unfold stored_state. rewrite bind_query.
  unfold database.GetUpdatesState, stored_cursor. rewrite Honline.
  by destruct (database.updates_state (db w) !! userID).
Qed.

Lemma no_state_true (pts qts date : Z) :
  no_state pts qts date = true ↔ pts = 0 ∧ qts = 0 ∧ date = 0.
Proof.
  unfold no_state. rewrite !andb_true_iff, !bool_decide_eq_true. tauto.
Qed.

(** The two branches of [autoSyncUser]. *)
Lemma autoSyncUser_events (userID : Z) (w : World S) :
  database.online (db w) = true →
  let c := stored_cursor (db w) userID in
  let full := full_sync api userID w in
  let incremental := incremental_sync api userID (tg.Pts c) (tg.Qts c) (tg.Date c) (tg.Seq c) w in
  let o := autoSyncUser api userID w in
  if no_state (tg.Pts c) (tg.Qts c) (tg.Date c) then
    events o
    = Log (StartingAutoSync userID) :: Log (NoStoredState userID)
      :: events full ++ (if value full then [Log (AutoSyncCompleted userID)] else [])
    ∧ world o = world full
  else
    events o
    = Log (StartingAutoSync userID)
      :: events incremental ++ [Go (ChannelSync userID); Log (AutoSyncCompleted userID)]
    ∧ world o = world incremental.
Proof.
  intros Honline c full incremental o. subst o. unfold autoSyncUser.
  rewrite bind_emit. cbn [events world].
  rewrite !(bind_ret_at _ _ _ _ (stored_state_online userID w Honline)).
  fold c. fold (no_state (tg.Pts c) (tg.Qts c) (tg.Date c)).
  destruct (no_state (tg.Pts c) (tg.Qts c) (tg.Date c)).
  - rewrite bind_emit. cbn [events world]. unfold bind, when. cbn [events world value].
    fold full. by destruct (value full).
  - unfold bind. cbn [events world value emit]. by fold incremental.
Qed.

Lemma saved_cursors_none (es : list Event) :
  Forall (λ e, saved_cursor e = None) es → saved_cursors es = [].
Proof.
  induction 1 as [|e es He _ IH]; [done|].
  unfold saved_cursors in *. simpl. by rewrite He.
Qed.

(** Saving a batch of messages writes no cursor. *)
Lemma save_all_effects (msgs : list models.Message) (w : World S) :
  let o := for_range msgs (λ msg, SaveMessage msg ;;; ret tt) w in
  saved_cursors (events o) = []
  ∧ database.updates_state (db (world o)) = database.updates_state (db w)
  ∧ database.online (db (world o)) = database.online (db w).
Proof.
  intros o. subst o.
  destruct (for_range_invariant
              (λ w', database.updates_state (db w') = database.updates_state (db w)
                     ∧ database.online (db w') = database.online (db w))
              (λ e, saved_cursor e = None)
              (λ msg, SaveMessage msg ;;; ret tt) msgs w) as [[Hst Hon] Hev]; [|done|].
  - intros msg w' [Hst Hon].
    destruct (watermark_facts.SaveMessage_keeps (db w') msg) as [Hst' Hon'].
    split; [|by repeat constructor].
    unfold SaveMessage, bind, emit, exec, ret. simpl. by rewrite Hst', Hon'.
  - split; [by apply saved_cursors_none|done].
Qed.

Lemma GetUpdates_effects (pts date qts : Z) (w : World S) :
  let o := GetUpdates api pts date qts w in
  db (world o) = db w ∧ saved_cursors (events o) = [].
Proof.
  intros o. subst o. unfold GetUpdates. rewrite bind_get_client.
  destruct (isConnected (client w)); [|done]. cbn [negb].
  unfold bind, emit, outside, ret. simpl.
  by destruct (UpdatesGetDifference api pts date qts (remote w)) as [[u|e] s].
Qed.

(** What the incremental branch does to the stored cursor. *)
Lemma incremental_sync_cursor (userID pts qts date seq : Z) (w : World S) :
  let diff := GetUpdates api pts date qts w in
  let o := incremental_sync api userID pts qts date seq w in
  match value diff with
  | Ok updates =>
      let state := tg.State updates in
      if (0 <? tg.Pts state) || (0 <? tg.Date state) then
        saved_cursors (events o) = [(userID, state)]
        ∧ (database.online (db w) = true →
           database.updates_state (db (world o))
           = <[userID := state]> (database.updates_state (db w)))
      else
        saved_cursors (events o) = []
        ∧ database.updates_state (db (world o)) = database.updates_state (db w)
  | Err _ =>
      saved_cursors (events o) = []
      ∧ database.updates_state (db (world o)) = database.updates_state (db w)
  end.
Proof.
  intros diff o. subst o. unfold incremental_sync.
  rewrite bind_emit. cbn [events world].
  rewrite events_bind, world_bind. cbn beta. fold diff.
  destruct (GetUpdates_effects pts date qts w) as [Hdb Hnone]. fold diff in Hdb, Hnone.
  change (saved_cursors (?e :: ?es)) with (saved_cursors es).
  rewrite saved_cursors_app, Hnone. cbn [app].
  destruct (value diff) as [updates|err];
    [|unfold emit; cbn [world events]; by rewrite Hdb].
  rewrite events_bind, world_bind. cbn beta.
  destruct (save_all_effects (normalizer.ParseUpdatesMessages updates userID) (world diff))
    as (Hev & Hst & Hon).
  rewrite saved_cursors_app, Hev. cbn [app]. clear Hev Hnone.
  set (w1 := world (for_range (normalizer.ParseUpdatesMessages updates userID)
                      (λ msg, SaveMessage msg ;;; ret tt) (world diff))) in *.
  rewrite Hdb in Hst, Hon.
  destruct ((0 <? tg.Pts (tg.State updates)) || (0 <? tg.Date (tg.State updates))).
  - unfold SaveUpdatesState, bind, emit, exec, ret, database.SaveUpdatesState. simpl.
    destruct (tg.State updates) as [p q d s]. simpl. split; [done|].
    intros Honline. rewrite Hon, Honline. simpl. by rewrite Hst.
  - done.
Qed.

Lemma SaveUpdatesState_events (userID pts qts date seq : Z) (w : World S) :
  events (SaveUpdatesState userID pts qts date seq w)
  = [ExecSaveUpdatesState userID pts qts date seq].
Proof. reflexivity. Qed.

Lemma SaveUpdatesState_db (userID pts qts date seq : Z) (w : World S) :
  db (world (SaveUpdatesState userID pts qts date seq w))
  = (database.SaveUpdatesState (db w) userID pts qts date seq).2.
Proof. reflexivity. Qed.

Lemma GetState_effects (w : World S) :
  let o := GetState api w in
  db (world o) = db w ∧ saved_cursors (events o) = [].
Proof.
  intros o. subst o. unfold GetState. rewrite bind_get_client.
  destruct (isConnected (client w)); cbn [negb]; [|done].
  unfold bind, emit, outside, ret. simpl.
  by destruct (UpdatesGetState api (remote w)) as [[u|e] s].
Qed.

(** The last step of the initial full sync persists the state the platform
    reports, and nothing else. *)
Lemma save_current_state_persists (userID : Z) (w : World S) :
  let answer := GetState api w in
  let o := save_current_state api userID w in
  match value answer with
  | Ok state =>
      saved_cursors (events o) = [(userID, state)]
      ∧ (database.online (db w) = true → stored_cursor (db (world o)) userID = state)
  | Err _ => saved_cursors (events o) = [] ∧ db (world o) = db w
  end.
Proof.
  intros answer o. subst o. unfold save_current_state.
  rewrite events_bind, world_bind. cbn beta. fold answer.
  destruct (GetState_effects w) as [Hdb Hnone]. fold answer in Hdb, Hnone.
  rewrite saved_cursors_app, Hnone. cbn [app].
  destruct (value answer) as [[p q d s]|err]; [|done].
  rewrite events_bind, world_bind. cbn beta. cbn [ret events world tg.Pts tg.Qts tg.Date tg.Seq].
  rewrite SaveUpdatesState_events, SaveUpdatesState_db.
  split; [done|]. intros Honline.
  unfold database.SaveUpdatesState, stored_cursor. rewrite Hdb, Honline. simpl.
  by rewrite lookup_insert_eq.
Qed.

(** The initial full sync, step by step, when the listing succeeds. *)
Lemma full_sync_steps (userID : Z) (w : World S) (dialogs : list models.Conversation) :
  value (GetDialogs api w) = Ok dialogs →
  let w1 := world (GetDialogs api w) in
  let w2 := world (save_conversations userID dialogs w1) in
  let w3 := world (sync_recent_messages api userID dialogs w2) in
  value (full_sync api userID w) = true
  ∧ world (full_sync api userID w) = world (save_current_state api userID w3)
  ∧ events (full_sync api userID w)
    = events (GetDialogs api w) ++ events (save_conversations userID dialogs w1)
      ++ events (sync_recent_messages api userID dialogs w2)
      ++ events (save_current_state api userID w3).
Proof.
  intros Hlisting w1 w2 w3. unfold full_sync.
  rewrite value_bind, world_bind, events_bind, Hlisting. cbn beta iota.
  fold w1. rewrite value_bind, world_bind, events_bind. cbn beta.
  fold w2. rewrite value_bind, world_bind, events_bind. cbn beta.
  fold w3. rewrite value_bind, world_bind, events_bind. cbn beta.
  split_and!; [done|done|]. cbn [ret events]. by rewrite app_nil_r.
Qed.

(** The two loops of the initial full sync keep storage reachable. *)
Lemma save_conversations_online (userID : Z) (dialogs : list models.Conversation)
    (w : World S) :
  database.online (db (world (save_conversations userID dialogs w))) = database.online (db w).
Proof.
  unfold save_conversations.
  apply (for_range_invariant (λ w', database.online (db w') = database.online (db w))
           (λ _, True)); [|done].
  intros dialog w' Hw'. split; [|by apply Forall_true].
  rewrite world_bind. cbn beta. cbn [ret world].
  unfold SaveConversation. rewrite world_bind. cbn beta. unfold exec. cbn [world db].
  by rewrite watermark_facts.SaveConversation_online.
Qed.

Lemma sync_recent_messages_online (userID : Z) (dialogs : list models.Conversation)
    (w : World S) :
  database.online (db (world (sync_recent_messages api userID dialogs w)))
  = database.online (db w).
Proof.
  unfold sync_recent_messages.
  apply (for_range_from_invariant (λ w', database.online (db w') = database.online (db w))
           (λ _, True)); [|done].
  intros i dialog w' Hw'. split; [|by apply Forall_true].
  rewrite world_bind. cbn beta.
  assert (Hwhen : world (when (0 <? i) (emit (Sleep 1)) w') = w')
    by by destruct (0 <? i).
  rewrite Hwhen. rewrite world_bind. cbn beta.
  destruct (fetch_writes_nothing w' (models.Conversation_ID dialog) 50
              (models.Conversation_Type dialog) (models.Conversation_AccessHash dialog))
    as (Hdb & _).
  destruct (value (GetMessagesWithConvInfo api (models.Conversation_ID dialog) 50
                     (models.Conversation_Type dialog) (models.Conversation_AccessHash dialog) w'))
    as [messages|err].
  - destruct (for_range_invariant
                (λ w'', database.online (db w'') = database.online (db w))
                (λ _, True)
                (λ msg, SaveMessage (models.Message_with_UserID msg userID) ;;; ret tt)
                messages
                (world (GetMessagesWithConvInfo api (models.Conversation_ID dialog) 50
                          (models.Conversation_Type dialog)
                          (models.Conversation_AccessHash dialog) w'))) as [Hfinal _];
      [|by rewrite Hdb|done].
    intros msg w'' Hw''. split; [|by apply Forall_true].
    rewrite world_bind. cbn beta. cbn [ret world].
    unfold SaveMessage. rewrite world_bind. cbn beta. unfold exec. cbn [world db].
    by rewrite (proj2 (watermark_facts.SaveMessage_keeps _ _)).
  - cbn [ret world]. by rewrite Hdb.
Qed.

Lemma GetDialogs_db (w : World S) : db (world (GetDialogs api w)) = db w.
Proof.
  unfold GetDialogs. rewrite bind_get_client.
  destruct (isConnected (client w)); cbn [negb]; [|done].
  unfold bind, emit, outside, ret. simpl.
  by destruct (Dialogs api (remote w)) as [[u|e] s].
Qed.

(** A bootstrap whose listing and state request succeed leaves the reported
    state as the stored cursor. *)
Lemma bootstrap_persists_snapshot (userID : Z) (w : World S)
    (dialogs : list models.Conversation) (state : tg.UpdatesState) :
  database.online (db w) = true →
  value (GetDialogs api w) = Ok dialogs →
  let w1 := world (GetDialogs api w) in
  let w2 := world (save_conversations userID dialogs w1) in
  let w3 := world (sync_recent_messages api userID dialogs w2) in
  value (GetState api w3) = Ok state →
  stored_cursor (db (world (full_sync api userID w))) userID = state.
Proof.
  intros Honline Hlisting w1 w2 w3 Hstate.
  destruct (full_sync_steps userID w dialogs Hlisting) as (_ & Hworld & _).
  fold w1 w2 w3 in Hworld. rewrite Hworld.
  pose proof (save_current_state_persists userID w3) as Hsnapshot. cbv zeta in Hsnapshot.
  rewrite Hstate in Hsnapshot. apply Hsnapshot.
  subst w3 w2 w1.
  by rewrite sync_recent_messages_online, save_conversations_online, GetDialogs_db.
Qed.

Lemma incremental_sync_first (userID pts qts date seq : Z) (w : World S) :
  ∃ rest,
    events (incremental_sync api userID pts qts date seq w)
    = Log (DoingIncrementalSync userID pts qts date seq) :: rest.
Proof. unfold incremental_sync. rewrite bind_emit. by eexists. Qed.

(** The branch a pass takes, by the stored cursor. *)
Lemma pass_branches (w : World S) (userID : Z) :
  database.online (db w) = true →
  let c := stored_cursor (db w) userID in
  let o := autoSyncUser api userID w in
  (tg.Pts c = 0 ∧ tg.Qts c = 0 ∧ tg.Date c = 0 →
   world o = world (full_sync api userID w)
   ∧ events o
     = Log (StartingAutoSync userID) :: Log (NoStoredState userID)
       :: events (full_sync api userID w)
          ++ (if value (full_sync api userID w) then [Log (AutoSyncCompleted userID)] else []))
  ∧ (¬ (tg.Pts c = 0 ∧ tg.Qts c = 0 ∧ tg.Date c = 0) →
     world o = world (incremental_sync api userID (tg.Pts c) (tg.Qts c) (tg.Date c) (tg.Seq c) w)
     ∧ events o
       = Log (StartingAutoSync userID)
         :: events (incremental_sync api userID (tg.Pts c) (tg.Qts c) (tg.Date c) (tg.Seq c) w)
            ++ [Go (ChannelSync userID); Log (AutoSyncCompleted userID)]).
Proof.
  intros Honline c o.
  pose proof (autoSyncUser_events userID w Honline) as Hrun. cbv zeta in Hrun.
  fold c in Hrun. fold o in Hrun.
  pose proof (no_state_true (tg.Pts c) (tg.Qts c) (tg.Date c)) as Hzero.
  destruct (no_state (tg.Pts c) (tg.Qts c) (tg.Date c)); destruct Hrun as [Hevents Hworld].
  - split; [done|]. intros Hnc. destruct Hnc. by apply Hzero.
  - split; [|done]. intros Hc. apply Hzero in Hc. discriminate Hc.
Qed.

Lemma bootstrap_mode (w : World S) (userID : Z) :
  database.online (db w) = true →
  let c := stored_cursor (db w) userID in
  tg.Pts c = 0 ∧ tg.Qts c = 0 ∧ tg.Date c = 0 →
  mode_of (events (autoSyncUser api userID w)) = Some Bootstrap.
Proof.
  intros Honline c Hc.
  destruct (pass_branches w userID Honline) as [Hfull _].
  destruct (Hfull Hc) as [_ ->]. reflexivity.
Qed.

Lemma incremental_mode (w : World S) (userID : Z) :
  database.online (db w) = true →
  let c := stored_cursor (db w) userID in
  ¬ (tg.Pts c = 0 ∧ tg.Qts c = 0 ∧ tg.Date c = 0) →
  mode_of (events (autoSyncUser api userID w)) = Some Incremental.
Proof.
  intros Honline c Hc.
  destruct (pass_branches w userID Honline) as [_ Hinc].
  destruct (Hinc Hc) as [_ ->]. fold c.
  destruct (incremental_sync_first userID (tg.Pts c) (tg.Qts c) (tg.Date c) (tg.Seq c) w)
    as [rest ->].
  reflexivity.
Qed.

Lemma full_sync_returns_early (userID : Z) (w : World S) :
  value (full_sync api userID w) = false → is_err (value (GetDialogs api w)) = true.
Proof.
  intros Hearly. destruct (value (GetDialogs api w)) as [dialogs|err] eqn:Hlisting; [|done].
  destruct (full_sync_steps userID w dialogs Hlisting) as (Hdone & _).
  rewrite Hdone in Hearly. discriminate Hearly.
Qed.

(** A pass ends with its completion line, unless it is a bootstrap whose
    listing fails. *)
Lemma pass_completes (w : World S) (userID : Z) :
  database.online (db w) = true →
  let o := autoSyncUser api userID w in
  last (events o) = Some (Log (AutoSyncCompleted userID))
  ∨ (mode_of (events o) = Some Bootstrap ∧ is_err (value (GetDialogs api w)) = true).
Proof.
  intros Honline o.
  destruct (pass_branches w userID Honline) as [Hfull Hinc].
  pose proof (bootstrap_mode w userID Honline) as Hboot.
  cbv zeta in Hfull, Hinc, Hboot. fold o in Hfull, Hinc, Hboot.
  set (c := stored_cursor (db w) userID) in *.
  destruct (decide (tg.Pts c = 0 ∧ tg.Qts c = 0 ∧ tg.Date c = 0)) as [Hc|Hc].
  - destruct (Hfull Hc) as [_ Hevents].
    destruct (value (full_sync api userID w)) eqn:Hvalue.
    + left. rewrite Hevents, !app_comm_cons. apply last_snoc.
    + right. split; [by apply Hboot|by apply full_sync_returns_early in Hvalue].
  - destruct (Hinc Hc) as [_ Hevents]. left.
    rewrite Hevents, !app_comm_cons.
    change [Go (ChannelSync userID); Log (AutoSyncCompleted userID)]
      with ([Go (ChannelSync userID)] ++ [Log (AutoSyncCompleted userID)]).
    rewrite app_assoc. apply last_snoc.
Qed.

End Engine.

End engine_facts.

(** ** The channel watermark resync *)

Module resync_properties.
Import runtime control telegram engine spec runtime_facts engine_facts watermark_facts.

Section Resync.
Context {S : Type} (api : Api S).

(** C3 (as amended). For a channel or a group that carries an access hash,
    the resync reads as watermark the remote message id of the first row of
    the query [ORDER BY timestamp DESC LIMIT 1] over the stored messages of
    (user, conversation), 0 if none is stored: the row whose stored timestamp
    text is the largest, compared byte by byte, and among rows of that text
    the one of smallest remote message id.  It fetches once, with limit 50;
    and it hands to the upsert exactly the fetched messages for which the
    watermark is 0 or the remote message id exceeds the watermark, in the
    order fetched. *)
Theorem watermark_resync (w : World S) (userID : Z) (conv : models.Conversation) :
  is_channel_like conv = true →
  database.online (db w) = true →
  let conversationID := models.Conversation_ID conv in
  let offsetID := watermark (db w) userID conversationID in
  let fetched :=
    GetMessagesWithConvInfo api conversationID 50 (models.Conversation_Type conv)
      (models.Conversation_AccessHash conv) w in
  let o := sync_conversation api userID conv w in
  ((stored_messages (db w) userID conversationID = [] → offsetID = 0)
   ∧ (stored_messages (db w) userID conversationID ≠ [] →
      ∃ latest, latest ∈ stored_messages (db w) userID conversationID
        ∧ offsetID = models.MessageID latest
        ∧ ∀ row, row ∈ stored_messages (db w) userID conversationID →
            String.leb (timestamp_text (db w) row) (timestamp_text (db w) latest) = true
            ∧ (String.leb (timestamp_text (db w) latest) (timestamp_text (db w) row) = true →
               models.MessageID latest ≤ models.MessageID row)))
  ∧ (∃ rest, events o = Log (SyncingChannel conversationID userID) :: events fetched ++ rest)
  ∧ match value fetched with
    | Ok channelMessages =>
        saved_messages (events o)
        = filter (λ msg, offsetID = 0 ∨ offsetID < models.MessageID msg)
            ((λ msg, models.Message_with_UserID msg userID) <$> channelMessages)
    | Err _ => saved_messages (events o) = []
    end.
Proof.
  intros Hlike Honline conversationID offsetID fetched o.
  split; [by apply watermark_latest|].
  assert (Hevents : events o
    = Log (SyncingChannel conversationID userID)
      :: events fetched
         ++ events (match value fetched with
                    | Ok channelMessages => save_newer userID offsetID channelMessages
                    | Err _ => emit (Log (FailedToSyncChannel conversationID))
                    end (world fetched))).
  { subst o. unfold sync_conversation. rewrite Hlike.
    rewrite bind_emit. cbn [events]. rewrite bind_query. reflexivity. }
  rewrite Hevents. clear Hevents.
  destruct (fetch_writes_nothing api w conversationID 50 (models.Conversation_Type conv)
              (models.Conversation_AccessHash conv)) as (_ & _ & Hnone & _).
  fold fetched in Hnone.
  split; [by eexists|].
  change (saved_messages (?e :: ?es)) with (saved_messages es).
  rewrite saved_messages_app, Hnone.
  destruct (value fetched) as [channelMessages|err]; [|done].
  by rewrite save_newer_saved.
Qed.

End Resync.

(** With message 100 stored as the latest row and the messages 102 to 98
    fetched, the watermark is 100 and exactly 102 and 101 are upserted.
    When the rows of 101, 100 and 99 carry one timestamp, the watermark is
    99 and 102, 101 and 100 are upserted.  When the later message 202 has
    the smaller local-time text, the watermark is 201. *)
Lemma watermark_resync_witness :
  let api := fixtures.scripted fixtures.channel_feed in
  let w := fixtures.connected fixtures.stored_db in
  let o := sync_conversation api 1 fixtures.channel_conversation w in
  let tied := fixtures.connected fixtures.tied_db in
  let o_tied := sync_conversation api 1 fixtures.channel_conversation tied in
  (watermark (db w) 1 500 = 100
   ∧ models.MessageID <$> saved_messages (events o) = [102; 101])
  ∧ (watermark (db tied) 1 500 = 99
     ∧ models.MessageID <$> saved_messages (events o_tied) = [102; 101; 100])
  ∧ (timestamp_text fixtures.fall_back_db (fixtures.stored_row 1 201 1730611800)
     = "2024-11-03 01:30:00-04:00"
     ∧ timestamp_text fixtures.fall_back_db (fixtures.stored_row 2 202 1730614200)
       = "2024-11-03 01:10:00-05:00"
     ∧ watermark fixtures.fall_back_db 1 500 = 201).
Proof.
  intros api w o tied o_tied.
  destruct (watermark_resync api w 1 fixtures.channel_conversation eq_refl eq_refl)
    as (_ & _ & Hsaved).
  destruct (watermark_resync api tied 1 fixtures.channel_conversation eq_refl eq_refl)
    as (_ & _ & Htied).
  vm_compute in Hsaved. vm_compute in Htied.
  split_and!;
    [reflexivity|exact (f_equal (fmap models.MessageID) Hsaved)
    |reflexivity|exact (f_equal (fmap models.MessageID) Htied)
    |reflexivity..].
Defined.

(** C3 as stated fails: when the stored row with the latest timestamp is not
    the row with the largest remote message id, the watermark is not that
    largest id, and messages at or below it are upserted. *)
Lemma watermark_counterexample :
  let api := fixtures.scripted fixtures.channel_feed in
  let w := fixtures.connected fixtures.skewed_db in
  let o := sync_conversation api 1 fixtures.channel_conversation w in
  max_message_id (db w) 1 500 = 100
  ∧ watermark (db w) 1 500 = 5
  ∧ models.MessageID <$> saved_messages (events o) = [102; 101; 100; 99; 98].
Proof. intros api w o. split_and!; reflexivity. Qed.

End resync_properties.

(** ** The cursor state machine *)

Module cursor_properties.
Import runtime control telegram engine spec runtime_facts engine_facts.

Section Cursor.
Context {S : Type} (api : Api S).

(** C7 (as amended). When the stored cursor is read, a pass is a bootstrap
    if and only if its pts, qts and date are all zero, whatever its seq;
    it is incremental otherwise.  The bootstrap is the full sync (listing,
    recent history of every conversation, then the state the platform
    reports persisted as the cursor); the incremental pass is the diff
    branch started from the stored cursor. *)
Theorem mode_selection (w : World S) (userID : Z) :
  database.online (db w) = true →
  let c := stored_cursor (db w) userID in
  let o := autoSyncUser api userID w in
  (mode_of (events o) = Some Bootstrap ↔ tg.Pts c = 0 ∧ tg.Qts c = 0 ∧ tg.Date c = 0)
  ∧ (mode_of (events o) = Some Incremental ↔ ¬ (tg.Pts c = 0 ∧ tg.Qts c = 0 ∧ tg.Date c = 0))
  ∧ (tg.Pts c = 0 ∧ tg.Qts c = 0 ∧ tg.Date c = 0 →
     world o = world (full_sync api userID w)
     ∧ (∃ rest,
          events o
          = Log (StartingAutoSync userID) :: Log (NoStoredState userID)
            :: events (full_sync api userID w) ++ rest)
     ∧ ∀ dialogs state,
         value (GetDialogs api w) = Ok dialogs →
         value (GetState api
                  (world (sync_recent_messages api userID dialogs
                            (world (save_conversations userID dialogs
                                      (world (GetDialogs api w)))))))
         = Ok state →
         stored_cursor (db (world o)) userID = state)
  ∧ (¬ (tg.Pts c = 0 ∧ tg.Qts c = 0 ∧ tg.Date c = 0) →
     world o = world (incremental_sync api userID (tg.Pts c) (tg.Qts c) (tg.Date c) (tg.Seq c) w)
     ∧ events o
       = Log (StartingAutoSync userID)
         :: events (incremental_sync api userID (tg.Pts c) (tg.Qts c) (tg.Date c) (tg.Seq c) w)
            ++ [Go (ChannelSync userID); Log (AutoSyncCompleted userID)]).
Proof.
  intros Honline c o.
  destruct (pass_branches api w userID Honline) as [Hfull Hinc]. fold c o in Hfull, Hinc.
  pose proof (bootstrap_mode api w userID Honline) as Hboot. fold c o in Hboot.
  pose proof (incremental_mode api w userID Honline) as Hincr. fold c o in Hincr.
  destruct (decide (tg.Pts c = 0 ∧ tg.Qts c = 0 ∧ tg.Date c = 0)) as [Hc|Hc].
  - specialize (Hboot Hc). destruct (Hfull Hc) as [Hworld Hevents]. split_and!.
    + by rewrite Hboot.
    + rewrite Hboot. split; [intros Hmode; discriminate Hmode|intros Hnc; by destruct Hnc].
    + intros _. split_and!; [done|by eexists|].
      intros dialogs state Hlisting Hstate. rewrite Hworld.
      by eapply bootstrap_persists_snapshot.
    + intros Hnc. by destruct Hnc.
  - specialize (Hincr Hc). split_and!.
    + rewrite Hincr. split; [intros Hmode; discriminate Hmode|intros Hz; by destruct Hc].
    + by rewrite Hincr.
    + intros Hz. by destruct Hc.
    + intros _. by apply Hinc.
Qed.

(** C2. In an incremental pass, a cursor is persisted only when it is the
    candidate cursor of the diff and its pts or date is nonzero; a diff that
    carries the all-zero cursor persists nothing and leaves the stored cursors
    as they were. *)
Theorem empty_state_guard (w : World S) (userID : Z) :
  database.online (db w) = true →
  let c := stored_cursor (db w) userID in
  ¬ (tg.Pts c = 0 ∧ tg.Qts c = 0 ∧ tg.Date c = 0) →
  let diff := GetUpdates api (tg.Pts c) (tg.Date c) (tg.Qts c) w in
  let o := autoSyncUser api userID w in
  match value diff with
  | Ok updates =>
      let candidate := tg.State updates in
      (∀ entry, entry ∈ saved_cursors (events o) →
         entry = (userID, candidate) ∧ (tg.Pts candidate ≠ 0 ∨ tg.Date candidate ≠ 0))
      ∧ (candidate = tg.mkUpdatesState 0 0 0 0 →
         saved_cursors (events o) = []
         ∧ database.updates_state (db (world o)) = database.updates_state (db w))
  | Err _ =>
      saved_cursors (events o) = []
      ∧ database.updates_state (db (world o)) = database.updates_state (db w)
  end.
Proof.
  intros Honline c Hc diff o.
  destruct (pass_branches api w userID Honline) as [_ Hinc].
  destruct (Hinc Hc) as [Hworld Hevents]. fold c o in Hworld, Hevents.
  pose proof (incremental_sync_cursor api userID (tg.Pts c) (tg.Qts c) (tg.Date c) (tg.Seq c) w)
    as Hcursor. cbv zeta in Hcursor. fold diff in Hcursor.
  rewrite <- Hworld in Hcursor.
  assert (Hsaved : saved_cursors (events o)
    = saved_cursors (events (incremental_sync api userID (tg.Pts c) (tg.Qts c)
                               (tg.Date c) (tg.Seq c) w))).
  { rewrite Hevents. change (saved_cursors (?e :: ?es)) with (saved_cursors es).
    by rewrite saved_cursors_app, app_nil_r. }
  rewrite <- Hsaved in Hcursor. clear Hsaved Hevents Hworld Hinc.
  destruct (value diff) as [updates|err]; [|done].
  cbv zeta.
  destruct (Z.ltb_spec 0 (tg.Pts (tg.State updates))) as [Hpts|Hpts];
    destruct (Z.ltb_spec 0 (tg.Date (tg.State updates))) as [Hdate|Hdate];
    cbn [orb] in Hcursor; destruct Hcursor as [Hsaved Hstate]; rewrite Hsaved.
  - split.
    + intros entry Hin. apply list_elem_of_singleton in Hin as ->. split; [done|lia].
    + intros Hzero. rewrite Hzero in Hpts. simpl in Hpts. lia.
  - split.
    + intros entry Hin. apply list_elem_of_singleton in Hin as ->. split; [done|lia].
    + intros Hzero. rewrite Hzero in Hpts. simpl in Hpts. lia.
  - split.
    + intros entry Hin. apply list_elem_of_singleton in Hin as ->. split; [done|lia].
    + intros Hzero. rewrite Hzero in Hdate. simpl in Hdate. lia.
  - split; [|done]. intros entry Hin. by apply elem_of_nil in Hin.
Qed.

(** C10. For a user with no stored cursor row, reading the cursor returns
    the all-zero cursor and no error, the same answer as for a user whose
    stored row is all-zero; a pass for either user is a bootstrap. *)
Theorem never_synced_reads_zero (w : World S) (userID : Z) :
  database.online (db w) = true →
  database.updates_state (db w) !! userID = None →
  database.GetUpdatesState (db w) userID = (0, 0, 0, 0, None)
  ∧ mode_of (events (autoSyncUser api userID w)) = Some Bootstrap
  ∧ ∀ w' : World S,
      database.online (db w') = true →
      database.updates_state (db w') !! userID = Some (tg.mkUpdatesState 0 0 0 0) →
      database.GetUpdatesState (db w') userID = database.GetUpdatesState (db w) userID
      ∧ mode_of (events (autoSyncUser api userID w')) = Some Bootstrap.
Proof.
  intros Honline Hnone.
  assert (Hread : database.GetUpdatesState (db w) userID = (0, 0, 0, 0, None)).
  { unfold database.GetUpdatesState. by rewrite Honline, Hnone. }
  split_and!; [done| |].
  - apply (bootstrap_mode api w userID Honline).
    unfold stored_cursor. by rewrite Hnone.
  - intros w' Honline' Hzero. split.
    + rewrite Hread. unfold database.GetUpdatesState. by rewrite Honline', Hzero.
    + apply (bootstrap_mode api w' userID Honline').
      unfold stored_cursor. by rewrite Hzero.
Qed.

(** An empty difference is handed on with pts, qts and seq set to zero, and
    its date makes the guard of the incremental branch pass: the stored
    cursor is overwritten with pts 0. *)
Lemma empty_difference_resets_pts (w : World S) (userID date seq : Z) (s' : S) :
  database.online (db w) = true →
  isConnected (client w) = true →
  let c := stored_cursor (db w) userID in
  ¬ (tg.Pts c = 0 ∧ tg.Qts c = 0 ∧ tg.Date c = 0) →
  UpdatesGetDifference api (tg.Pts c) (tg.Date c) (tg.Qts c) (remote w)
  = (Ok (tg.UpdatesDifferenceEmpty date seq), s') →
  0 < date →
  stored_cursor (db (world (autoSyncUser api userID w))) userID = tg.mkUpdatesState 0 0 date 0.
Proof.
  intros Honline Hconn c Hc Hdiff Hdate.
  destruct (pass_branches api w userID Honline) as [_ Hinc].
  destruct (Hinc Hc) as [Hworld _]. fold c in Hworld. rewrite Hworld.
  pose proof (incremental_sync_cursor api userID (tg.Pts c) (tg.Qts c) (tg.Date c) (tg.Seq c) w)
    as Hcursor. cbv zeta in Hcursor.
  assert (Hvalue : value (GetUpdates api (tg.Pts c) (tg.Date c) (tg.Qts c) w)
    = Ok (tg.mkUpdatesDifference [] [] (tg.mkUpdatesState 0 0 date 0))).
  { unfold GetUpdates. rewrite bind_get_client, Hconn. cbn [negb].
    unfold bind, emit, outside, ret. simpl. by rewrite Hdiff. }
  rewrite Hvalue in Hcursor. cbn [tg.State tg.Pts tg.Date] in Hcursor.
  assert (Hguard : (0 <? 0) || (0 <? date) = true).
  { apply orb_true_iff. right. by apply Z.ltb_lt. }
  rewrite Hguard in Hcursor. destruct Hcursor as [_ Hstate].
  unfold stored_cursor at 1. by rewrite (Hstate Honline), lookup_insert_eq.
Qed.

End Cursor.

End cursor_properties.

Module cursor_examples.
Import runtime telegram engine spec cursor_properties.

(** With the cursor {pts 100, qts 7, date 1000, seq 3} stored, the pass is
    incremental. *)
Lemma mode_selection_witness :
  let api := fixtures.scripted fixtures.channel_feed in
  let w := fixtures.connected fixtures.stored_db in
  mode_of (events (autoSyncUser api 1 w)) = Some Incremental.
Proof.
  intros api w.
  destruct (mode_selection api w 1 eq_refl) as (_ & Hincremental & _).
  apply Hincremental. intros [Hpts _]. discriminate Hpts.
Defined.

(** C7 as stated fails: the stored cursor {pts 0, qts 0, date 0, seq 7} is
    not the all-zero cursor, and the pass is a bootstrap. *)
Lemma seq_only_counterexample :
  let api := fixtures.scripted fixtures.channel_feed in
  let w := fixtures.connected fixtures.seq_only_db in
  stored_cursor (db w) 1 = tg.mkUpdatesState 0 0 0 7
  ∧ tg.mkUpdatesState 0 0 0 7 ≠ tg.mkUpdatesState 0 0 0 0
  ∧ mode_of (events (autoSyncUser api 1 w)) = Some Bootstrap.
Proof. intros api w. split_and!; [reflexivity|discriminate|reflexivity]. Qed.

(** A diff that carries the all-zero cursor leaves the stored cursor
    {pts 100, qts 7, date 1000, seq 3} as it is. *)
Lemma empty_state_guard_witness :
  let api := fixtures.scripted fixtures.zero_diff in
  let w := fixtures.connected fixtures.stored_db in
  let o := autoSyncUser api 1 w in
  saved_cursors (events o) = []
  ∧ database.updates_state (db (world o)) = database.updates_state (db w).
Proof.
  intros api w o.
  refine (proj2 (empty_state_guard api w 1 eq_refl _) eq_refl).
  intros [Hpts _]. discriminate Hpts.
Defined.

(** A user without a row and a user with an all-zero row read the same
    cursor, and both passes are bootstraps. *)
Lemma never_synced_witness :
  let api := fixtures.scripted fixtures.channel_feed in
  let w := fixtures.connected fixtures.empty_db in
  let w' := fixtures.connected fixtures.zero_row_db in
  database.GetUpdatesState (db w) 1 = (0, 0, 0, 0, None)
  ∧ mode_of (events (autoSyncUser api 1 w)) = Some Bootstrap
  ∧ database.GetUpdatesState (db w') 1 = database.GetUpdatesState (db w) 1
  ∧ mode_of (events (autoSyncUser api 1 w')) = Some Bootstrap.
Proof.
  intros api w w'.
  destruct (never_synced_reads_zero api w 1 eq_refl eq_refl) as (Hread & Hmode & Hsame).
  split_and!; [exact Hread|exact Hmode|..]; by apply (Hsame w').
Defined.

(** C1 on the code: with the cursor {pts 100, qts 7, date 1000, seq 3}
    stored and an empty difference of date 1001 as the answer, the
    incremental pass persists {pts 0, qts 0, date 1001, seq 0}: the stored
    pts falls from 100 to 0. *)
Lemma cursor_regression :
  let api := fixtures.scripted fixtures.channel_feed in
  let w := fixtures.connected fixtures.stored_db in
  let o := autoSyncUser api 1 w in
  stored_cursor (db w) 1 = tg.mkUpdatesState 100 7 1000 3
  ∧ mode_of (events o) = Some Incremental
  ∧ saved_cursors (events o) = [(1, tg.mkUpdatesState 0 0 1001 0)]
  ∧ stored_cursor (db (world o)) 1 = tg.mkUpdatesState 0 0 1001 0
  ∧ tg.Pts (stored_cursor (db (world o)) 1) < tg.Pts (stored_cursor (db w) 1).
Proof. intros api w o. split_and!; reflexivity. Qed.

End cursor_examples.

(** ** The scheduler *)

Module scheduler_facts.
Import runtime control telegram engine spec runtime_facts.

Section Scheduler.
Context {S : Type} (api : Api S).

Lemma for_range_app_events {A} (xs ys : list A) (body : A → M S unit) (w : World S) :
  events (for_range (xs ++ ys) body w)
  = events (for_range xs body w) ++ events (for_range ys body (world (for_range xs body w))).
Proof. by rewrite for_range_app. Qed.

Lemma for_range_app_world {A} (xs ys : list A) (body : A → M S unit) (w : World S) :
  world (for_range (xs ++ ys) body w)
  = world (for_range ys body (world (for_range xs body w))).
Proof. by rewrite for_range_app. Qed.

(** Connecting and probing leave storage alone and start no pass. *)
Lemma Connect_effects (appID' : Z) (appHash' : string) (w : World S) :
  let o := Connect api appID' appHash' w in
  db (world o) = db w ∧ Forall (λ e, ∀ userID, e ≠ sync_started userID) (events o).
Proof.
  intros o. subst o. unfold Connect. rewrite bind_get_client.
  destruct (isConnected (client w) && bool_decide (appID (client w) = appID')
            && bool_decide (appHash (client w) = appHash')).
  { split; [done|constructor]. }
  unfold bind, emit, outside, set_client, get_client, ret. simpl.
  destruct (MkdirAll api (remote w)) as [[err|] s1]; simpl.
  { split; [done|constructor]. }
  split; [done|]. by repeat constructor.
Qed.

Lemma IsAuthenticated_effects (w : World S) :
  let o := IsAuthenticated api w in
  db (world o) = db w ∧ Forall (λ e, ∀ userID, e ≠ sync_started userID) (events o).
Proof.
  intros o. subst o. unfold IsAuthenticated. rewrite bind_get_client.
  destruct (isConnected (client w)); simpl.
  - split; [done|]. by repeat constructor.
  - split; [done|constructor].
Qed.

(** A user whose probe fails is flagged inactive and nothing more. *)
Lemma sync_user_not_live (user : models.User) (w : World S) :
  verdict api user w = NotLive →
  ∃ session,
    database.GetActiveAuthSessionByUserID (db w) (models.User_ID user) = Ok session
    ∧ let connected :=
        Connect api (models.AuthSession_AppID session) (models.AuthSession_AppHash session) w in
      let probed := IsAuthenticated api (world connected) in
      events (sync_user api user w)
      = events connected ++ events probed
        ++ [Log (MarkingInactive (models.User_ID user));
            ExecSaveUser (models.User_with_IsActive user false)]
      ∧ world (sync_user api user w)
        = world (SaveUser api (models.User_with_IsActive user false) (world probed)).
Proof.
  unfold verdict, sync_user. intros Hverdict.
  destruct (models.User_IsActive user); [|discriminate Hverdict]. cbn [negb] in *.
  rewrite bind_query.
  destruct (database.GetActiveAuthSessionByUserID (db w) (models.User_ID user))
    as [session|err]; [|discriminate Hverdict].
  exists session. split; [done|]. cbv zeta.
  set (connected := Connect api (models.AuthSession_AppID session)
                      (models.AuthSession_AppHash session) w) in *.
  set (probed := IsAuthenticated api (world connected)) in *.
  rewrite events_bind, world_bind. cbn beta. fold connected.
  destruct (value connected); [discriminate Hverdict|].
  rewrite events_bind, world_bind. cbn beta. fold probed.
  destruct (value probed); [discriminate Hverdict|]. cbn [negb].
  split; reflexivity.
Qed.

(** A user whose probe succeeds gets a pass, in the world the checks leave. *)
Lemma sync_user_live (user : models.User) (w : World S) :
  verdict api user w = Live →
  ∃ checks,
    Forall (λ e, ∀ userID, e ≠ sync_started userID) checks
    ∧ events (sync_user api user w)
      = checks ++ Log (StartingPeriodicSync (models.User_ID user))
        :: events (autoSyncUser api (models.User_ID user) (world_after_checks api user w))
    ∧ world (sync_user api user w)
      = world (autoSyncUser api (models.User_ID user) (world_after_checks api user w)).
Proof.
  unfold verdict, sync_user, world_after_checks. intros Hverdict.
  destruct (models.User_IsActive user); [|discriminate Hverdict]. cbn [negb] in *.
  rewrite bind_query.
  destruct (database.GetActiveAuthSessionByUserID (db w) (models.User_ID user))
    as [session|err]; [|discriminate Hverdict].
  set (connected := Connect api (models.AuthSession_AppID session)
                      (models.AuthSession_AppHash session) w) in *.
  set (probed := IsAuthenticated api (world connected)) in *.
  exists (events connected ++ events probed).
  split.
  { apply Forall_app. split; [apply Connect_effects|apply IsAuthenticated_effects]. }
  rewrite events_bind, world_bind. cbn beta. fold connected.
  destruct (value connected); [discriminate Hverdict|].
  rewrite events_bind, world_bind. cbn beta. fold probed.
  destruct (value probed); [|discriminate Hverdict]. cbn [negb].
  rewrite bind_emit. cbn [events world].
  split; [|reflexivity]. by rewrite <- app_assoc.
Qed.

(** A live user was found in reachable storage, and the checks leave
    storage alone. *)
Lemma checks_keep_online (user : models.User) (w : World S) :
  verdict api user w = Live →
  database.online (db (world_after_checks api user w)) = true.
Proof.
  unfold verdict, world_after_checks. intros Hverdict.
  destruct (negb (models.User_IsActive user)); [discriminate Hverdict|].
  destruct (database.GetActiveAuthSessionByUserID (db w) (models.User_ID user))
    as [session|err] eqn:Hsession; [|discriminate Hverdict].
  destruct (IsAuthenticated_effects
              (world (Connect api (models.AuthSession_AppID session)
                        (models.AuthSession_AppHash session) w))) as [-> _].
  destruct (Connect_effects (models.AuthSession_AppID session)
              (models.AuthSession_AppHash session) w) as [-> _].
  unfold database.GetActiveAuthSessionByUserID in Hsession.
  by destruct (database.online (db w)).
Qed.

Lemma SaveUser_db (user : models.User) (w : World S) :
  db (world (SaveUser api user w)) = (database.SaveUser (db w) user (Now api (remote w))).2.
Proof. reflexivity. Qed.

End Scheduler.

End scheduler_facts.

Module scheduler_properties.
Import runtime control telegram engine spec runtime_facts scheduler_facts.

Section Scheduler.
Context {S : Type} (api : Api S).

Lemma session_found_online (d : database.DB) (userID : Z) (session : models.AuthSession) :
  database.GetActiveAuthSessionByUserID d userID = Ok session → database.online d = true.
Proof. unfold database.GetActiveAuthSessionByUserID. by destruct (database.online d). Qed.

(** C9. In a tick over the users [before ++ a :: between ++ b :: after],
    when the liveness probe of [a] fails at its turn, [a] is flagged inactive
    in storage and gets no pass; the tick goes on with the users after [a],
    each from the world its predecessor left; and a user [b] after [a] whose
    probe succeeds at its turn gets its whole pass, after which the tick goes
    on.  That pass ends with its completion line, unless it is a bootstrap
    whose own conversation listing fails. *)
Theorem scheduler_isolation (w : World S) (before : list models.User) (a : models.User)
    (between : list models.User) (b : models.User) (after : list models.User) :
  let wa := world (for_range before (sync_user api) w) in
  let wa' := world (sync_user api a wa) in
  let wb := world (for_range between (sync_user api) wa') in
  let pass := autoSyncUser api (models.User_ID b) (world_after_checks api b wb) in
  database.GetUsers (db w) = Ok (before ++ a :: between ++ b :: after) →
  verdict api a wa = NotLive →
  verdict api b wb = Live →
  let o := tick api w in
  (∃ row, row ∈ database.users (db wa')
          ∧ models.User_ID row = models.User_ID a ∧ models.User_IsActive row = false)
  ∧ (∀ row, row ∈ database.users (db wa') →
       models.User_ID row = models.User_ID a → models.User_IsActive row = false)
  ∧ (∀ userID, sync_started userID ∉ events (sync_user api a wa))
  ∧ events o
    = events (for_range before (sync_user api) w)
      ++ events (sync_user api a wa)
      ++ events (for_range between (sync_user api) wa')
      ++ events (sync_user api b wb)
      ++ events (for_range after (sync_user api) (world (sync_user api b wb)))
  ∧ (∃ checks,
       Forall (λ e, ∀ userID, e ≠ sync_started userID) checks
       ∧ events (sync_user api b wb)
         = checks ++ Log (StartingPeriodicSync (models.User_ID b)) :: events pass)
  ∧ world (sync_user api b wb) = world pass
  ∧ (last (events pass) = Some (Log (AutoSyncCompleted (models.User_ID b)))
     ∨ (mode_of (events pass) = Some Bootstrap
        ∧ is_err (value (GetDialogs api (world_after_checks api b wb))) = true)).
Proof.
  intros wa wa' wb pass Husers Ha Hb o.
  destruct (sync_user_not_live api a wa Ha) as (session & Hsession & Hevents & Hworld).
  cbv zeta in Hevents, Hworld.
  set (connected := Connect api (models.AuthSession_AppID session)
                      (models.AuthSession_AppHash session) wa) in *.
  set (probed := IsAuthenticated api (world connected)) in *.
  destruct (Connect_effects api (models.AuthSession_AppID session)
              (models.AuthSession_AppHash session) wa) as [Hdb1 Hquiet1].
  destruct (IsAuthenticated_effects api (world connected)) as [Hdb2 Hquiet2].
  fold connected in Hdb1, Hquiet1. fold probed in Hdb2, Hquiet2.
  assert (Hflag : database.users (db wa')
    = filter (λ row, models.User_ID row ≠ models.User_ID a) (database.users (db wa))
      ++ [models.User_with_UpdatedAt (models.User_with_IsActive a false)
            (Now api (remote (world probed)))]).
  { subst wa'. rewrite Hworld, SaveUser_db, Hdb2, Hdb1.
    unfold database.SaveUser. by rewrite (session_found_online _ _ _ Hsession). }
  split_and!.
  - exists (models.User_with_UpdatedAt (models.User_with_IsActive a false)
              (Now api (remote (world probed)))).
    split; [|done]. rewrite Hflag. apply elem_of_app. right. by left.
  - intros row Hrow Hid. rewrite Hflag in Hrow.
    apply elem_of_app in Hrow as [Hrow|Hrow].
    + apply list_elem_of_filter in Hrow as [Hne _]. by destruct Hne.
    + by apply list_elem_of_singleton in Hrow as ->.
  - intros userID Hin. rewrite Hevents in Hin.
    rewrite !elem_of_app in Hin. destruct Hin as [Hin|[Hin|Hin]].
    + eapply Forall_forall in Hquiet1; [|exact Hin]. by eapply Hquiet1.
    + eapply Forall_forall in Hquiet2; [|exact Hin]. by eapply Hquiet2.
    + apply elem_of_cons in Hin as [Hin|Hin]; [discriminate Hin|].
      apply list_elem_of_singleton in Hin. discriminate Hin.
  - subst o. unfold tick. rewrite bind_query, Husers.
    rewrite for_range_app_events. f_equal.
    rewrite for_range_cons_events. fold wa. f_equal.
    fold wa'. rewrite for_range_app_events. fold wb. by f_equal.
  - destruct (sync_user_live api b wb Hb) as (checks & Hquiet & Hpass & _).
    by exists checks.
  - by destruct (sync_user_live api b wb Hb) as (checks & _ & _ & Hpass).
  - apply engine_facts.pass_completes. by eapply checks_keep_online.
Qed.

End Scheduler.

(** The first user of the tick is no longer authorized, the second is: the
    first is flagged inactive and gets no pass, and the pass of the second
    runs from its first log line to its last. *)
Lemma scheduler_isolation_witness :
  let api := fixtures.scripted fixtures.only_b_live in
  let w := fixtures.idle fixtures.two_users_db in
  let o := tick api w in
  (∀ row, row ∈ database.users (db (world (sync_user api fixtures.user_a w))) →
     models.User_ID row = 1 → models.User_IsActive row = false)
  ∧ (∀ userID, sync_started userID ∉ events (sync_user api fixtures.user_a w))
  ∧ models.User_ID <$> database.users (db (world o)) = [2; 1]
  ∧ models.User_IsActive <$> database.users (db (world o)) = [true; false]
  ∧ sync_started 2 ∈ events o
  ∧ last (events o) = Some (Log (AutoSyncCompleted 2)).
Proof.
  intros api w o.
  destruct (scheduler_isolation api w [] fixtures.user_a [] fixtures.user_b []
              eq_refl eq_refl eq_refl) as (_ & Hflagged & Hskipped & _).
  split_and!; [exact Hflagged|exact Hskipped|reflexivity|reflexivity| |reflexivity].
  vm_compute. repeat constructor.
Defined.

End scheduler_properties.

(** * Further properties *)

(** ** Decimal round trip *)

Module strconv_facts.
Import strconv invariants.

Lemma digit_value_char (d : N) :
  (d < 10)%N → digit_value (pretty_N_char d) = Some (Z.of_N d).
Proof.
  intros Hd. destruct d as [|p]; [reflexivity|].
  do 4 (try destruct p as [p|p|]; try reflexivity; try lia).
Qed.

Lemma pretty_N_char_not_sign (d : N) :
  pretty_N_char d ≠ "-"%char ∧ pretty_N_char d ≠ "+"%char.
Proof. unfold pretty_N_char. by repeat case_match. Qed.

(** Reading the digits that [pretty_N_go] writes gives the number back. *)
Lemma digits_value_pretty (x : N) (s : string) :
  digits_value (pretty_N_go x s) 0 = digits_value s (Z.of_N x).
Proof.
  revert s. induction (N.lt_wf_0 x) as [x _ IH]; intros s.
  assert (x = 0 ∨ 0 < x)%N as [->|Hpos] by lia; [by rewrite pretty_N_go_0|].
  rewrite pretty_N_go_step by done.
  rewrite IH by (by apply N.div_lt).
  cbn [digits_value]. rewrite digit_value_char by (by apply N.mod_lt).
  f_equal. rewrite (N.div_mod x 10) at 3 by done. lia.
Qed.

Lemma pretty_N_go_head (x : N) (s : string) :
  (0 < x)%N →
  ∃ c rest, pretty_N_go x s = String c rest ∧ c ≠ "-"%char ∧ c ≠ "+"%char.
Proof.
  revert s. induction (N.lt_wf_0 x) as [x _ IH]; intros s Hpos.
  rewrite pretty_N_go_step by done.
  destruct (N.eq_0_gt_0_cases (x `div` 10)) as [->|Hdiv].
  - rewrite pretty_N_go_0. eexists _, _. split; [done|]. apply pretty_N_char_not_sign.
  - apply IH; [by apply N.div_lt|done].
Qed.

Lemma ParseInt_digits (c : ascii) (rest : string) (un : Z) :
  c ≠ "-"%char → c ≠ "+"%char →
  digits_value (String c rest) 0 = Some un → un < 2 ^ 63 →
  ParseInt (String c rest) = Ok un.
Proof.
  intros Hminus Hplus Hdigits Hrange. unfold ParseInt, ParseUint.
  rewrite (bool_decide_eq_false_2 (c = "-"%char)) by done.
  rewrite (bool_decide_eq_false_2 (c = "+"%char)) by done.
  cbn [orb negb andb]. rewrite Hdigits.
  destruct (Z.leb_spec (2 ^ 63) un); [lia|done].
Qed.

(** [strconv.ParseInt] reads back what [%d] writes, for every [int64]. *)
Lemma ParseInt_pretty (z : Z) : int64 z → ParseInt (pretty z) = Ok z.
Proof.
  unfold int64. intros Hz. destruct z as [|p|p].
  - reflexivity.
  - change (pretty (Z.pos p)) with (pretty (N.pos p)).
    unfold pretty, pretty_N. rewrite decide_False by done.
    destruct (pretty_N_go_head (N.pos p) "") as (c & rest & Heq & Hminus & Hplus); [lia|].
    pose proof (digits_value_pretty (N.pos p) "") as Hdigits.
    rewrite Heq in Hdigits |- *.
    apply ParseInt_digits; [done|done|exact Hdigits|lia].
  - change (pretty (Z.neg p)) with ("-" +:+ pretty (N.pos p)).
    unfold pretty, pretty_N. rewrite decide_False by done.
    destruct (pretty_N_go_head (N.pos p) "") as (c & rest & Heq & Hminus & Hplus); [lia|].
    pose proof (digits_value_pretty (N.pos p) "") as Hdigits.
    rewrite Heq in Hdigits |- *.
    change ("-" +:+ String c rest) with (String "-" (String c rest)).
    unfold ParseInt, ParseUint.
    rewrite (bool_decide_eq_true_2 ("-"%char = "-"%char)) by done.
    rewrite orb_true_r. rewrite Hdigits. cbn [digits_value negb andb].
    destruct (Z.ltb_spec (2 ^ 63) (Z.of_N (N.pos p))); [lia|done].
Qed.

Lemma pretty_Z_nonempty (z : Z) : pretty z ≠ "".
Proof.
  destruct z as [|p|p]; [done| |done].
  change (pretty (Z.pos p)) with (pretty (N.pos p)).
  unfold pretty, pretty_N. rewrite decide_False by done.
  destruct (pretty_N_go_head (N.pos p) "") as (c & rest & -> & _); [lia|done].
Qed.

End strconv_facts.

(** ** The conversation listing *)

Module listing_properties.
Import listing invariants strconv_facts.

Lemma find_user_Some (users : list UserClass) (userID : Z) (user : User) :
  find_user users userID = Some user →
  AUser user ∈ users ∧ tg.User_ID (User_data user) = userID.
Proof.
  induction users as [|[id|u] rest IH]; simpl; [done| |].
  - intros Hfind. destruct (IH Hfind). split; [by right|done].
  - case_bool_decide as Hid.
    + intros [= ->]. split; [by left|done].
    + intros Hfind. destruct (IH Hfind). split; [by right|done].
Qed.

Lemma find_channel_Some (chats : list ChatClass) (channelID : Z) (channel : Channel) :
  find_channel chats channelID = Some channel →
  AChannel channel ∈ chats ∧ Channel_ID channel = channelID.
Proof.
  induction chats as [|[id|c|id t|c|id h t] rest IH]; simpl; [done|..];
    try (intros Hfind; destruct (IH Hfind); split; [by right|done]).
  case_bool_decide as Hid.
  - intros [= ->]. split; [by left|done].
  - intros Hfind. destruct (IH Hfind). split; [by right|done].
Qed.

Lemma choose_peer_user (peerID hash : Z) (bot : bool) :
  int64 hash →
  telegram.choose_peer peerID (if bot then "bot" else "user") (pretty hash)
  = telegram.UsePeer (tg.InputPeerUser peerID hash).
Proof.
  intros Hhash. unfold telegram.choose_peer.
  rewrite ParseInt_pretty by done.
  rewrite (bool_decide_eq_true_2 (pretty hash ≠ "")) by apply pretty_Z_nonempty.
  by destruct bot.
Qed.

Lemma choose_peer_channel_like (peerID hash : Z) (broadcast : bool) :
  int64 hash →
  telegram.choose_peer peerID (if broadcast then "channel" else "group") (pretty hash)
  = telegram.UsePeer (tg.InputPeerChannel peerID hash).
Proof.
  intros Hhash. unfold telegram.choose_peer.
  rewrite ParseInt_pretty by done.
  rewrite (bool_decide_eq_true_2 (pretty hash ≠ "")) by apply pretty_Z_nonempty.
  by destruct broadcast.
Qed.

Section Listing.
Variable TrimSpace : string → string.

(** The peer that [GetMessagesWithConvInfo] builds for a parsed dialog. *)
Lemma parsed_dialog_peer (now : Z) (dialog : DialogClass) (chats : list ChatClass)
    (users : list UserClass) :
  (∀ user, AUser user ∈ users → int64 (tg.User_AccessHash (User_data user))) →
  (∀ channel, AChannel channel ∈ chats → int64 (Channel_AccessHash channel)) →
  let conv := parseDialog TrimSpace now dialog chats users in
  models.Conversation_Title conv ≠ "" →
  match dialog with
  | ADialog (Some (tg.PeerUser userID)) =>
      ∃ user,
        find_user users userID = Some user
        ∧ telegram.choose_peer (models.Conversation_ID conv) (models.Conversation_Type conv)
            (models.Conversation_AccessHash conv)
          = telegram.UsePeer
              (tg.InputPeerUser userID (tg.User_AccessHash (User_data user)))
  | ADialog (Some (tg.PeerChat chatID)) =>
      telegram.choose_peer (models.Conversation_ID conv) (models.Conversation_Type conv)
        (models.Conversation_AccessHash conv)
      = telegram.UsePeer (tg.InputPeerChat chatID)
  | ADialog (Some (tg.PeerChannel channelID)) =>
      ∃ channel,
        find_channel chats channelID = Some channel
        ∧ telegram.choose_peer (models.Conversation_ID conv) (models.Conversation_Type conv)
            (models.Conversation_AccessHash conv)
          = telegram.UsePeer (tg.InputPeerChannel channelID (Channel_AccessHash channel))
  | _ => False
  end.
Proof.
  intros Husers Hchannels conv Htitle. subst conv.
  destruct dialog as [[[userID|chatID|channelID]|]|]; simpl in *; try done.
  - destruct (find_user users userID) as [user|] eqn:Hfind; [|done].
    exists user. split; [done|].
    apply find_user_Some in Hfind as [Hin <-]. simpl.
    apply choose_peer_user. by apply Husers.
  - destruct (find_chat chats chatID) as [chat|] eqn:Hfind; [|done]. simpl.
    assert (Chat_ID chat = chatID) as ->; [|done].
    clear Htitle. induction chats as [|[id|c|id t|c|id h t] rest IH]; simpl in Hfind;
      try done; try (by apply IH; [intros ch Hch; apply Hchannels; by right|]).
    case_bool_decide; [by injection Hfind as ->|].
    apply IH; [intros ch Hch; apply Hchannels; by right|done].
  - destruct (find_channel chats channelID) as [channel|] eqn:Hfind; [|done].
    exists channel. split; [done|].
    apply find_channel_Some in Hfind as [Hin <-]. simpl.
    apply choose_peer_channel_like. by apply Hchannels.
Qed.

End Listing.

End listing_properties.

(** ** Storage: upserts, round trips and ordered queries *)

Module storage_properties.
Import database invariants spec database_facts.

Lemma same_key_with_ID (msg : models.Message) (id : Z) :
  same_key (models.Message_with_ID msg id) msg.
Proof. by unfold same_key. Qed.

Lemma filter_same_key_out (msg : models.Message) (rows : list models.Message) :
  filter (λ row, same_key row msg) (filter (λ row, ¬ same_key row msg) rows) = [].
Proof.
  induction rows as [|row rows IH]; [done|].
  rewrite filter_cons. destruct (decide (¬ same_key row msg)) as [Hne|Heq]; [|done].
  rewrite filter_cons. by destruct (decide (same_key row msg)).
Qed.

Lemma filter_other_keys_twice (msg : models.Message) (rows : list models.Message) :
  filter (λ row, ¬ same_key row msg) (filter (λ row, ¬ same_key row msg) rows)
  = filter (λ row, ¬ same_key row msg) rows.
Proof.
  induction rows as [|row rows IH]; [done|].
  rewrite filter_cons. destruct (decide (¬ same_key row msg)) as [Hne|Heq]; [|done].
  rewrite filter_cons. destruct (decide (¬ same_key row msg)); [|done]. by rewrite IH.
Qed.

Lemma SaveMessage_rows (d : DB) (msg : models.Message) :
  online d = true →
  messages (SaveMessage d msg).2
  = filter (λ row, ¬ same_key row msg) (messages d)
    ++ [models.Message_with_ID msg (messages_seq d + 1)].
Proof. intros Honline. unfold SaveMessage. by rewrite Honline. Qed.

(** X1. After an upsert on reachable storage, exactly one row has the key of the
    message, it carries the saved fields, and the rows of other keys are as
    before. *)
Theorem upsert_replaces_its_key (d : DB) (msg : models.Message) :
  online d = true →
  let d' := (SaveMessage d msg).2 in
  filter (λ row, same_key row msg) (messages d')
  = [models.Message_with_ID msg (messages_seq d + 1)]
  ∧ filter (λ row, ¬ same_key row msg) (messages d')
    = filter (λ row, ¬ same_key row msg) (messages d).
Proof.
  intros Honline d'. subst d'. rewrite SaveMessage_rows by done.
  rewrite !filter_app, filter_same_key_out, filter_other_keys_twice.
  rewrite !filter_cons, !filter_nil.
  pose proof (same_key_with_ID msg (messages_seq d + 1)) as Hkey.
  destruct (decide (same_key (models.Message_with_ID msg (messages_seq d + 1)) msg)); [|done].
  destruct (decide (¬ same_key (models.Message_with_ID msg (messages_seq d + 1)) msg)); [done|].
  by rewrite app_nil_r.
Qed.

Lemma NoDup_fmap_filter {A B} (f : A → B) (P : A → Prop) `{!∀ x, Decision (P x)}
    (l : list A) :
  NoDup (f <$> l) → NoDup (f <$> filter P l).
Proof.
  induction l as [|x l IH]; [done|].
  rewrite fmap_cons, NoDup_cons. intros [Hx Hl].
  rewrite filter_cons. destruct (decide (P x)); [|by apply IH].
  rewrite fmap_cons, NoDup_cons. split; [|by apply IH].
  intros Hin. apply Hx. apply list_elem_of_fmap in Hin as (y & -> & Hy).
  apply list_elem_of_fmap. exists y. split; [done|].
  by apply list_elem_of_filter in Hy as [_ Hy].
Qed.

Lemma SaveMessage_unique (d : DB) (msg : models.Message) :
  unique_keys (messages d) → unique_keys (messages (SaveMessage d msg).2).
Proof.
  unfold unique_keys. intros Hunique.
  destruct (online d) eqn:Honline; [|unfold SaveMessage; by rewrite Honline].
  rewrite SaveMessage_rows by done. rewrite fmap_app. apply NoDup_app. split_and!.
  - by apply NoDup_fmap_filter.
  - intros key Hin Hnew. apply list_elem_of_singleton in Hnew.
    apply list_elem_of_fmap in Hin as (row & -> & Hrow).
    apply list_elem_of_filter in Hrow as [Hne _]. apply Hne.
    unfold message_key in Hnew. simpl in Hnew. unfold same_key. by injection Hnew as -> -> ->.
  - apply NoDup_singleton.
Qed.

(** X2. Saving the same message a second time on reachable storage leaves
    the table as the first save left it, except that the row of the message
    gets the next surrogate id: every other row keeps its fields, its
    surrogate id and its place. *)
Theorem upsert_idempotent (d : DB) (msg : models.Message) :
  online d = true →
  let others := filter (λ row, ¬ same_key row msg) (messages d) in
  messages (SaveMessage d msg).2
  = others ++ [models.Message_with_ID msg (messages_seq d + 1)]
  ∧ messages (SaveMessage (SaveMessage d msg).2 msg).2
    = others ++ [models.Message_with_ID msg (messages_seq d + 2)].
Proof.
  intros Honline others. subst others.
  assert (Honline' : online (SaveMessage d msg).2 = true).
  { unfold SaveMessage. by rewrite Honline. }
  assert (Hseq : messages_seq (SaveMessage d msg).2 = messages_seq d + 1).
  { unfold SaveMessage. by rewrite Honline. }
  rewrite (SaveMessage_rows (SaveMessage d msg).2) by done.
  rewrite (SaveMessage_rows d) by done. split; [done|].
  rewrite filter_app, filter_other_keys_twice, filter_cons, filter_nil.
  pose proof (same_key_with_ID msg (messages_seq d + 1)) as Hkey.
  destruct (decide (¬ same_key (models.Message_with_ID msg (messages_seq d + 1)) msg));
    [done|].
  rewrite app_nil_r, Hseq. do 3 f_equal. lia.
Qed.

(** X3. The cursor read back is the cursor written, and the cursors of other
    users are as before. *)
Theorem cursor_round_trip (d : DB) (userID pts qts date seq : Z) :
  online d = true →
  let d' := (SaveUpdatesState d userID pts qts date seq).2 in
  GetUpdatesState d' userID = (pts, qts, date, seq, None)
  ∧ ∀ other, other ≠ userID → GetUpdatesState d' other = GetUpdatesState d other.
Proof.
  intros Honline d'. subst d'. unfold SaveUpdatesState, GetUpdatesState.
  rewrite Honline. simpl. rewrite Honline. split.
  - by rewrite lookup_insert_eq.
  - intros other Hother. by rewrite lookup_insert_ne.
Qed.

(** X4. The [conversations] table is keyed by the conversation id alone: after a
    save, the saved conversation is the only stored one with its id, so a
    conversation of the same id that another user had stored is gone from
    that user's list. *)
Theorem conversation_id_is_global (d : DB) (conv : models.Conversation) :
  online d = true →
  let d' := (SaveConversation d conv).2 in
  (∀ row, row ∈ conversations d' →
     models.Conversation_ID row = models.Conversation_ID conv → row = conv)
  ∧ (∀ userID rows,
       userID ≠ models.Conversation_UserID conv →
       GetConversationsByUserID d' userID = Ok rows →
       ∀ row, row ∈ rows → models.Conversation_ID row ≠ models.Conversation_ID conv)
  ∧ ∃ rows, GetConversationsByUserID d' (models.Conversation_UserID conv) = Ok rows
            ∧ conv ∈ rows.
Proof.
  intros Honline d'.
  assert (Hrows : conversations d'
    = filter (λ row, models.Conversation_ID row ≠ models.Conversation_ID conv)
        (conversations d) ++ [conv]).
  { subst d'. unfold SaveConversation. by rewrite Honline. }
  assert (Honline' : online d' = true).
  { subst d'. unfold SaveConversation. by rewrite Honline. }
  assert (Honly : ∀ row, row ∈ conversations d' →
    models.Conversation_ID row = models.Conversation_ID conv → row = conv).
  { intros row Hrow Hid. rewrite Hrows in Hrow.
    apply elem_of_app in Hrow as [Hrow|Hrow].
    - apply list_elem_of_filter in Hrow as [Hne _]. by destruct Hne.
    - by apply list_elem_of_singleton in Hrow. }
  split_and!; [done| |].
  - intros userID rows Huser Hget row Hrow Hid.
    unfold GetConversationsByUserID in Hget. rewrite Honline' in Hget.
    injection Hget as <-. rewrite order_by_desc_perm, scan_perm in Hrow.
    apply list_elem_of_filter in Hrow as [Hown Hin].
    apply Honly in Hin; [|done]. subst row. by destruct Huser.
  - unfold GetConversationsByUserID. rewrite Honline'. eexists. split; [done|].
    rewrite order_by_desc_perm, scan_perm. apply list_elem_of_filter. split; [done|].
    rewrite Hrows. apply elem_of_app. right. by left.
Qed.

Lemma StronglySorted_app_parts {A} (R : A → A → Prop) (l1 l2 : list A) :
  StronglySorted R (l1 ++ l2) → StronglySorted R l1 ∧ StronglySorted R l2.
Proof.
  induction l1 as [|x l1 IH]; simpl; [by split; [constructor|]|].
  intros Hsorted. apply StronglySorted_inv in Hsorted as [Hrest Hx].
  destruct (IH Hrest) as [H1 H2]. split; [|done].
  constructor; [done|]. by apply Forall_app in Hx as [Hx _].
Qed.

(** X5. The page of messages a query returns: rows of the conversation
    asked for, in descending order of their stored timestamp texts, compared
    byte by byte, rows of equal text by ascending remote message id; and no
    more than the limit. *)
Theorem message_page (d : DB) (userID conversationID limit offset : Z)
    (rows : list models.Message) :
  GetMessagesByUserAndConversation d userID conversationID limit offset = Ok rows →
  (∀ row, row ∈ rows → row ∈ stored_messages d userID conversationID)
  ∧ query_order (timestamp_text d) models.MessageID rows
  ∧ (0 ≤ limit → (length rows ≤ Z.to_nat limit)%nat).
Proof.
  unfold GetMessagesByUserAndConversation. destruct (online d); [|done].
  intros [= <-]. fold (stored_messages d userID conversationID).
  set (sorted := order_by_desc String.leb (λ row, time_text d (models.Timestamp row))
                   (scan models.MessageID (stored_messages d userID conversationID))).
  assert (Hsorted : query_order (timestamp_text d) models.MessageID sorted).
  { apply (query_ordered String.leb _ text_leb_total text_leb_trans). }
  assert (Hperm : sorted ≡ₚ stored_messages d userID conversationID).
  { apply query_perm. }
  assert (Hdrop : query_order (timestamp_text d) models.MessageID
                    (drop (Z.to_nat offset) sorted)).
  { unfold query_order in *. rewrite <- (take_drop (Z.to_nat offset) sorted) in Hsorted.
    by apply StronglySorted_app_parts in Hsorted as [_ Hsorted]. }
  unfold limit_offset. destruct (Z.ltb_spec limit 0) as [Hneg|Hpos].
  - split_and!; [|done|lia].
    intros row Hrow. apply subseteq_drop in Hrow. by rewrite <- Hperm.
  - split_and!.
    + intros row Hrow. apply subseteq_take, subseteq_drop in Hrow. by rewrite <- Hperm.
    + unfold query_order in *.
      rewrite <- (take_drop (Z.to_nat limit) (drop (Z.to_nat offset) sorted)) in Hdrop.
      by apply StronglySorted_app_parts in Hdrop as [Hdrop _].
    + intros _. rewrite length_take. lia.
Qed.

(** X6. The users of a tick are all stored users, in descending order of the
    stored texts of their update times, compared byte by byte, users of
    equal text by ascending id. *)
Theorem users_latest_first (d : DB) (rows : list models.User) :
  GetUsers d = Ok rows →
  rows ≡ₚ users d ∧ query_order (updated_at_text d) models.User_ID rows.
Proof.
  unfold GetUsers. destruct (online d); [|done]. intros [= <-].
  split; [apply query_perm|].
  apply (query_ordered String.leb _ text_leb_total text_leb_trans).
Qed.

End storage_properties.

(** ** Keys of the tables *)

Module keys_facts.
Import database invariants spec database_facts storage_properties.

Lemma NoDup_fmap_replace {A} (f : A → Z) (x : A) (rows : list A) :
  NoDup (f <$> rows) → NoDup (f <$> (filter (λ row, f row ≠ f x) rows ++ [x])).
Proof.
  intros Hrows. rewrite fmap_app. apply NoDup_app. split_and!.
  - by apply NoDup_fmap_filter.
  - intros key Hin Hnew. apply list_elem_of_singleton in Hnew. subst key.
    apply list_elem_of_fmap in Hin as (row & Heq & Hrow).
    apply list_elem_of_filter in Hrow as [Hne _]. by destruct Hne.
  - apply NoDup_singleton.
Qed.

Lemma SaveUser_keyed (d : DB) (user : models.User) (now : Z) :
  well_keyed d → well_keyed (SaveUser d user now).2.
Proof.
  intros (Hu & Hc & Hm & Hi & Hs). unfold SaveUser.
  destruct (online d); [|done]. split_and!; try done. cbn.
  apply (NoDup_fmap_replace models.User_ID (models.User_with_UpdatedAt user now)), Hu.
Qed.

Lemma SaveConversation_keyed (d : DB) (conv : models.Conversation) :
  well_keyed d → well_keyed (SaveConversation d conv).2.
Proof.
  intros (Hu & Hc & Hm & Hi & Hs). unfold SaveConversation.
  destruct (online d); [|done]. split_and!; try done. cbn.
  by apply (NoDup_fmap_replace models.Conversation_ID conv).
Qed.

Lemma SaveUpdatesState_keyed (d : DB) (userID pts qts date seq : Z) :
  well_keyed d → well_keyed (SaveUpdatesState d userID pts qts date seq).2.
Proof. intros Hd. unfold SaveUpdatesState. by destruct (online d). Qed.

Lemma SaveMessage_keyed (d : DB) (msg : models.Message) :
  well_keyed d → well_keyed (SaveMessage d msg).2.
Proof.
  intros (Hu & Hc & Hm & Hi & Hs).
  pose proof (SaveMessage_unique d msg Hm) as Hm'.
  split_and!; try (unfold SaveMessage; by destruct (online d)); [done|..];
    destruct (online d) eqn:Honline; try (unfold SaveMessage; by rewrite Honline).
  - rewrite SaveMessage_rows by done. rewrite fmap_app. apply NoDup_app. split_and!.
    + by apply NoDup_fmap_filter.
    + intros id Hin Hnew. apply list_elem_of_singleton in Hnew. cbn in Hnew. subst id.
      apply list_elem_of_fmap in Hin as (row & Heq & Hrow).
      apply list_elem_of_filter in Hrow as [_ Hrow].
      eapply Forall_forall in Hs; [|exact Hrow]. lia.
    + apply NoDup_singleton.
  - rewrite SaveMessage_rows by done.
    unfold SaveMessage. rewrite Honline. cbn [snd with_messages messages_seq].
    apply Forall_app. split.
    + apply Forall_forall. intros row Hrow. apply list_elem_of_filter in Hrow as [_ Hrow].
      eapply Forall_forall in Hs; [|exact Hrow]. lia.
    + repeat constructor. cbn. lia.
Qed.

End keys_facts.

Module storage_invariants.
Import database invariants spec database_facts storage_properties keys_facts.

(** X7. Every write keeps the keys of the tables unique: one row per user id,
    one per conversation id, one per (user, conversation, remote message
    id), and surrogate message ids that are distinct and bounded by the
    counter. *)
Theorem writes_keep_keys (d : DB) :
  well_keyed d →
  (∀ user now, well_keyed (SaveUser d user now).2)
  ∧ (∀ conv, well_keyed (SaveConversation d conv).2)
  ∧ (∀ msg, well_keyed (SaveMessage d msg).2)
  ∧ (∀ userID pts qts date seq, well_keyed (SaveUpdatesState d userID pts qts date seq).2).
Proof.
  intros Hkeys. split_and!; intros.
  - by apply SaveUser_keyed.
  - by apply SaveConversation_keyed.
  - by apply SaveMessage_keyed.
  - by apply SaveUpdatesState_keyed.
Qed.

(** X8. The session of a user that a tick connects with is an active session of
    that user, the most recently created one; the lookup fails with "no
    rows" exactly when the user has no active session. *)
Theorem session_lookup (d : DB) (userID : Z) :
  online d = true →
  match GetActiveAuthSessionByUserID d userID with
  | Ok session =>
      session ∈ auth_sessions d
      ∧ models.AuthSession_UserID session = userID
      ∧ models.AuthSession_IsActive session = true
      ∧ ∀ other, other ∈ auth_sessions d →
          models.AuthSession_UserID other = userID →
          models.AuthSession_IsActive other = true →
          models.AuthSession_CreatedAt other ≤ models.AuthSession_CreatedAt session
  | Err err =>
      err = ErrNoRows
      ∧ ∀ other, other ∈ auth_sessions d →
          models.AuthSession_UserID other = userID →
          models.AuthSession_IsActive other = false
  end.
Proof.
  intros Honline. unfold GetActiveAuthSessionByUserID. rewrite Honline.
  destruct (order_by_desc Z.leb models.AuthSession_CreatedAt _) as [|session rest] eqn:Hsorted.
  - split; [done|]. intros other Hother Huser.
    apply order_by_desc_nil, sort_stable_nil in Hsorted.
    destruct (models.AuthSession_IsActive other) eqn:Hactive; [|done].
    assert (Hin : other ∈ filter (λ row, models.AuthSession_UserID row = userID
                                         ∧ models.AuthSession_IsActive row = true)
                            (auth_sessions d)) by by apply list_elem_of_filter.
    rewrite Hsorted in Hin. by apply elem_of_nil in Hin.
  - apply (query_first Z.leb _ Z_leb_total Z_leb_trans) in Hsorted as [Hin Hmax].
    apply list_elem_of_filter in Hin as [[Huser Hactive] Hin].
    split_and!; [done..|]. intros other Hother Huser' Hactive'.
    apply Z.leb_le, Hmax. by apply list_elem_of_filter.
Qed.

(** Saving message 100 of conversation 500 again replaces its row, under
    surrogate id 4, and leaves the rows of 98 and 99. *)
Lemma upsert_replaces_its_key_witness :
  let msg := fixtures.stored_row 0 100 1005 in
  let d' := (SaveMessage fixtures.stored_db msg).2 in
  filter (λ row, same_key row msg) (messages d') = [fixtures.stored_row 4 100 1005]
  ∧ filter (λ row, ¬ same_key row msg) (messages d')
    = filter (λ row, ¬ same_key row msg) (messages fixtures.stored_db).
Proof.
  exact (upsert_replaces_its_key fixtures.stored_db (fixtures.stored_row 0 100 1005) eq_refl).
Defined.

(** Saving message 100 of conversation 500 twice: the rows of 98 and 99
    stay as they are, with their surrogate ids 1 and 2, and the row of 100
    gets the surrogate id 4, then 5. *)
Lemma upsert_idempotent_witness :
  let msg := fixtures.stored_row 0 100 1005 in
  let d' := (SaveMessage fixtures.stored_db msg).2 in
  messages d'
  = [fixtures.stored_row 1 98 980; fixtures.stored_row 2 99 990;
     fixtures.stored_row 4 100 1005]
  ∧ messages (SaveMessage d' msg).2
    = [fixtures.stored_row 1 98 980; fixtures.stored_row 2 99 990;
       fixtures.stored_row 5 100 1005].
Proof.
  exact (upsert_idempotent fixtures.stored_db (fixtures.stored_row 0 100 1005) eq_refl).
Defined.

(** Writing the cursor of user 2 and reading it back, next to the stored
    cursor of user 1. *)
Lemma cursor_round_trip_witness :
  let d' := (SaveUpdatesState fixtures.stored_db 2 5 6 7 8).2 in
  GetUpdatesState d' 2 = (5, 6, 7, 8, None)
  ∧ ∀ other, other ≠ 2 → GetUpdatesState d' other = GetUpdatesState fixtures.stored_db other.
Proof. exact (cursor_round_trip fixtures.stored_db 2 5 6 7 8 eq_refl). Defined.

(** Conversation 500 is stored for user 1; saving it for user 2 takes it from
    the list of user 1. *)
Lemma conversation_id_is_global_witness :
  let conv := models.Conversation_with_UserID fixtures.channel_conversation 2 in
  let d' := (SaveConversation fixtures.stored_db conv).2 in
  GetConversationsByUserID fixtures.stored_db 1 = Ok [fixtures.channel_conversation]
  ∧ GetConversationsByUserID d' 1 = Ok []
  ∧ ∃ rows, GetConversationsByUserID d' 2 = Ok rows ∧ conv ∈ rows.
Proof.
  intros conv d'. split_and!; [reflexivity|reflexivity|].
  exact (proj2 (proj2 (conversation_id_is_global fixtures.stored_db
                         (models.Conversation_with_UserID fixtures.channel_conversation 2)
                         eq_refl))).
Defined.

(** In a process that runs in US Eastern time, the message of 01:30
    daylight time comes before the later message of 01:10 standard time. *)
Lemma message_page_witness :
  let rows := [fixtures.stored_row 1 201 1730611800; fixtures.stored_row 2 202 1730614200] in
  (∀ row, row ∈ rows → row ∈ stored_messages fixtures.fall_back_db 1 500)
  ∧ query_order (timestamp_text fixtures.fall_back_db) models.MessageID rows
  ∧ (0 ≤ 50 → (length rows ≤ Z.to_nat 50)%nat).
Proof.
  exact (message_page fixtures.fall_back_db 1 500 50 0
           [fixtures.stored_row 1 201 1730611800; fixtures.stored_row 2 202 1730614200]
           eq_refl).
Defined.

(** The two stored users, the one updated at 200 before the one updated at
    100. *)
Lemma users_latest_first_witness :
  [fixtures.user_a; fixtures.user_b] ≡ₚ users fixtures.two_users_db
  ∧ query_order (updated_at_text fixtures.two_users_db) models.User_ID
      [fixtures.user_a; fixtures.user_b].
Proof.
  exact (users_latest_first fixtures.two_users_db [fixtures.user_a; fixtures.user_b] eq_refl).
Defined.

(** The keys of the stored sample stay unique when a message and a
    conversation are saved again. *)
Lemma writes_keep_keys_witness :
  well_keyed (SaveMessage fixtures.stored_db (fixtures.stored_row 0 100 1005)).2
  ∧ well_keyed (SaveConversation fixtures.stored_db fixtures.channel_conversation).2.
Proof.
  assert (Hkeys : well_keyed fixtures.stored_db).
  { unfold well_keyed, unique_keys.
    split_and!; apply (bool_decide_unpack _); vm_compute; exact I. }
  destruct (writes_keep_keys fixtures.stored_db Hkeys) as (_ & Hconv & Hmsg & _).
  split; [apply Hmsg|apply Hconv].
Defined.

(** Of the two active sessions of user 1, the one created at 30 is found. *)
Lemma session_lookup_witness :
  GetActiveAuthSessionByUserID samples.sessions_db 1
  = Ok (models.mkAuthSession 2 1 true 12 "hash-b" 30)
  ∧ match GetActiveAuthSessionByUserID samples.sessions_db 1 with
  | Ok session =>
      session ∈ auth_sessions samples.sessions_db
      ∧ models.AuthSession_UserID session = 1
      ∧ models.AuthSession_IsActive session = true
      ∧ ∀ other, other ∈ auth_sessions samples.sessions_db →
          models.AuthSession_UserID other = 1 →
          models.AuthSession_IsActive other = true →
          models.AuthSession_CreatedAt other ≤ models.AuthSession_CreatedAt session
  | Err err =>
      err = ErrNoRows
      ∧ ∀ other, other ∈ auth_sessions samples.sessions_db →
          models.AuthSession_UserID other = 1 →
          models.AuthSession_IsActive other = false
    end.
Proof. split; [reflexivity|]. exact (session_lookup samples.sessions_db 1 eq_refl). Defined.

End storage_invariants.

(** ** What a computation keeps *)

Module keeps_facts.
Import runtime control telegram engine spec invariants runtime_facts.

Section Keeps.
Context {S : Type} (api : Api S).
Context (P : database.DB → Prop) (Q : Event → Prop).

Lemma keeps_ret {A} (a : A) : keeps (S := S) P Q (ret a).
Proof. intros w Hw. split; [done|constructor]. Qed.

Lemma keeps_bind {A B} (m : M S A) (k : A → M S B) :
  keeps P Q m → (∀ a, keeps P Q (k a)) → keeps P Q (bind m k).
Proof.
  intros Hm Hk w Hw. rewrite world_bind, events_bind.
  destruct (Hm w Hw) as [Hw' Hevents].
  destruct (Hk (value (m w)) (world (m w)) Hw') as [Hfinal Hrest].
  split; [done|]. by apply Forall_app.
Qed.

Lemma keeps_emit (e : Event) : Q e → keeps (S := S) P Q (emit e).
Proof. intros He w Hw. split; [done|]. by repeat constructor. Qed.

Lemma keeps_get_client : keeps (S := S) P Q get_client.
Proof. intros w Hw. split; [done|constructor]. Qed.

Lemma keeps_set_client (c : Client) : keeps (S := S) P Q (set_client c).
Proof. intros w Hw. split; [done|constructor]. Qed.

Lemma keeps_outside {A} (f : S → A * S) : keeps P Q (outside f).
Proof. intros w Hw. split; [done|constructor]. Qed.

Lemma keeps_query {A} (f : database.DB → A) : keeps (S := S) P Q (query f).
Proof. intros w Hw. split; [done|constructor]. Qed.

Lemma keeps_time_Now : keeps P Q (time_Now api).
Proof. intros w Hw. split; [done|constructor]. Qed.

Lemma keeps_exec {A} (f : database.DB → A * database.DB) :
  (∀ d, P d → P (f d).2) → keeps (S := S) P Q (exec f).
Proof. intros Hf w Hw. split; [by apply Hf|constructor]. Qed.

Lemma keeps_when (b : bool) (m : M S unit) : keeps P Q m → keeps P Q (when b m).
Proof. intros Hm. destruct b; [done|apply keeps_ret]. Qed.

Lemma keeps_for_range {A} (xs : list A) (body : A → M S unit) :
  (∀ x, x ∈ xs → keeps P Q (body x)) → keeps P Q (for_range xs body).
Proof.
  induction xs as [|x rest IH]; intros Hbody; [apply keeps_ret|].
  cbn [for_range]. apply keeps_bind.
  - apply Hbody. by left.
  - intros _. apply IH. intros y Hy. apply Hbody. by right.
Qed.

Lemma keeps_for_range_from {A} (xs : list A) (i : Z) (body : Z → A → M S unit) :
  (∀ j x, x ∈ xs → keeps P Q (body j x)) → keeps P Q (for_range_from i xs body).
Proof.
  revert i. induction xs as [|x rest IH]; intros i Hbody; [apply keeps_ret|].
  cbn [for_range_from]. apply keeps_bind.
  - apply Hbody. by left.
  - intros _. apply IH. intros j y Hy. apply Hbody. by right.
Qed.

End Keeps.

(** One step through a computation: binds, branches and loops. *)
Ltac keeps_step :=
  lazymatch goal with
  | |- keeps _ _ (bind _ _) => apply keeps_bind; [|intros ?]
  | |- keeps _ _ (ret _) => apply keeps_ret
  | |- keeps _ _ get_client => apply keeps_get_client
  | |- keeps _ _ (set_client _) => apply keeps_set_client
  | |- keeps _ _ (outside _) => apply keeps_outside
  | |- keeps _ _ (query _) => apply keeps_query
  | |- keeps _ _ (time_Now _) => apply keeps_time_Now
  | |- keeps _ _ (emit _) => apply keeps_emit
  | |- keeps _ _ (when _ _) => apply keeps_when
  | |- keeps _ _ (if ?b then _ else _) => destruct b
  | |- keeps _ _ (match ?x with _ => _ end) => destruct x
  end.

Section Client.
Context {S : Type} (api : Api S).
Context (P : database.DB → Prop) (Q : Event → Prop).

Lemma keeps_Connect (appID' : Z) (appHash' : string) :
  (∀ g, Q (Go g)) → (∀ seconds, Q (Sleep seconds)) →
  keeps P Q (Connect api appID' appHash').
Proof. intros Hgo Hsleep. unfold Connect. repeat keeps_step; done. Qed.

Lemma keeps_IsAuthenticated : Q CallUsersGetFullUser → keeps P Q (IsAuthenticated api).
Proof. intros Hcall. unfold IsAuthenticated. repeat keeps_step; done. Qed.

Lemma keeps_GetDialogs : Q CallMessagesGetDialogs → keeps P Q (GetDialogs api).
Proof. intros Hcall. unfold GetDialogs. repeat keeps_step; done. Qed.

Lemma keeps_GetState : Q CallUpdatesGetState → keeps P Q (GetState api).
Proof. intros Hcall. unfold GetState. repeat keeps_step; done. Qed.

Lemma keeps_GetUpdates (pts date qts : Z) :
  Q (CallUpdatesGetDifference pts date qts) → keeps P Q (GetUpdates api pts date qts).
Proof. intros Hcall. unfold GetUpdates. repeat keeps_step; done. Qed.

Lemma keeps_MessagesGetHistory (peer : tg.InputPeerClass) (limit : Z) :
  Q (CallMessagesGetHistory peer limit) → keeps P Q (telegram.MessagesGetHistory api peer limit).
Proof. intros Hcall. unfold telegram.MessagesGetHistory. repeat keeps_step; done. Qed.

Lemma keeps_getMessagesWithFallback (peerID limit : Z) (convType accessHash : string) :
  (∀ peer, Q (CallMessagesGetHistory peer limit)) →
  keeps P Q (getMessagesWithFallback api peerID limit convType accessHash).
Proof.
  intros Hcall. unfold getMessagesWithFallback.
  repeat first [apply keeps_MessagesGetHistory; [apply Hcall] | keeps_step].
Qed.

Lemma keeps_GetMessagesWithConvInfo (peerID limit : Z) (convType accessHash : string) :
  (∀ peer, choose_peer peerID convType accessHash = UsePeer peer →
           Q (CallMessagesGetHistory peer limit)) →
  (choose_peer peerID convType accessHash = Fallback →
   ∀ peer, Q (CallMessagesGetHistory peer limit)) →
  keeps P Q (GetMessagesWithConvInfo api peerID limit convType accessHash).
Proof.
  intros Htyped Hprobe. unfold GetMessagesWithConvInfo.
  apply keeps_bind; [apply keeps_get_client|]. intros c.
  destruct (negb (isConnected c)); [apply keeps_ret|].
  destruct (choose_peer peerID convType accessHash) as [peer|err|] eqn:Hchoice.
  - apply keeps_bind; [by apply keeps_MessagesGetHistory, Htyped|].
    intros r. destruct r; apply keeps_ret.
  - apply keeps_ret.
  - by apply keeps_getMessagesWithFallback, Hprobe.
Qed.

End Client.

End keeps_facts.

(** ** Batches of messages and the footprint of the engine *)

Module batch_facts.
Import normalizer invariants.

Lemma parse_fold (users : list tg.UserClass) (peerID : Z) (msgs : list tg.MessageClass)
    (acc : list models.Message) :
  foldl (parse_step users peerID) acc msgs
  = acc ++ ((λ m, models.Message_with_ConversationID (parseMessageWithUsers m users) peerID)
            <$> plain_messages msgs).
Proof.
  revert acc. induction msgs as [|msg msgs IH]; intros acc; simpl.
  - by rewrite app_nil_r.
  - rewrite IH. destruct msg as [id|m|id]; simpl; [done| |done].
    by rewrite <- app_assoc.
Qed.

Lemma updates_fold (users : list tg.UserClass) (userID : Z) (msgs : list tg.MessageClass)
    (acc : list models.Message) :
  foldl (updates_step users userID) acc msgs
  = acc ++ ((λ m, peer_conversation
                    (models.Message_with_UserID (parseMessageWithUsers m users) userID)
                    (tg.Message_PeerID m))
            <$> plain_messages msgs).
Proof.
  revert acc. induction msgs as [|msg msgs IH]; intros acc; simpl.
  - by rewrite app_nil_r.
  - rewrite IH. destruct msg as [id|m|id]; simpl; [done| |done].
    by rewrite <- app_assoc.
Qed.

Lemma peer_conversation_UserID (m : models.Message) (peer : option tg.PeerClass) :
  models.UserID (peer_conversation m peer) = models.UserID m.
Proof. by destruct peer as [[id|id|id]|]. Qed.

Lemma ParseUpdatesMessages_UserID (updates : tg.UpdatesDifference) (userID : Z)
    (msg : models.Message) :
  msg ∈ ParseUpdatesMessages updates userID → models.UserID msg = userID.
Proof.
  unfold ParseUpdatesMessages. rewrite updates_fold, app_nil_l.
  intros Hin. apply list_elem_of_fmap in Hin as (m & -> & _).
  by rewrite peer_conversation_UserID.
Qed.

End batch_facts.

Module footprint_facts.
Import runtime control telegram engine spec invariants runtime_facts keeps_facts batch_facts.

Section Footprint.
Context {S : Type} (api : Api S).
Context (P : database.DB → Prop) (Q : Event → Prop) (userID : Z).

Hypothesis P_conversation : ∀ d conv,
  models.Conversation_UserID conv = userID → P d → P (database.SaveConversation d conv).2.
Hypothesis P_message : ∀ d msg,
  models.UserID msg = userID → P d → P (database.SaveMessage d msg).2.
Hypothesis P_state : ∀ d pts qts date seq,
  P d → P (database.SaveUpdatesState d userID pts qts date seq).2.

Hypothesis Q_log : ∀ line, Q (Log line).
Hypothesis Q_sleep : ∀ seconds, Q (Sleep seconds).
Hypothesis Q_listing : Q CallMessagesGetDialogs.
Hypothesis Q_state_call : Q CallUpdatesGetState.
Hypothesis Q_difference : ∀ pts date qts, Q (CallUpdatesGetDifference pts date qts).
Hypothesis Q_history : ∀ peer, Q (CallMessagesGetHistory peer 50).
Hypothesis Q_conversation :
  ∀ conv, models.Conversation_UserID conv = userID → Q (ExecSaveConversation conv).
Hypothesis Q_message : ∀ msg, models.UserID msg = userID → Q (ExecSaveMessage msg).
Hypothesis Q_state : ∀ pts qts date seq, Q (ExecSaveUpdatesState userID pts qts date seq).

Lemma keeps_SaveMessage (msg : models.Message) :
  models.UserID msg = userID → keeps (S := S) P Q (SaveMessage msg).
Proof.
  intros Hown. unfold SaveMessage. apply keeps_bind; [by apply keeps_emit, Q_message|].
  intros _. apply keeps_exec. intros d. by apply P_message.
Qed.

Lemma keeps_SaveConversation (conv : models.Conversation) :
  models.Conversation_UserID conv = userID → keeps (S := S) P Q (SaveConversation conv).
Proof.
  intros Hown. unfold SaveConversation.
  apply keeps_bind; [by apply keeps_emit, Q_conversation|].
  intros _. apply keeps_exec. intros d. by apply P_conversation.
Qed.

Lemma keeps_SaveUpdatesState (pts qts date seq : Z) :
  keeps (S := S) P Q (SaveUpdatesState userID pts qts date seq).
Proof.
  unfold SaveUpdatesState. apply keeps_bind; [by apply keeps_emit, Q_state|].
  intros _. apply keeps_exec. intros d. apply P_state.
Qed.

Lemma keeps_fetch (conv : models.Conversation) :
  keeps P Q (GetMessagesWithConvInfo api (models.Conversation_ID conv) 50
               (models.Conversation_Type conv) (models.Conversation_AccessHash conv)).
Proof. apply keeps_GetMessagesWithConvInfo; intros; apply Q_history. Qed.

Lemma keeps_full_sync : keeps P Q (full_sync api userID).
Proof.
  unfold full_sync. apply keeps_bind; [by apply keeps_GetDialogs|].
  intros [dialogs|err]; [|apply keeps_ret].
  apply keeps_bind; [|intros _; apply keeps_bind; [|intros _; apply keeps_bind]].
  - apply keeps_for_range. intros dialog _.
    apply keeps_bind; [by apply keeps_SaveConversation|intros _; apply keeps_ret].
  - apply keeps_for_range_from. intros i dialog _.
    apply keeps_bind; [apply keeps_when, keeps_emit, Q_sleep|]. intros _.
    apply keeps_bind; [apply keeps_fetch|].
    intros [messages|err]; [|apply keeps_ret].
    apply keeps_for_range. intros msg _.
    apply keeps_bind; [by apply keeps_SaveMessage|intros _; apply keeps_ret].
  - unfold save_current_state. apply keeps_bind; [by apply keeps_GetState|].
    intros [state|err]; [|apply keeps_ret].
    apply keeps_bind; [apply keeps_SaveUpdatesState|intros _; apply keeps_ret].
  - intros _. apply keeps_ret.
Qed.

Lemma keeps_incremental_sync (pts qts date seq : Z) :
  keeps P Q (incremental_sync api userID pts qts date seq).
Proof.
  unfold incremental_sync. apply keeps_bind; [apply keeps_emit, Q_log|]. intros _.
  apply keeps_bind; [apply keeps_GetUpdates, Q_difference|].
  intros [updates|err]; [|apply keeps_emit, Q_log].
  apply keeps_bind.
  - apply keeps_for_range. intros msg Hmsg.
    apply keeps_bind; [|intros _; apply keeps_ret].
    apply keeps_SaveMessage. by eapply ParseUpdatesMessages_UserID.
  - intros _. destruct ((0 <? tg.Pts (tg.State updates)) || (0 <? tg.Date (tg.State updates))).
    + apply keeps_bind; [apply keeps_SaveUpdatesState|intros _; apply keeps_emit, Q_log].
    + apply keeps_emit, Q_log.
Qed.

Lemma keeps_autoSyncUser :
  Q (Go (ChannelSync userID)) → keeps P Q (autoSyncUser api userID).
Proof.
  intros Q_go. unfold autoSyncUser. apply keeps_bind; [apply keeps_emit, Q_log|]. intros _.
  apply keeps_bind.
  { unfold stored_state. apply keeps_bind; [apply keeps_query|].
    intros [[[[pts qts] date] seq] [err|]]; apply keeps_ret. }
  intros [[[pts qts] date] seq].
  destruct (bool_decide (pts = 0) && bool_decide (qts = 0) && bool_decide (date = 0)).
  - apply keeps_bind; [apply keeps_emit, Q_log|]. intros _.
    apply keeps_bind; [apply keeps_full_sync|].
    intros finished. apply keeps_when, keeps_emit, Q_log.
  - apply keeps_bind; [apply keeps_incremental_sync|]. intros _.
    apply keeps_bind; [by apply keeps_emit|]. intros _. apply keeps_emit, Q_log.
Qed.

Lemma keeps_save_newer (offsetID : Z) (channelMessages : list models.Message) :
  keeps (S := S) P Q (save_newer userID offsetID channelMessages).
Proof.
  unfold save_newer. apply keeps_for_range. intros msg _. cbv zeta.
  destruct (bool_decide (offsetID = 0)
            || (offsetID <? models.MessageID (models.Message_with_UserID msg userID)));
    [|apply keeps_emit, Q_log].
  apply keeps_bind; [by apply keeps_SaveMessage|].
  intros [err|]; [apply keeps_ret|apply keeps_emit, Q_log].
Qed.

End Footprint.

Section Resync.
Context {S : Type} (api : Api S).
Context (P : database.DB → Prop) (Q : Event → Prop) (userID : Z).

Hypothesis P_message : ∀ d msg,
  models.UserID msg = userID → P d → P (database.SaveMessage d msg).2.
Hypothesis Q_log : ∀ line, Q (Log line).
Hypothesis Q_history : ∀ e, channel_history_call e → Q e.
Hypothesis Q_message : ∀ msg, models.UserID msg = userID → Q (ExecSaveMessage msg).

Lemma channel_like_peer (conv : models.Conversation) (peer : tg.InputPeerClass) :
  is_channel_like conv = true →
  choose_peer (models.Conversation_ID conv) (models.Conversation_Type conv)
    (models.Conversation_AccessHash conv) = UsePeer peer →
  ∃ accessHash, peer = tg.InputPeerChannel (models.Conversation_ID conv) accessHash.
Proof.
  unfold is_channel_like. intros Hlike.
  apply andb_true_iff in Hlike as [Htype Hhash].
  apply orb_true_iff in Htype as [Htype|Htype]; apply bool_decide_eq_true in Htype;
    rewrite Htype; unfold choose_peer; cbn [bool_decide]; simpl; rewrite Hhash;
    destruct (strconv.ParseInt (models.Conversation_AccessHash conv)) as [hash|err];
    intros [= <-] || intros [=]; by eexists.
Qed.

Lemma channel_like_no_probe (conv : models.Conversation) :
  is_channel_like conv = true →
  choose_peer (models.Conversation_ID conv) (models.Conversation_Type conv)
    (models.Conversation_AccessHash conv) ≠ Fallback.
Proof.
  unfold is_channel_like. intros Hlike.
  apply andb_true_iff in Hlike as [Htype Hhash].
  apply orb_true_iff in Htype as [Htype|Htype]; apply bool_decide_eq_true in Htype;
    rewrite Htype; unfold choose_peer; simpl; rewrite Hhash;
    by destruct (strconv.ParseInt (models.Conversation_AccessHash conv)).
Qed.

Lemma keeps_sync_conversation (conv : models.Conversation) :
  keeps P Q (sync_conversation api userID conv).
Proof.
  unfold sync_conversation. destruct (is_channel_like conv) eqn:Hlike; [|apply keeps_ret].
  apply keeps_bind; [apply keeps_emit, Q_log|]. intros _.
  apply keeps_bind; [apply keeps_query|]. intros latestMessages. cbv zeta.
  apply keeps_bind.
  - apply keeps_GetMessagesWithConvInfo.
    + intros peer Hpeer. apply Q_history.
      destruct (channel_like_peer conv peer Hlike Hpeer) as [accessHash ->]. by eexists _, _.
    + intros Hprobe. by destruct (channel_like_no_probe conv Hlike).
  - intros [channelMessages|err]; [|apply keeps_emit, Q_log].
    by apply keeps_save_newer.
Qed.

Lemma keeps_channelSync : keeps P Q (channelSync api userID).
Proof.
  unfold channelSync. apply keeps_bind; [apply keeps_query|].
  intros [channels|err]; [|apply keeps_ret].
  apply keeps_for_range. intros conv _. apply keeps_sync_conversation.
Qed.

End Resync.

Section Tick.
Context {S : Type} (api : Api S).
Context (P : database.DB → Prop) (R : models.User → Prop).

Hypothesis P_listed : ∀ d users user,
  P d → database.GetUsers d = Ok users → user ∈ users → R user.
Hypothesis P_user : ∀ d user now,
  R user → P d → P (database.SaveUser d (models.User_with_IsActive user false) now).2.
Hypothesis P_conversation : ∀ d conv, P d → P (database.SaveConversation d conv).2.
Hypothesis P_message : ∀ d msg, P d → P (database.SaveMessage d msg).2.
Hypothesis P_state : ∀ d userID pts qts date seq,
  P d → P (database.SaveUpdatesState d userID pts qts date seq).2.

Lemma keeps_sync_user (user : models.User) :
  R user → keeps P (λ _, True) (sync_user api user).
Proof.
  intros Huser. unfold sync_user.
  destruct (negb (models.User_IsActive user)); [apply keeps_ret|].
  apply keeps_bind; [apply keeps_query|].
  intros [session|err]; [|by apply keeps_emit].
  apply keeps_bind; [by apply keeps_Connect|].
  intros [err|]; [by apply keeps_emit|].
  apply keeps_bind; [by apply keeps_IsAuthenticated|].
  intros authenticated. destruct (negb authenticated).
  - apply keeps_bind; [by apply keeps_emit|]. intros _.
    apply keeps_bind; [|intros _; apply keeps_ret].
    unfold SaveUser. apply keeps_bind; [by apply keeps_emit|]. intros _.
    intros w Hw. split; [|constructor]. by apply P_user.
  - apply keeps_bind; [by apply keeps_emit|]. intros _.
    apply keeps_autoSyncUser; auto.
Qed.

Lemma keeps_tick : keeps P (λ _, True) (tick api).
Proof.
  intros w Hw. unfold tick. rewrite bind_query.
  destruct (database.GetUsers (db w)) as [users|err] eqn:Husers; [|by apply keeps_ret].
  apply keeps_for_range; [|done]. intros user Huser.
  apply keeps_sync_user. by eapply P_listed.
Qed.

End Tick.

End footprint_facts.

(** ** Kinds, bodies and senders *)

Module media_facts.
Import normalizer invariants normalizer_facts.

Ltac in_kinds := unfold kinds; solve [repeat (first [by left | right])].

Lemma text_kind : "text" ∈ kinds.
Proof. in_kinds. Qed.

Lemma attr_step_kind (v : media_vars) (attr : tg.DocumentAttributeClass) :
  messageType v ∈ kinds → messageType (attr_step v attr) ∈ kinds.
Proof.
  intros Hv. destruct attr; simpl; try done; try in_kinds.
  case_bool_decide; simpl; [in_kinds|done].
Qed.

Lemma text_filled (text : string) : filled (mkMediaVars text "text" "" "").
Proof. intros Hkind. by destruct Hkind. Qed.

Lemma attr_step_filled (v : media_vars) (attr : tg.DocumentAttributeClass) :
  filled v → filled (attr_step v attr).
Proof.
  unfold filled. intros Hv.
  destruct attr; simpl; try done; try (intros _; by apply placeholder_filled).
  case_bool_decide; simpl; [intros _; by apply placeholder_filled|done].
Qed.

Lemma attrs_invariant (attrs : list tg.DocumentAttributeClass) (v : media_vars) :
  messageType v ∈ kinds → filled v →
  messageType (foldl attr_step v attrs) ∈ kinds ∧ filled (foldl attr_step v attrs).
Proof.
  revert v. induction attrs as [|attr attrs IH]; intros v Hkind Hfilled; [done|].
  simpl. apply IH; [by apply attr_step_kind|by apply attr_step_filled].
Qed.

Lemma document_vars_invariant (v : media_vars) (doc : tg.Document) :
  messageType v ∈ kinds → filled v →
  messageType (document_vars v doc) ∈ kinds
  ∧ content (document_vars v doc) ≠ ""
  ∧ mediaName (document_vars v doc) ≠ "".
Proof.
  intros Hkind Hfilled. unfold document_vars.
  destruct (attrs_invariant (tg.Document_Attributes doc) v Hkind Hfilled) as [Hkind1 Hfilled1].
  set (v1 := foldl attr_step v (tg.Document_Attributes doc)) in *.
  cbv zeta. case_bool_decide as Htext; cbn [messageType content mediaName].
  - split_and!; [in_kinds|by apply placeholder_filled|].
    case_bool_decide; [done|done].
  - split_and!; [done|by apply Hfilled1|].
    case_bool_decide as Hname; [|done]. by apply append_filled_r.
Qed.

Lemma media_switch_kind (v : media_vars) (media : tg.MessageMediaClass) :
  messageType v ∈ kinds → filled v → messageType (media_switch v media) ∈ kinds.
Proof.
  intros Hkind Hfilled. destruct media as [|photo| | | |[[id|doc]|]| | | | |]; simpl;
    try done; try in_kinds.
  by apply document_vars_invariant.
Qed.

Lemma media_switch_filled (v : media_vars) (media : tg.MessageMediaClass) :
  messageType v ∈ kinds → filled v → placeholder_media media = true →
  content (media_switch v media) ≠ "".
Proof.
  intros Hkind Hfilled Hmedia.
  destruct media as [|photo| | | |[[id|doc]|]| | | | |]; try discriminate Hmedia; simpl;
    try (by apply placeholder_filled).
  by apply document_vars_invariant.
Qed.

Lemma with_media_suffix_filled (content mediaName : string) :
  content ≠ "" → with_media_suffix content mediaName ≠ "".
Proof.
  intros Hcontent. unfold with_media_suffix. by apply append_filled_l.
Qed.

Lemma parsed_fields (msg : tg.Message) (users : list tg.UserClass) :
  let v0 := mkMediaVars (tg.Message_Message msg) "text" "" "" in
  let v := match tg.Message_Media msg with
           | Some media => media_switch v0 media
           | None => v0
           end in
  let r := parseMessageWithUsers msg users in
  models.MessageType r = messageType v
  ∧ models.Content r
    = (if bool_decide (mediaName v ≠ "") && bool_decide (content v ≠ "")
       then with_media_suffix (content v) (mediaName v) else content v)
  ∧ models.MediaURL r = mediaURL v
  ∧ models.MessageID r = tg.Message_ID msg
  ∧ models.Timestamp r = tg.Message_Date msg
  ∧ models.FromID r = (sender (tg.Message_FromID msg) users).1
  ∧ (models.FromUsername r, models.FromFirstName r, models.FromLastName r)
    = (sender (tg.Message_FromID msg) users).2
  ∧ models.ID r = 0 ∧ models.UserID r = 0 ∧ models.ConversationID r = 0.
Proof.
  intros v0 v r. subst r. unfold parseMessageWithUsers. fold v0. fold v.
  by destruct (sender (tg.Message_FromID msg) users) as [fromID [[a b] c]].
Qed.

Lemma find_user_first (users : list tg.UserClass) (userID : Z) (i : nat) (user : tg.User) :
  users !! i = Some (tg.AUser user) →
  tg.User_ID user = userID →
  (∀ j other, (j < i)%nat → users !! j = Some (tg.AUser other) → tg.User_ID other ≠ userID) →
  find_user users userID = Some user.
Proof.
  revert i. induction users as [|first users IH]; intros i Hi Hid Hfirst; [done|].
  destruct i as [|i]; simpl in *.
  - injection Hi as ->. by rewrite bool_decide_eq_true_2.
  - assert (Hrest : find_user users userID = Some user).
    { apply (IH i); [done..|]. intros j other Hj Hother.
      apply (Hfirst (S j) other); [lia|done]. }
    destruct first as [id|other]; [done|].
    rewrite bool_decide_eq_false_2; [done|].
    apply (Hfirst 0%nat other); [lia|done].
Qed.

Lemma find_user_none (users : list tg.UserClass) (userID : Z) :
  (∀ j other, users !! j = Some (tg.AUser other) → tg.User_ID other ≠ userID) →
  find_user users userID = None.
Proof.
  induction users as [|first users IH]; intros Hnone; [done|]. simpl.
  assert (Hrest : find_user users userID = None).
  { apply IH. intros j other Hother. by apply (Hnone (S j) other). }
  destruct first as [id|other]; [done|].
  rewrite bool_decide_eq_false_2; [done|]. by apply (Hnone 0%nat other).
Qed.

End media_facts.

Module message_properties.
Import normalizer invariants normalizer_facts media_facts batch_facts.

(** X9. The kind of a normalized message is one of the eleven kinds, whatever the
    media and its attributes. *)
Theorem kind_is_known (msg : tg.Message) (users : list tg.UserClass) :
  models.MessageType (parseMessageWithUsers msg users) ∈ kinds.
Proof.
  destruct (parsed_fields msg users) as (-> & _).
  destruct (tg.Message_Media msg) as [media|]; [|apply text_kind].
  apply media_switch_kind; [apply text_kind|apply text_filled].
Qed.

(** X10. A message with photo, document, web page, contact, location or poll
    media never has an empty body. *)
Theorem media_body_filled (msg : tg.Message) (users : list tg.UserClass)
    (media : tg.MessageMediaClass) :
  tg.Message_Media msg = Some media →
  placeholder_media media = true →
  models.Content (parseMessageWithUsers msg users) ≠ "".
Proof.
  intros Hmedia Hplaceholder.
  destruct (parsed_fields msg users) as (_ & -> & _). rewrite Hmedia.
  pose proof (media_switch_filled (mkMediaVars (tg.Message_Message msg) "text" "" "") media
                text_kind (text_filled _) Hplaceholder) as Hfilled.
  destruct (_ && _); [by apply with_media_suffix_filled|done].
Qed.

(** X11. The sender of a message from a user peer: the id is the peer's, and the
    names are those of the first user of the directory with that id, or
    empty when the directory has none. *)
Theorem sender_resolution (msg : tg.Message) (users : list tg.UserClass) (userID : Z) :
  tg.Message_FromID msg = Some (tg.PeerUser userID) →
  let r := parseMessageWithUsers msg users in
  models.FromID r = userID
  ∧ (∀ (i : nat) (user : tg.User),
       users !! i = Some (tg.AUser user) →
       tg.User_ID user = userID →
       (∀ j other, (j < i)%nat → users !! j = Some (tg.AUser other) →
                   tg.User_ID other ≠ userID) →
       models.FromUsername r = tg.User_Username user
       ∧ models.FromFirstName r = tg.User_FirstName user
       ∧ models.FromLastName r = tg.User_LastName user)
  ∧ ((∀ j other, users !! j = Some (tg.AUser other) → tg.User_ID other ≠ userID) →
     models.FromUsername r = "" ∧ models.FromFirstName r = "" ∧ models.FromLastName r = "").
Proof.
  intros Hfrom r.
  destruct (parsed_fields msg users) as (_ & _ & _ & _ & _ & Hid & Hnames & _).
  fold r in Hid, Hnames. rewrite Hfrom in Hid, Hnames. simpl in Hid, Hnames.
  split_and!; [done| |].
  - intros i user Hi Huser Hfirst.
    rewrite (find_user_first users userID i user Hi Huser Hfirst) in Hnames.
    by injection Hnames as -> -> ->.
  - intros Hnone. rewrite (find_user_none users userID Hnone) in Hnames.
    by injection Hnames as -> -> ->.
Qed.

(** User 77 occurs twice in the directory, after an empty entry with that id:
    the names are those of the first full entry. *)
Lemma sender_resolution_witness :
  let r := parseMessageWithUsers samples.from_ada samples.directory in
  models.FromID r = 77 ∧ models.FromUsername r = "ada" ∧ models.FromFirstName r = "Ada"
  ∧ models.FromLastName r = "L".
Proof.
  destruct (sender_resolution samples.from_ada samples.directory 77 eq_refl)
    as (Hid & Hfirst & _).
  split; [exact Hid|].
  apply (Hfirst 2%nat (tg.mkUser 77 2 "Ada" "L" "ada" false) eq_refl eq_refl).
  intros j other Hj Hother.
  destruct j as [|[|j]]; [discriminate Hother| |lia].
  injection Hother as <-. discriminate.
Defined.

(** A document with a file name and no text gets a body. *)
Lemma media_body_filled_witness :
  models.Content (parseMessageWithUsers
                    (fixtures.document_message "" [tg.DocumentAttributeFilename "a.pdf"]) [])
  ≠ "".
Proof.
  exact (media_body_filled
           (fixtures.document_message "" [tg.DocumentAttributeFilename "a.pdf"]) []
           (tg.MessageMediaDocument
              (Some (tg.ADocument (tg.mkDocument 1 2 [tg.DocumentAttributeFilename "a.pdf"]))))
           eq_refl eq_refl).
Defined.

End message_properties.

(** ** Normalized batches *)

Module batch_properties.
Import normalizer invariants media_facts batch_facts.

(** X12. Normalizing a history answer never fails.  Its result has one message
    for each raw message that is a plain message, in the same order, with the
    raw id and date, normalized against the directory of the answer, in the
    conversation asked for, and not yet owned by a user. *)
Theorem history_batch (messages : tg.MessagesMessagesClass) (peerID : Z) :
  ∃ parsed,
    parseMessagesResponse messages peerID = Ok parsed
    ∧ Forall2 (λ raw msg,
                 msg = models.Message_with_ConversationID
                         (parseMessageWithUsers raw (response_users messages)) peerID
                 ∧ models.MessageID msg = tg.Message_ID raw
                 ∧ models.Timestamp msg = tg.Message_Date raw
                 ∧ models.ConversationID msg = peerID
                 ∧ models.UserID msg = 0)
        (plain_messages (response_messages messages)) parsed.
Proof.
  assert (Hmap : ∀ msgs users,
    Forall2 (λ raw msg,
               msg = models.Message_with_ConversationID (parseMessageWithUsers raw users) peerID
               ∧ models.MessageID msg = tg.Message_ID raw
               ∧ models.Timestamp msg = tg.Message_Date raw
               ∧ models.ConversationID msg = peerID
               ∧ models.UserID msg = 0)
      (plain_messages msgs) (foldl (parse_step users peerID) [] msgs)).
  { intros msgs users. rewrite parse_fold, app_nil_l. apply Forall2_fmap_r, Forall_Forall2_diag.
    apply Forall_forall. intros raw _. unfold compose.
    destruct (parsed_fields raw users) as (_ & _ & _ & Hid & Hdate & _ & _ & _ & Huser & _).
    by split_and!. }
  destruct messages as [msgs users|msgs users|msgs users|count]; eexists; (split; [done|]);
    apply Hmap.
Qed.

(** X13. The messages read off a difference: one for each raw message that is a
    plain message, in the same order, with the raw id and date, owned by the
    user of the pass, and in the conversation of the raw peer (conversation 0
    when the raw message has no peer). *)
Theorem difference_batch (updates : tg.UpdatesDifference) (userID : Z) :
  Forall2 (λ raw msg,
             models.MessageID msg = tg.Message_ID raw
             ∧ models.Timestamp msg = tg.Message_Date raw
             ∧ models.UserID msg = userID
             ∧ models.ConversationID msg = peer_id_or_zero (tg.Message_PeerID raw)
             ∧ models.Content msg
               = models.Content (parseMessageWithUsers raw (tg.Users updates)))
    (plain_messages (tg.NewMessages updates)) (ParseUpdatesMessages updates userID).
Proof.
  unfold ParseUpdatesMessages. rewrite updates_fold, app_nil_l.
  apply Forall2_fmap_r, Forall_Forall2_diag, Forall_forall. intros raw _.
  destruct (parsed_fields raw (tg.Users updates))
    as (_ & _ & _ & Hid & Hdate & _ & _ & _ & _ & Hconv).
  unfold compose. destruct (tg.Message_PeerID raw) as [[id|id|id]|];
    cbn [peer_conversation models.Message_with_ConversationID models.Message_with_UserID
         models.MessageID models.Timestamp models.UserID models.ConversationID
         models.Content peer_id_or_zero peer_id];
    by split_and!.
Qed.

End batch_properties.

(** ** The conversation listing *)

Module dialog_properties.
Import listing invariants strconv_facts listing_properties.

Section Listing.
Variable TrimSpace : string → string.

Lemma find_chat_Some (chats : list ChatClass) (chatID : Z) (chat : Chat) :
  find_chat chats chatID = Some chat → AChat chat ∈ chats ∧ Chat_ID chat = chatID.
Proof.
  induction chats as [|[id|c|id t|c|id h t] rest IH]; simpl; [done|..];
    try (intros Hfind; destruct (IH Hfind); split; [by right|done]).
  case_bool_decide as Hid.
  - intros [= ->]. split; [by left|done].
  - intros Hfind. destruct (IH Hfind). split; [by right|done].
Qed.

(** X14. The access hash survives the listing: a dialog that is listed is later
    fetched under the peer of its kind, with the id and the access hash of
    the entity the listing found for it. *)
Theorem listed_dialog_peer (now : Z) (dialog : DialogClass) (chats : list ChatClass)
    (users : list UserClass) :
  (∀ user, AUser user ∈ users → int64 (tg.User_AccessHash (User_data user))) →
  (∀ channel, AChannel channel ∈ chats → int64 (Channel_AccessHash channel)) →
  let conv := parseDialog TrimSpace now dialog chats users in
  models.Conversation_Title conv ≠ "" →
  match dialog with
  | ADialog (Some (tg.PeerUser userID)) =>
      ∃ user,
        find_user users userID = Some user
        ∧ telegram.choose_peer (models.Conversation_ID conv) (models.Conversation_Type conv)
            (models.Conversation_AccessHash conv)
          = telegram.UsePeer
              (tg.InputPeerUser userID (tg.User_AccessHash (User_data user)))
  | ADialog (Some (tg.PeerChat chatID)) =>
      telegram.choose_peer (models.Conversation_ID conv) (models.Conversation_Type conv)
        (models.Conversation_AccessHash conv)
      = telegram.UsePeer (tg.InputPeerChat chatID)
  | ADialog (Some (tg.PeerChannel channelID)) =>
      ∃ channel,
        find_channel chats channelID = Some channel
        ∧ telegram.choose_peer (models.Conversation_ID conv) (models.Conversation_Type conv)
            (models.Conversation_AccessHash conv)
          = telegram.UsePeer (tg.InputPeerChannel channelID (Channel_AccessHash channel))
  | _ => False
  end.
Proof. apply parsed_dialog_peer. Qed.

Lemma parse_dialogs_elem (clock : nat → Z) (i : nat) (ds : list DialogClass)
    (chats : list ChatClass) (users : list UserClass) (conv : models.Conversation) :
  conv ∈ parse_dialogs TrimSpace clock i ds chats users →
  ∃ now dialog,
    dialog ∈ ds ∧ conv = parseDialog TrimSpace now dialog chats users
    ∧ models.Conversation_Title conv ≠ "".
Proof.
  revert i. induction ds as [|d ds IH]; intros i; simpl; [by intros Hin%elem_of_nil|].
  intros Hin. apply elem_of_app in Hin as [Hin|Hin].
  - case_bool_decide as Htitle; [|by apply elem_of_nil in Hin].
    apply list_elem_of_singleton in Hin as ->.
    exists (clock i), d. split_and!; [by left|done|done].
  - destruct (IH _ Hin) as (now & dialog & Hd & Hconv & Htitle).
    exists now, dialog. split_and!; [by right|done|done].
Qed.

(** X15. Every conversation of a listing has a title and is fetched under a peer
    of its kind: its fetch is never refused for its access hash and never
    takes the probing path. *)
Theorem listed_conversations_resolve (clock : nat → Z) (dialogs : MessagesDialogsClass)
    (conv : models.Conversation) :
  (∀ user, AUser user ∈ listed_users dialogs → int64 (tg.User_AccessHash (User_data user))) →
  (∀ channel, AChannel channel ∈ listed_chats dialogs → int64 (Channel_AccessHash channel)) →
  conv ∈ conversations_of TrimSpace clock dialogs →
  models.Conversation_Title conv ≠ ""
  ∧ ∃ peer,
      telegram.choose_peer (models.Conversation_ID conv) (models.Conversation_Type conv)
        (models.Conversation_AccessHash conv)
      = telegram.UsePeer peer.
Proof.
  intros Husers Hchannels Hin.
  assert (Hparsed : ∃ now dialog,
    conv = parseDialog TrimSpace now dialog (listed_chats dialogs) (listed_users dialogs)
    ∧ models.Conversation_Title conv ≠ "").
  { destruct dialogs as [ds chats users|ds chats users|count]; simpl in *;
      [| |by apply elem_of_nil in Hin];
      apply parse_dialogs_elem in Hin as (now & dialog & _ & Hconv & Htitle);
      by exists now, dialog. }
  destruct Hparsed as (now & dialog & -> & Htitle). split; [done|].
  pose proof (parsed_dialog_peer TrimSpace now dialog _ _ Husers Hchannels Htitle) as Hpeer.
  destruct dialog as [[[userID|chatID|channelID]|]|]; try done.
  - destruct Hpeer as (user & _ & Hpeer). by eexists.
  - by eexists.
  - destruct Hpeer as (channel & _ & Hpeer). by eexists.
Qed.

(** X16. The channel resync covers exactly the dialogs whose peer is a channel
    that the listing found: users, bots and basic groups are never resynced
    by it. *)
Theorem resync_covers_channels (now : Z) (dialog : DialogClass) (chats : list ChatClass)
    (users : list UserClass) :
  engine.is_channel_like (parseDialog TrimSpace now dialog chats users) = true
  ↔ ∃ channelID channel,
      dialog = ADialog (Some (tg.PeerChannel channelID))
      ∧ find_channel chats channelID = Some channel.
Proof.
  unfold engine.is_channel_like. split.
  - intros Hlike. destruct dialog as [[[userID|chatID|channelID]|]|]; simpl in Hlike;
      try discriminate Hlike.
    + destruct (find_user users userID) as [user|]; [|discriminate Hlike].
      simpl in Hlike. by destruct (tg.User_Bot (User_data user)).
    + destruct (find_chat chats chatID) as [chat|]; discriminate Hlike.
    + destruct (find_channel chats channelID) as [channel|] eqn:Hfind; [|discriminate Hlike].
      by exists channelID, channel.
  - intros (channelID & channel & -> & Hfind). simpl. rewrite Hfind. simpl.
    rewrite (bool_decide_eq_true_2 (pretty (Channel_AccessHash channel) ≠ ""))
      by apply pretty_Z_nonempty.
    by destruct (Channel_Broadcast channel).
Qed.

End Listing.

(** The channel 500 with access hash -12345 is listed with the text of the
    hash and fetched under a channel peer with that hash. *)
Lemma listed_dialog_peer_witness :
  let conv := parseDialog samples.trim_blanks 1700000000
                (ADialog (Some (tg.PeerChannel 500))) [samples.news; samples.friends]
                [UserEmpty 76; samples.ada] in
  models.Conversation_AccessHash conv = "-12345"
  ∧ telegram.choose_peer (models.Conversation_ID conv) (models.Conversation_Type conv)
      (models.Conversation_AccessHash conv)
    = telegram.UsePeer (tg.InputPeerChannel 500 (-12345)).
Proof.
  intros conv. split; [reflexivity|].
  assert (Husers : ∀ user, AUser user ∈ [UserEmpty 76; samples.ada] →
                           int64 (tg.User_AccessHash (User_data user))).
  { intros user Hin. apply elem_of_cons in Hin as [Hin|Hin]; [discriminate Hin|].
    apply list_elem_of_singleton in Hin. injection Hin as ->. unfold int64. simpl. lia. }
  assert (Hchannels : ∀ channel, AChannel channel ∈ [samples.news; samples.friends] →
                                 int64 (Channel_AccessHash channel)).
  { intros channel Hin. apply elem_of_cons in Hin as [Hin|Hin].
    - injection Hin as ->. unfold int64. simpl. lia.
    - apply list_elem_of_singleton in Hin. discriminate Hin. }
  destruct (listed_dialog_peer samples.trim_blanks 1700000000
              (ADialog (Some (tg.PeerChannel 500))) [samples.news; samples.friends]
              [UserEmpty 76; samples.ada] Husers Hchannels)
    as (channel & Hfind & Hpeer); [discriminate|].
  injection Hfind as <-. exact Hpeer.
Defined.

(** The user of the sample listing is listed and resolves to a peer. *)
Lemma listed_conversations_resolve_witness :
  let conv := models.mkConversation 77 0 "user" "Ada" "ada" "telegram://avatar/5" "9001" ""
                1700000001 in
  conv ∈ conversations_of samples.trim_blanks samples.clock samples.dialogs
  ∧ ∃ peer, telegram.choose_peer 77 "user" "9001" = telegram.UsePeer peer.
Proof.
  intros conv.
  assert (Hin : conv ∈ conversations_of samples.trim_blanks samples.clock samples.dialogs).
  { vm_compute. right. left. }
  split; [exact Hin|].
  refine (proj2 (listed_conversations_resolve samples.trim_blanks samples.clock
                   samples.dialogs conv _ _ Hin)).
  - intros user Huser. apply elem_of_cons in Huser as [Huser|Huser]; [discriminate Huser|].
    apply list_elem_of_singleton in Huser. injection Huser as ->. unfold int64. simpl. lia.
  - intros channel Hchannel. apply elem_of_cons in Hchannel as [Hchannel|Hchannel].
    + injection Hchannel as ->. unfold int64. simpl. lia.
    + apply list_elem_of_singleton in Hchannel. discriminate Hchannel.
Defined.

End dialog_properties.

(** ** The client *)

Module client_facts.
Import runtime control telegram spec invariants runtime_facts.

Section Client.
Context {S : Type} (api : Api S).

Lemma refuse_GetDialogs (w : World S) :
  isConnected (client w) = false → GetDialogs api w = ret (Err "client not connected") w.
Proof. intros Hconn. unfold GetDialogs. by rewrite bind_get_client, Hconn. Qed.

Lemma refuse_GetUpdates (w : World S) (pts date qts : Z) :
  isConnected (client w) = false →
  GetUpdates api pts date qts w = ret (Err "client not connected") w.
Proof. intros Hconn. unfold GetUpdates. by rewrite bind_get_client, Hconn. Qed.

Lemma refuse_GetMessagesWithConvInfo (w : World S) (peerID limit : Z)
    (convType accessHash : string) :
  isConnected (client w) = false →
  GetMessagesWithConvInfo api peerID limit convType accessHash w
  = ret (Err "client not connected") w.
Proof. intros Hconn. unfold GetMessagesWithConvInfo. by rewrite bind_get_client, Hconn. Qed.

End Client.

End client_facts.

Module client_properties.
Import runtime control telegram spec invariants runtime_facts client_facts.

Section Client.
Context {S : Type} (api : Api S).

(** X17. A client that is not connected refuses every request on the spot: the
    answer is the error "client not connected" (false for the liveness
    probe), nothing is asked of the platform and nothing changes. *)
Theorem not_connected_refuses (w : World S) (peerID limit pts date qts : Z)
    (convType accessHash : string) :
  isConnected (client w) = false →
  GetDialogs api w = ret (Err "client not connected") w
  ∧ GetMessages api peerID limit w = ret (Err "client not connected") w
  ∧ GetMessagesWithConvInfo api peerID limit convType accessHash w
    = ret (Err "client not connected") w
  ∧ GetUpdates api pts date qts w = ret (Err "client not connected") w
  ∧ GetState api w = ret (Err "client not connected") w
  ∧ IsAuthenticated api w = ret false w.
Proof.
  intros Hconn.
  split_and!; [by apply refuse_GetDialogs| |by apply refuse_GetMessagesWithConvInfo
              |by apply refuse_GetUpdates| |].
  - unfold GetMessages. by rewrite bind_get_client, Hconn.
  - unfold GetState. by rewrite bind_get_client, Hconn.
  - unfold IsAuthenticated. by rewrite bind_get_client, Hconn.
Qed.

(** X18. [Connect] leaves the client with the credentials asked for and storage
    as it was; it starts at most one client goroutine; and once it has
    returned without error with the connection up, connecting again with the
    same credentials starts nothing. *)
Theorem Connect_outcome (w : World S) (appID' : Z) (appHash' : string) :
  let o := Connect api appID' appHash' w in
  appID (client (world o)) = appID'
  ∧ appHash (client (world o)) = appHash'
  ∧ db (world o) = db w
  ∧ (events o = [] ∨ events o = [Go (ClientRun appID' appHash'); Sleep 2])
  ∧ (isConnected (client (world o)) = true →
     Connect api appID' appHash' (world o) = ret None (world o)).
Proof.
  intros o. remember (Connect api appID' appHash' w) as run eqn:Hrun. subst o.
  unfold Connect in Hrun. rewrite bind_get_client in Hrun.
  assert (Hagain : ∀ w', isConnected (client w') = true → appID (client w') = appID' →
                         appHash (client w') = appHash' →
                         Connect api appID' appHash' w' = ret None w').
  { intros w' Hconn Hid Hhash. unfold Connect. rewrite bind_get_client.
    by rewrite Hconn, Hid, Hhash, !bool_decide_eq_true_2. }
  destruct (isConnected (client w) && bool_decide (appID (client w) = appID')
            && bool_decide (appHash (client w) = appHash')) eqn:Hsame.
  - apply andb_true_iff in Hsame as [Hsame Hhash].
    apply andb_true_iff in Hsame as [Hconn Hid].
    apply bool_decide_eq_true in Hid, Hhash. subst run. cbn [ret world events].
    split_and!; [done|done|done|by left|]. intros _. by apply Hagain.
  - unfold bind, emit, outside, set_client, get_client, ret in Hrun. simpl in Hrun.
    destruct (MkdirAll api (remote w)) as [[err|] s1]; simpl in Hrun; subst run;
      cbn [world events client db appID appHash isConnected].
    + split_and!; [done|done|done|by left|]. intros Hup. by apply Hagain.
    + split_and!; [done|done|done|by right|]. intros Hup. by apply Hagain.
Qed.

End Client.

(** A client that never connected refuses the listing and the difference
    request. *)
Lemma not_connected_refuses_witness :
  let api := fixtures.scripted fixtures.channel_feed in
  let w := fixtures.idle fixtures.stored_db in
  GetDialogs api w = ret (Err "client not connected") w
  ∧ GetUpdates api 100 1000 7 w = ret (Err "client not connected") w.
Proof.
  intros api w.
  destruct (not_connected_refuses api w 500 50 100 1000 7 "channel" "12345" eq_refl)
    as (Hlisting & _ & _ & Hupdates & _).
  by split.
Defined.

End client_properties.

(** ** Passes, resyncs and ticks *)

Module engine_properties.
Import runtime control telegram engine spec invariants runtime_facts engine_facts.
Import keeps_facts batch_facts footprint_facts keys_facts client_facts.

Lemma filter_none {A} (P : A → Prop) `{!∀ x, Decision (P x)} (l : list A) :
  Forall (λ x, ¬ P x) l → filter P l = [].
Proof.
  induction 1 as [|x l Hx _ IH]; [done|].
  rewrite filter_cons. by destruct (decide (P x)).
Qed.

Lemma SaveMessage_tables (d : database.DB) (msg : models.Message) :
  database.users (database.SaveMessage d msg).2 = database.users d
  ∧ database.conversations (database.SaveMessage d msg).2 = database.conversations d
  ∧ database.updates_state (database.SaveMessage d msg).2 = database.updates_state d
  ∧ database.auth_sessions (database.SaveMessage d msg).2 = database.auth_sessions d.
Proof. unfold database.SaveMessage. by destruct (database.online d). Qed.

Section Engine.
Context {S : Type} (api : Api S).

(** X19. A pass writes for its own user only: every conversation and every
    message it saves carries the id of the user of the pass, the only cursor
    it writes is that user's, and it writes no user row. *)
Theorem pass_writes_own_rows (w : World S) (userID : Z) :
  Forall (λ e, (∀ owner, written_for e = Some owner → owner = userID)
               ∧ ∀ user, e ≠ ExecSaveUser user)
    (events (autoSyncUser api userID w)).
Proof.
  apply (keeps_autoSyncUser api (λ _, True)
           (λ e, (∀ owner, written_for e = Some owner → owner = userID)
                 ∧ ∀ user, e ≠ ExecSaveUser user) userID); try done.
  - intros conv <-. split; [by intros owner [= <-]|done].
  - intros msg <-. split; [by intros owner [= <-]|done].
  - intros pts qts date seq. split; [by intros owner [= <-]|done].
Qed.

(** X20. The channel resync writes messages of its user and nothing else: the
    users, the conversations, the sessions and the cursors are as before; and
    all it asks of the platform is the history of channel-style peers, 50
    messages at a time. *)
Theorem resync_footprint (w : World S) (userID : Z) :
  let o := channelSync api userID w in
  Forall (λ e, (is_write e = true →
                ∃ msg, e = ExecSaveMessage msg ∧ models.UserID msg = userID)
               ∧ (is_call e = true → channel_history_call e))
    (events o)
  ∧ database.users (db (world o)) = database.users (db w)
  ∧ database.conversations (db (world o)) = database.conversations (db w)
  ∧ database.updates_state (db (world o)) = database.updates_state (db w)
  ∧ database.auth_sessions (db (world o)) = database.auth_sessions (db w).
Proof.
  intros o.
  destruct (keeps_channelSync api
              (λ d, database.users d = database.users (db w)
                    ∧ database.conversations d = database.conversations (db w)
                    ∧ database.updates_state d = database.updates_state (db w)
                    ∧ database.auth_sessions d = database.auth_sessions (db w))
              (λ e, (is_write e = true →
                     ∃ msg, e = ExecSaveMessage msg ∧ models.UserID msg = userID)
                    ∧ (is_call e = true → channel_history_call e))
              userID) with (w := w) as [Htables Hevents]; try done.
  - intros d msg _ (Hu & Hc & Hs & Ha).
    destruct (SaveMessage_tables d msg) as (-> & -> & -> & ->). done.
  - intros e (channelID & accessHash & ->). split; [done|].
    intros _. by exists channelID, accessHash.
  - intros msg Hown. split; [|done]. intros _. by exists msg.
Qed.

(** X21. A bootstrap never starts the channel resync; an incremental pass starts
    it once, for its own user, whatever the difference request returns. *)
Theorem resync_started_once (w : World S) (userID : Z) :
  database.online (db w) = true →
  let c := stored_cursor (db w) userID in
  filter (λ e, starts_resync e = true) (events (autoSyncUser api userID w))
  = if no_state (tg.Pts c) (tg.Qts c) (tg.Date c) then [] else [Go (ChannelSync userID)].
Proof.
  intros Honline c.
  pose proof (autoSyncUser_events api userID w Honline) as Hrun. cbv zeta in Hrun.
  fold c in Hrun.
  assert (Hquiet : ∀ A (m : M S A),
    keeps (λ _, True) (λ e, starts_resync e = false) m →
    filter (λ e, starts_resync e = true) (events (m w)) = []).
  { intros A m Hm. apply filter_none. destruct (Hm w I) as [_ Hevents].
    eapply Forall_impl; [exact Hevents|]. intros e He. by rewrite He. }
  destruct (no_state (tg.Pts c) (tg.Qts c) (tg.Date c)); destruct Hrun as [-> _].
  - rewrite !filter_cons. cbn [starts_resync].
    destruct (decide (false = true)) as [Hno|_]; [discriminate Hno|].
    rewrite filter_app, Hquiet by (by apply keeps_full_sync).
    by destruct (value (full_sync api userID w)).
  - rewrite filter_cons. cbn [starts_resync].
    destruct (decide (false = true)) as [Hno|_]; [discriminate Hno|].
    rewrite filter_app, Hquiet by (by apply keeps_incremental_sync).
    done.
Qed.

(** X22. Every tick, every pass and every channel resync keep the keys of the
    tables unique: one row per user id, one per conversation id, one per
    (user, conversation, remote message id), and surrogate message ids that
    are distinct and bounded by the counter. *)
Theorem keys_stay_unique (w : World S) :
  well_keyed (db w) →
  well_keyed (db (world (tick api w)))
  ∧ (∀ userID, well_keyed (db (world (autoSyncUser api userID w))))
  ∧ (∀ userID, well_keyed (db (world (channelSync api userID w)))).
Proof.
  intros Hkeys. split_and!.
  - refine (proj1 (keeps_tick api well_keyed (λ _, True) _ _ _ _ _ w Hkeys)); intros;
      first [done | by apply SaveUser_keyed | by apply SaveConversation_keyed
            | by apply SaveMessage_keyed | by apply SaveUpdatesState_keyed].
  - intros userID.
    refine (proj1 (keeps_autoSyncUser api well_keyed (λ _, True) userID
                     _ _ _ _ _ _ _ _ _ _ _ _ _ w Hkeys)); intros;
      first [done | by apply SaveConversation_keyed
            | by apply SaveMessage_keyed | by apply SaveUpdatesState_keyed].
  - intros userID.
    refine (proj1 (keeps_channelSync api well_keyed (λ _, True) userID _ _ _ _ w Hkeys));
      intros; first [done | by apply SaveMessage_keyed].
Qed.

Lemma pause_of_iteration (userID i : Z) (dialog : models.Conversation) (w : World S) :
  let body := λ (i : Z) (dialog : models.Conversation),
    when (0 <? i) (emit (Sleep 1)) ;;;
    let! messages :=
      GetMessagesWithConvInfo api (models.Conversation_ID dialog) 50
        (models.Conversation_Type dialog) (models.Conversation_AccessHash dialog) in
    match messages with
    | Err _ => ret tt
    | Ok messages =>
        for_range messages (λ msg,
          SaveMessage (models.Message_with_UserID msg userID) ;;; ret tt)
    end in
  filter (λ e, is_sleep e = true) (events (body i dialog w))
  = if 0 <? i then [Sleep 1] else [].
Proof.
  intros body. subst body. cbv beta. rewrite events_bind, filter_app. cbn beta.
  rewrite (filter_none (λ e, is_sleep e = true) (events (bind _ _ _))).
  - rewrite app_nil_r. by destruct (0 <? i).
  - assert (Hbody : keeps (S := S) (λ _, True) (λ e, is_sleep e = false)
      (let! messages :=
         GetMessagesWithConvInfo api (models.Conversation_ID dialog) 50
           (models.Conversation_Type dialog) (models.Conversation_AccessHash dialog) in
       match messages with
       | Err _ => ret tt
       | Ok messages =>
           for_range messages (λ msg,
             SaveMessage (models.Message_with_UserID msg userID) ;;; ret tt)
       end)).
    { apply keeps_bind; [by apply keeps_GetMessagesWithConvInfo|].
      intros [messages|err]; [|apply keeps_ret].
      apply keeps_for_range. intros msg _.
      apply keeps_bind; [|intros _; apply keeps_ret].
      unfold SaveMessage. apply keeps_bind; [by apply keeps_emit|].
      intros _. by apply keeps_exec. }
    destruct (Hbody (world (when (0 <? i) (emit (Sleep 1)) w)) I) as [_ Hevents].
    eapply Forall_impl; [exact Hevents|]. intros e He. by rewrite He.
Qed.

(** X23. The bootstrap pauses one second between two conversations and not
    before the first: for n conversations, n - 1 pauses. *)
Theorem bootstrap_pauses (w : World S) (userID : Z) (dialogs : list models.Conversation) :
  filter (λ e, is_sleep e = true) (events (sync_recent_messages api userID dialogs w))
  = replicate (pred (length dialogs)) (Sleep 1).
Proof.
  unfold sync_recent_messages.
  assert (Hfrom : ∀ dialogs i w, 0 ≤ i →
    filter (λ e, is_sleep e = true)
      (events (for_range_from i dialogs
                 (λ (i : Z) (dialog : models.Conversation),
                    when (0 <? i) (emit (Sleep 1)) ;;;
                    let! messages :=
                      GetMessagesWithConvInfo api (models.Conversation_ID dialog) 50
                        (models.Conversation_Type dialog)
                        (models.Conversation_AccessHash dialog) in
                    match messages with
                    | Err _ => ret tt
                    | Ok messages =>
                        for_range messages (λ msg,
                          SaveMessage (models.Message_with_UserID msg userID) ;;; ret tt)
                    end) w))
    = replicate (length dialogs - (if 0 <? i then 0 else 1)) (Sleep 1)).
  { clear. intros dialogs. induction dialogs as [|dialog rest IH]; intros i w Hi.
    - by destruct (0 <? i).
    - cbn [for_range_from]. rewrite events_bind, filter_app. cbn beta.
      rewrite (pause_of_iteration userID i dialog w).
      rewrite IH by lia.
      assert ((0 <? i + 1) = true) as -> by (apply Z.ltb_lt; lia).
      rewrite Nat.sub_0_r. cbn [length].
      destruct (0 <? i); [done|]. by rewrite Nat.sub_succ, Nat.sub_0_r. }
  rewrite Hfrom by done. cbn [Z.ltb Z.compare]. by destruct dialogs; simpl; rewrite ?Nat.sub_0_r.
Qed.

(** X24. With a client that is not connected, a pass and a channel resync ask
    nothing of the platform, write nothing, and leave the world as it is. *)
Theorem disconnected_pass (w : World S) (userID : Z) :
  isConnected (client w) = false →
  (world (autoSyncUser api userID w) = w
   ∧ Forall (λ e, is_call e = false ∧ is_write e = false)
       (events (autoSyncUser api userID w)))
  ∧ (world (channelSync api userID w) = w
     ∧ Forall (λ e, is_call e = false ∧ is_write e = false)
         (events (channelSync api userID w))).
Proof.
  intros Hconn. split.
  - assert (Hread : stored_state userID w = ret (value (stored_state userID w)) w).
    { unfold stored_state. rewrite bind_query.
      by destruct (database.GetUpdatesState (db w) userID) as [[[[pts qts] date] seq] [err|]]. }
    assert (Hfull : full_sync api userID w = ret false w).
    { unfold full_sync. by rewrite (bind_ret_at _ _ _ _ (refuse_GetDialogs api w Hconn)). }
    assert (Hincremental : ∀ pts qts date seq,
      incremental_sync api userID pts qts date seq w
      = mkOutcome tt w [Log (DoingIncrementalSync userID pts qts date seq);
                        Log (FallingBackToChannelSync userID)]).
    { intros pts qts date seq. unfold incremental_sync. rewrite bind_emit.
      by rewrite (bind_ret_at _ _ _ _ (refuse_GetUpdates api w pts date qts Hconn)). }
    unfold autoSyncUser. rewrite bind_emit. cbn [world events].
    rewrite (bind_ret_at _ _ _ _ Hread).
    destruct (value (stored_state userID w)) as [[[pts qts] date] seq].
    destruct (bool_decide (pts = 0) && bool_decide (qts = 0) && bool_decide (date = 0)).
    + rewrite bind_emit. cbn [world events]. rewrite (bind_ret_at _ _ _ _ Hfull).
      split; [done|]. by repeat constructor.
    + unfold bind. rewrite Hincremental. cbn.
      split; [done|]. by repeat constructor.
  - unfold channelSync. rewrite bind_query.
    destruct (database.GetConversationsByUserID (db w) userID) as [channels|err];
      [|split; [done|constructor]].
    apply (for_range_invariant (λ w', w' = w)
             (λ e, is_call e = false ∧ is_write e = false)); [|done].
    intros conv w' ->. unfold sync_conversation.
    destruct (is_channel_like conv); [|split; [done|constructor]].
    rewrite bind_emit. cbn [world events]. rewrite bind_query.
    rewrite (bind_ret_at _ _ _ _
               (refuse_GetMessagesWithConvInfo api w (models.Conversation_ID conv) 50
                  (models.Conversation_Type conv) (models.Conversation_AccessHash conv) Hconn)).
    split; [done|]. by repeat constructor.
Qed.

End Engine.

(** With a cursor stored the pass starts the resync once; with none it starts
    none. *)
Lemma resync_started_once_witness :
  let api := fixtures.scripted fixtures.channel_feed in
  filter (λ e, starts_resync e = true)
    (events (autoSyncUser api 1 (fixtures.connected fixtures.stored_db)))
  = [Go (ChannelSync 1)]
  ∧ filter (λ e, starts_resync e = true)
      (events (autoSyncUser api 1 (fixtures.connected fixtures.empty_db)))
    = [].
Proof.
  intros api. split.
  - exact (resync_started_once api (fixtures.connected fixtures.stored_db) 1 eq_refl).
  - exact (resync_started_once api (fixtures.connected fixtures.empty_db) 1 eq_refl).
Defined.

(** A pass and a resync over the stored sample keep its keys unique. *)
Lemma keys_stay_unique_witness :
  let api := fixtures.scripted fixtures.channel_feed in
  well_keyed (db (world (autoSyncUser api 1 (fixtures.connected fixtures.stored_db))))
  ∧ well_keyed (db (world (channelSync api 1 (fixtures.connected fixtures.stored_db)))).
Proof.
  intros api.
  assert (Hkeys : well_keyed fixtures.stored_db).
  { unfold well_keyed, unique_keys.
    split_and!; apply (bool_decide_unpack _); vm_compute; exact I. }
  destruct (keys_stay_unique api (fixtures.connected fixtures.stored_db) Hkeys)
    as (_ & Hpass & Hresync).
  split; [apply Hpass|apply Hresync].
Defined.

(** With a client that never connected, a pass and a resync leave the world as
    it is. *)
Lemma disconnected_pass_witness :
  let api := fixtures.scripted fixtures.channel_feed in
  let w := fixtures.idle fixtures.stored_db in
  world (autoSyncUser api 1 w) = w ∧ world (channelSync api 1 w) = w.
Proof.
  intros api w.
  destruct (disconnected_pass api w 1 eq_refl) as [[Hpass _] [Hresync _]].
  by split.
Defined.

End engine_properties.

(** ** Isolation between users and what a pass saves *)

Module coverage_facts.
Import runtime control telegram engine spec invariants runtime_facts engine_facts.
Import keeps_facts batch_facts footprint_facts.

Lemma SaveConversation_tables (d : database.DB) (conv : models.Conversation) :
  database.users (database.SaveConversation d conv).2 = database.users d
  ∧ database.messages (database.SaveConversation d conv).2 = database.messages d
  ∧ database.updates_state (database.SaveConversation d conv).2 = database.updates_state d
  ∧ database.auth_sessions (database.SaveConversation d conv).2 = database.auth_sessions d.
Proof. unfold database.SaveConversation. by destruct (database.online d). Qed.

Lemma SaveUpdatesState_tables (d : database.DB) (userID pts qts date seq : Z) :
  database.users (database.SaveUpdatesState d userID pts qts date seq).2 = database.users d
  ∧ database.messages (database.SaveUpdatesState d userID pts qts date seq).2
    = database.messages d
  ∧ database.auth_sessions (database.SaveUpdatesState d userID pts qts date seq).2
    = database.auth_sessions d
  ∧ ∀ other, other ≠ userID →
      database.updates_state (database.SaveUpdatesState d userID pts qts date seq).2 !! other
      = database.updates_state d !! other.
Proof.
  unfold database.SaveUpdatesState. destruct (database.online d); [|done].
  split_and!; [done..|]. intros other Hother. simpl. by rewrite lookup_insert_ne.
Qed.

Lemma SaveMessage_users (d : database.DB) (msg : models.Message) :
  database.users (database.SaveMessage d msg).2 = database.users d
  ∧ database.updates_state (database.SaveMessage d msg).2 = database.updates_state d
  ∧ database.auth_sessions (database.SaveMessage d msg).2 = database.auth_sessions d.
Proof. unfold database.SaveMessage. by destruct (database.online d). Qed.

Lemma SaveMessage_others (d : database.DB) (msg : models.Message) :
  filter (λ row, models.UserID row ≠ models.UserID msg)
    (database.messages (database.SaveMessage d msg).2)
  = filter (λ row, models.UserID row ≠ models.UserID msg) (database.messages d).
Proof.
  unfold database.SaveMessage. destruct (database.online d); [|done]. simpl.
  rewrite filter_app, filter_cons, filter_nil. simpl.
  destruct (decide (models.UserID msg ≠ models.UserID msg)) as [Hne|_]; [done|].
  rewrite app_nil_r. induction (database.messages d) as [|row rows IH]; [done|].
  rewrite !filter_cons.
  destruct (decide (models.UserID row ≠ models.UserID msg)) as [Hother|Hown].
  - destruct (decide (¬ database.same_key row msg)) as [_|Hkey].
    + rewrite filter_cons. destruct (decide (models.UserID row ≠ models.UserID msg)); [|done].
      by rewrite IH.
    + destruct Hkey. intros (Huser & _). done.
  - destruct (decide (¬ database.same_key row msg)); [|done].
    rewrite filter_cons. by destruct (decide (models.UserID row ≠ models.UserID msg)).
Qed.

Section Others.
Context (userID : Z) (d0 : database.DB).

Lemma others_SaveConversation (d : database.DB) (conv : models.Conversation) :
  same_for_others userID d0 d → same_for_others userID d0 (database.SaveConversation d conv).2.
Proof.
  intros (Hs & Hm & Hu & Ha).
  destruct (SaveConversation_tables d conv) as (Hu' & Hm' & Hs' & Ha').
  unfold same_for_others. by rewrite Hu', Hm', Hs', Ha'.
Qed.

Lemma others_SaveMessage (d : database.DB) (msg : models.Message) :
  models.UserID msg = userID →
  same_for_others userID d0 d → same_for_others userID d0 (database.SaveMessage d msg).2.
Proof.
  intros <- (Hs & Hm & Hu & Ha).
  destruct (SaveMessage_users d msg) as (Hu' & Hs' & Ha').
  unfold same_for_others. by rewrite Hu', Hs', Ha', SaveMessage_others.
Qed.

Lemma others_SaveUpdatesState (d : database.DB) (pts qts date seq : Z) :
  same_for_others userID d0 d →
  same_for_others userID d0 (database.SaveUpdatesState d userID pts qts date seq).2.
Proof.
  intros (Hs & Hm & Hu & Ha).
  destruct (SaveUpdatesState_tables d userID pts qts date seq) as (Hu' & Hm' & Ha' & Hs').
  unfold same_for_others. rewrite Hu', Hm', Ha'. split_and!; [|done..].
  intros other Hother. rewrite Hs' by done. by apply Hs.
Qed.

End Others.

Section Users.
Context (d0 : database.DB).

Lemma gained_SaveUser (d : database.DB) (user : models.User) (now : Z) :
  models.User_ID user ∈ models.User_ID <$> database.users d0 →
  no_user_gained d0 d →
  no_user_gained d0 (database.SaveUser d (models.User_with_IsActive user false) now).2.
Proof.
  intros Hknown [Hids Hactive]. unfold database.SaveUser.
  destruct (database.online d); [|done].
  split; unfold database.with_users; cbn [snd database.users].
  - intros id. rewrite fmap_app, elem_of_app, list_fmap_singleton, list_elem_of_singleton.
    cbn [models.User_ID models.User_with_UpdatedAt models.User_with_IsActive].
    rewrite <- Hids. split.
    + intros [Hin| ->]; [|by apply Hids].
      apply list_elem_of_fmap in Hin as (row & -> & Hrow).
      apply list_elem_of_filter in Hrow as [_ Hrow].
      apply list_elem_of_fmap. by exists row.
    + intros Hin. destruct (decide (id = models.User_ID user)) as [->|Hne]; [by right|].
      left. apply list_elem_of_fmap in Hin as (row & -> & Hrow).
      apply list_elem_of_fmap. exists row. split; [done|].
      by apply list_elem_of_filter.
  - intros row Hrow Hon. apply elem_of_app in Hrow as [Hrow|Hrow].
    + apply list_elem_of_filter in Hrow as [_ Hrow]. by apply Hactive.
    + apply list_elem_of_singleton in Hrow. subst row. discriminate Hon.
Qed.

End Users.

Section Engine.
Context {S : Type} (api : Api S).

Lemma save_all_saved (msgs : list models.Message) (w : World S) :
  saved_messages (events (for_range msgs (λ msg, SaveMessage msg ;;; ret tt) w)) = msgs.
Proof.
  revert w. induction msgs as [|msg rest IH]; intros w; [done|].
  rewrite for_range_cons_events, saved_messages_app, IH.
  by unfold SaveMessage, bind, emit, exec, ret.
Qed.

Lemma GetUpdates_saves_nothing (pts date qts : Z) (w : World S) :
  saved_messages (events (GetUpdates api pts date qts w)) = [].
Proof.
  unfold GetUpdates. rewrite bind_get_client.
  destruct (isConnected (client w)); [|done]. cbn [negb].
  unfold bind, emit, outside, ret. simpl.
  by destruct (UpdatesGetDifference api pts date qts (remote w)) as [[u|e] s].
Qed.

Lemma incremental_sync_saved (userID pts qts date seq : Z) (w : World S) :
  let diff := GetUpdates api pts date qts w in
  let o := incremental_sync api userID pts qts date seq w in
  match value diff with
  | Ok updates => saved_messages (events o) = normalizer.ParseUpdatesMessages updates userID
  | Err _ =>
      saved_messages (events o) = [] ∧ saved_cursors (events o) = [] ∧ db (world o) = db w
  end.
Proof.
  intros diff o. subst o. unfold incremental_sync.
  rewrite bind_emit. cbn [events world].
  rewrite events_bind, world_bind. cbn beta. fold diff.
  destruct (GetUpdates_effects api pts date qts w) as [Hdb Hcursors].
  fold diff in Hdb, Hcursors.
  pose proof (GetUpdates_saves_nothing pts date qts w) as Hnone. fold diff in Hnone.
  change (saved_messages (?e :: ?es)) with (saved_messages es).
  change (saved_cursors (?e :: ?es)) with (saved_cursors es).
  rewrite saved_messages_app, saved_cursors_app, Hnone, Hcursors. cbn [app].
  destruct (value diff) as [updates|err]; [|done].
  rewrite events_bind, saved_messages_app, save_all_saved. cbn beta.
  destruct ((0 <? tg.Pts (tg.State updates)) || (0 <? tg.Date (tg.State updates)));
    by rewrite app_nil_r.
Qed.

End Engine.

End coverage_facts.

Module coverage_properties.
Import runtime control telegram engine spec invariants runtime_facts engine_facts.
Import keeps_facts batch_facts footprint_facts coverage_facts.

Section Engine.
Context {S : Type} (api : Api S).

(** X25. A pass and a channel resync for one user leave what storage holds for
    the other users as it is: their cursors and their messages, the users
    and the sessions.  (Conversations are keyed by their id alone and are
    not part of this.) *)
Theorem other_users_untouched (w : World S) (userID : Z) :
  same_for_others userID (db w) (db (world (autoSyncUser api userID w)))
  ∧ same_for_others userID (db w) (db (world (channelSync api userID w))).
Proof.
  assert (Hstart : same_for_others userID (db w) (db w)) by done.
  split.
  - refine (proj1 (keeps_autoSyncUser api (same_for_others userID (db w)) (λ _, True) userID
                     _ _ _ _ _ _ _ _ _ _ _ _ _ w Hstart)); intros;
      first [done | by apply others_SaveConversation | by apply others_SaveMessage
            | by apply others_SaveUpdatesState].
  - refine (proj1 (keeps_channelSync api (same_for_others userID (db w)) (λ _, True) userID
                     _ _ _ _ w Hstart)); intros;
      first [done | by apply others_SaveMessage].
Qed.

(** X26. A tick neither adds nor removes a user, and it never makes a user
    active: the user ids of the table are those from before the tick, and
    every active row is a row from before the tick. *)
Theorem tick_gains_no_user (w : World S) :
  no_user_gained (db w) (db (world (tick api w))).
Proof.
  assert (Hstart : no_user_gained (db w) (db w)) by done.
  refine (proj1 (keeps_tick api (no_user_gained (db w))
                   (λ user, models.User_ID user ∈ models.User_ID <$> database.users (db w))
                   _ _ _ _ _ w Hstart)).
  - intros d users user [Hids _] Husers Huser. apply Hids.
    unfold database.GetUsers in Husers. destruct (database.online d); [|done].
    injection Husers as <-.
    rewrite database_facts.order_by_desc_perm, database_facts.scan_perm in Huser.
    apply list_elem_of_fmap. by exists user.
  - intros d user now Hknown Hd. by apply gained_SaveUser.
  - intros d conv [Hids Hactive].
    destruct (SaveConversation_tables d conv) as (Hu & _).
    unfold no_user_gained. by rewrite Hu.
  - intros d msg [Hids Hactive].
    destruct (SaveMessage_users d msg) as (Hu & _).
    unfold no_user_gained. by rewrite Hu.
  - intros d userID pts qts date seq [Hids Hactive].
    destruct (SaveUpdatesState_tables d userID pts qts date seq) as (Hu & _).
    unfold no_user_gained. by rewrite Hu.
Qed.

(** X27. After the first loop of a bootstrap on reachable storage, every listed
    conversation is stored for the user of the pass: under its id, the table
    holds a listed conversation of that id, stamped with the user. *)
Theorem bootstrap_stores_listing (w : World S) (userID : Z)
    (dialogs : list models.Conversation) (dialog : models.Conversation) :
  database.online (db w) = true →
  dialog ∈ dialogs →
  ∃ listed,
    listed ∈ dialogs
    ∧ models.Conversation_ID listed = models.Conversation_ID dialog
    ∧ models.Conversation_with_UserID listed userID
      ∈ database.conversations (db (world (save_conversations userID dialogs w))).
Proof.
  intros Honline. revert dialog.
  induction dialogs as [|last dialogs IH] using rev_ind; intros dialog Hin;
    [by apply elem_of_nil in Hin|].
  unfold save_conversations in *. rewrite for_range_app, world_bind. cbn beta.
  set (w1 := world (for_range dialogs _ w)) in *.
  assert (Honline1 : database.online (db w1) = true).
  { subst w1. rewrite <- Honline. apply (save_conversations_online userID dialogs w). }
  assert (Hlast : database.conversations
                    (db (world (for_range [last]
                                  (λ dialog, SaveConversation
                                               (models.Conversation_with_UserID dialog userID)
                                             ;;; ret tt) w1)))
    = filter (λ row, models.Conversation_ID row ≠ models.Conversation_ID last)
        (database.conversations (db w1))
      ++ [models.Conversation_with_UserID last userID]).
  { unfold for_range, SaveConversation, bind, emit, exec, ret, database.SaveConversation.
    simpl. by rewrite Honline1. }
  rewrite Hlast.
  destruct (decide (models.Conversation_ID dialog = models.Conversation_ID last)) as [Hsame|Hne].
  - exists last. split_and!; [apply elem_of_app; right; by left|done|].
    apply elem_of_app. right. by left.
  - apply elem_of_app in Hin as [Hin|Hin]; [|apply list_elem_of_singleton in Hin; by subst].
    destruct (IH dialog Hin) as (listed & Hlisted & Hid & Hstored).
    exists listed. split_and!; [apply elem_of_app; by left|done|].
    apply elem_of_app. left. apply list_elem_of_filter. split; [|done].
    simpl. by rewrite Hid.
Qed.

(** X28. An incremental pass hands to the upsert exactly the messages read off
    the difference, in order; when the difference request fails, it saves no
    message and no cursor and leaves storage as it is. *)
Theorem incremental_saves_difference (w : World S) (userID pts qts date seq : Z) :
  let diff := GetUpdates api pts date qts w in
  let o := incremental_sync api userID pts qts date seq w in
  match value diff with
  | Ok updates => saved_messages (events o) = normalizer.ParseUpdatesMessages updates userID
  | Err _ =>
      saved_messages (events o) = [] ∧ saved_cursors (events o) = [] ∧ db (world o) = db w
  end.
Proof. apply incremental_sync_saved. Qed.

(** X29. A difference that is too long to be sent is taken as a failure: the
    pass saves no message and no cursor, leaves storage as it is, and still
    starts the channel resync. *)
Theorem too_long_difference (w : World S) (userID pts' : Z) (s' : S) :
  database.online (db w) = true →
  isConnected (client w) = true →
  let c := stored_cursor (db w) userID in
  ¬ (tg.Pts c = 0 ∧ tg.Qts c = 0 ∧ tg.Date c = 0) →
  UpdatesGetDifference api (tg.Pts c) (tg.Date c) (tg.Qts c) (remote w)
  = (Ok (tg.UpdatesDifferenceTooLong pts'), s') →
  let o := autoSyncUser api userID w in
  db (world o) = db w
  ∧ saved_messages (events o) = []
  ∧ saved_cursors (events o) = []
  ∧ Go (ChannelSync userID) ∈ events o.
Proof.
  intros Honline Hconn c Hc Hdiff o.
  destruct (pass_branches api w userID Honline) as [_ Hinc].
  destruct (Hinc Hc) as [Hworld Hevents]. fold c o in Hworld, Hevents.
  pose proof (incremental_sync_saved api userID (tg.Pts c) (tg.Qts c) (tg.Date c) (tg.Seq c) w)
    as Hsaved. cbv zeta in Hsaved.
  assert (Hvalue : is_err (value (GetUpdates api (tg.Pts c) (tg.Date c) (tg.Qts c) w)) = true).
  { unfold GetUpdates. rewrite bind_get_client, Hconn. cbn [negb].
    unfold bind, emit, outside, ret. simpl. by rewrite Hdiff. }
  destruct (value (GetUpdates api (tg.Pts c) (tg.Date c) (tg.Qts c) w)) as [updates|err];
    [discriminate Hvalue|].
  destruct Hsaved as (Hmessages & Hcursors & Hdb).
  rewrite Hworld, Hevents. split_and!; [done| | |].
  - change (saved_messages (?e :: ?es)) with (saved_messages es).
    by rewrite saved_messages_app, Hmessages.
  - change (saved_cursors (?e :: ?es)) with (saved_cursors es).
    by rewrite saved_cursors_app, Hcursors.
  - right. apply elem_of_app. right. by left.
Qed.

End Engine.

(** Two listed conversations share the id 500: a listed conversation of that
    id is stored for user 2. *)
Lemma bootstrap_stores_listing_witness :
  let w := fixtures.connected fixtures.empty_db in
  ∃ listed,
    listed ∈ [fixtures.channel_conversation; fixtures.group_conversation "7"]
    ∧ models.Conversation_ID listed = 500
    ∧ models.Conversation_with_UserID listed 2
      ∈ database.conversations
          (db (world (save_conversations 2
                        [fixtures.channel_conversation; fixtures.group_conversation "7"] w))).
Proof.
  intros w.
  refine (bootstrap_stores_listing w 2
            [fixtures.channel_conversation; fixtures.group_conversation "7"]
            fixtures.channel_conversation eq_refl _).
  by left.
Defined.

(** With a cursor stored and a too long difference as the answer, the pass
    saves nothing and starts the resync. *)
Lemma too_long_difference_witness :
  let api := fixtures.scripted samples.too_long in
  let w := fixtures.connected fixtures.stored_db in
  let o := autoSyncUser api 1 w in
  db (world o) = db w
  ∧ saved_messages (events o) = []
  ∧ saved_cursors (events o) = []
  ∧ Go (ChannelSync 1) ∈ events o.
Proof.
  intros api w o.
  refine (too_long_difference api w 1 500 1 eq_refl eq_refl _ eq_refl).
  intros [Hpts _]. discriminate Hpts.
Defined.

End coverage_properties.
